(** * ImageMatrix: stitching and slicing jobs, their shell and their workers

    A shallow embedding of [main.py] (the Qt shell, the two worker threads and
    the job set-up) together with models of the three engines the shell
    imports ([sorter], [stitcher], [slicer]) and of the size-budget encoder
    they share.

    Layout: part I holds the definitions, part II the lemmas and theorems. *)

From Stdlib Require Import Bool Arith ZArith List String Ascii Lia.
From Stdlib Require Import DecimalString DecimalNat Permutation Sorted.
Import ListNotations.

Open Scope string_scope.

(* ================================================================= *)
(** * Part I: definitions *)
(* ================================================================= *)

(** ** Python built-ins used by [main.py] *)

Module Py.

(** The line feed, written ["\n"] in the source. *)
Definition nl : string := String (ascii_of_nat 10) EmptyString.

(** [str(n)] for a non-negative [int]. *)
Definition str_of_nat (n : nat) : string :=
  NilEmpty.string_of_uint (Nat.to_uint n).

(** [sep.join(parts)]. *)
Fixpoint join (sep : string) (parts : list string) : string :=
  match parts with
  | [] => ""
  | [p] => p
  | p :: rest => p ++ sep ++ join sep rest
  end.

Definition is_slash (c : ascii) : bool := Ascii.eqb c "/"%char.

Fixpoint has_slash (s : string) : bool :=
  match s with
  | EmptyString => false
  | String c rest => is_slash c || has_slash rest
  end.

(** [os.path.basename(p)]: what follows the last ["/"] ([posixpath]; Qt's
    [toLocalFile] hands out forward slashes on every platform). *)
Fixpoint basename (p : string) : string :=
  match p with
  | EmptyString => EmptyString
  | String c rest =>
      if has_slash rest then basename rest
      else if is_slash c then rest
      else p
  end.

(** Characters removed by [str.strip()] (ASCII white space). *)
Definition is_space (c : ascii) : bool :=
  let n := nat_of_ascii c in
  (Nat.eqb n 32) || ((9 <=? n)%nat && (n <=? 13)%nat) || ((28 <=? n)%nat && (n <=? 31)%nat).

Fixpoint lstrip (s : string) : string :=
  match s with
  | EmptyString => EmptyString
  | String c rest => if is_space c then lstrip rest else s
  end.

Fixpoint all_space (s : string) : bool :=
  match s with
  | EmptyString => true
  | String c rest => is_space c && all_space rest
  end.

Fixpoint rstrip (s : string) : string :=
  match s with
  | EmptyString => EmptyString
  | String c rest => if all_space s then EmptyString else String c (rstrip rest)
  end.

Definition strip (s : string) : string := rstrip (lstrip s).

Definition is_digit (c : ascii) : bool :=
  let n := nat_of_ascii c in ((48 <=? n)%nat && (n <=? 57)%nat).

Definition digit_val (c : ascii) : Z := Z.of_nat (nat_of_ascii c) - 48.

Definition is_underscore (c : ascii) : bool := Ascii.eqb c "_"%char.

(** Value of decimal digits, most significant first, a single underscore
    allowed between two digits; [None] on anything else. *)
Fixpoint digits_val (acc : Z) (s : string) : option Z :=
  match s with
  | EmptyString => Some acc
  | String c rest =>
      if is_digit c then digits_val (10 * acc + digit_val c) rest
      else if is_underscore c then
        match rest with
        | String d _ => if is_digit d then digits_val acc rest else None
        | EmptyString => None
        end
      else None
  end.

(** How many digits a text holds, underscores not counted. *)
Fixpoint count_digits (s : string) : Z :=
  match s with
  | EmptyString => 0
  | String c rest => (if is_digit c then 1 else 0) + count_digits rest
  end.

(** [sys.get_int_max_str_digits()] as Python sets it: [int] refuses decimal
    text with more digits. *)
Definition max_str_digits : Z := 4300.

Definition unsigned_int (s : string) : option Z :=
  match s with
  | EmptyString => None
  | String c _ =>
      if is_digit c then
        match digits_val 0 s with
        | Some z => if (max_str_digits <? count_digits s)%Z then None else Some z
        | None => None
        end
      else None
  end.

(** [int(s)] on text: white space around it is ignored, one sign is
    allowed, the rest must be decimal digits (underscores between digits
    are skipped), at most [max_str_digits] of them; [None] stands for the
    [ValueError] the source catches.  Only ASCII is read: on text with
    digits or blanks from elsewhere in Unicode, which Python reads too, a
    [None] here says nothing about the source. *)
Definition int (s : string) : option Z :=
  match strip s with
  | String "-"%char rest => option_map Z.opp (unsigned_int rest)
  | String "+"%char rest => unsigned_int rest
  | t => unsigned_int t
  end.

(** Truth value of a string ([not val_text] is [negb (truthy val_text)]). *)
Definition truthy (s : string) : bool :=
  match s with EmptyString => false | _ => true end.

(** [str(z)] for any [int]. *)
Definition str_of_int (z : Z) : string :=
  if (z <? 0)%Z then String "-"%char (str_of_nat (Z.to_nat (- z)))
  else str_of_nat (Z.to_nat z).

(** Text made of decimal digits only. *)
Fixpoint all_digits (s : string) : bool :=
  match s with
  | EmptyString => true
  | String c rest => is_digit c && all_digits rest
  end.

End Py.

(** ** Worker threads *)

(** What a worker's [except Exception as e: ...emit(False, str(e))] does not
    turn into a signal. *)
Inductive uncaught : Type :=
| NotAnException   (* SystemExit, KeyboardInterrupt, GeneratorExit: a
                      BaseException outside Exception *)
| StrRaises.       (* an Exception whose __str__ raises: str(e) in the handler
                      raises in its turn *)

(** What a call into an engine does: it returns its [(success, message)]
    pair, raises an [Exception] whose [str(e)] is the carried text, or
    raises what the workers' handlers do not deal with. *)
Inductive outcome (A : Type) : Type :=
| Returned (a : A)
| Raised (e : string)
| Uncaught (u : uncaught).
Arguments Returned {A} a.
Arguments Raised {A} e.
Arguments Uncaught {A} u.

(** One emission of [finished_signal = pyqtSignal(bool, str)]. *)
Record signal : Type := Signal { sig_success : bool; sig_message : string }.

(** Code running inside a worker: it threads the signals emitted so far and
    either finishes with a value or is unwinding with an exception. *)
Definition job (A : Type) : Type := list signal -> outcome A * list signal.

Definition ret {A} (a : A) : job A := fun tr => (Returned a, tr).

Definition bind {A B} (m : job A) (k : A -> job B) : job B :=
  fun tr =>
    match m tr with
    | (Returned a, tr') => k a tr'
    | (Raised e, tr') => (Raised e, tr')
    | (Uncaught u, tr') => (Uncaught u, tr')
    end.

(** A call into an engine: its outcome, no signal. *)
Definition call {A} (o : outcome A) : job A := fun tr => (o, tr).

(** [self.finished_signal.emit(success, message)]. *)
Definition emit (success : bool) (message : string) : job unit :=
  fun tr => (Returned tt, (tr ++ [Signal success message])%list).

(** [try: body except Exception as e: handler(str(e))]: what is not an
    [Exception] passes through, and so does the exception [str(e)] raises
    when it fails. *)
Definition try_except {A} (body : job A) (handler : string -> job A) : job A :=
  fun tr =>
    match body tr with
    | (Returned a, tr') => (Returned a, tr')
    | (Raised e, tr') => handler e tr'
    | (Uncaught u, tr') => (Uncaught u, tr')
    end.

Declare Scope job_scope.
Delimit Scope job_scope with job.
Notation "x <- m ;; k" := (bind m (fun x => k))
  (at level 61, m at next level, right associativity) : job_scope.

(** The signals a whole [run] leaves behind, started on a fresh thread. *)
Definition emitted {A} (m : job A) : list signal := snd (m []).

(** Whether an exception leaves [run]. *)
Definition escapes {A} (m : job A) : bool :=
  match fst (m []) with Returned _ => false | _ => true end.

Module StitcherThread.

Record t : Type := Make {
  image_paths : list string;
  output_dir : string;
  split_count : Z;
  target_width : option Z;
  max_kb : Z
}.

(** The imported [stitch_images], as the thread sees it. *)
Definition engine : Type :=
  list string -> string -> Z -> option Z -> Z -> outcome (bool * string).

Definition run (stitch_images : engine) (self : t) : job unit :=
  try_except
    (r <- call (stitch_images (image_paths self) (output_dir self)
                  (split_count self) (target_width self) (max_kb self)) ;;
     emit (fst r) (snd r))%job
    (fun e => emit false e).

(** What [stitch_images] does on the thread's arguments. *)
Definition outcome_of (stitch_images : engine) (self : t) : outcome (bool * string) :=
  stitch_images (image_paths self) (output_dir self) (split_count self)
    (target_width self) (max_kb self).

End StitcherThread.

Module SlicerThread.

Record t : Type := Make {
  image_paths : list string;
  output_dir : string;
  count : Z;
  smart_mode : bool;
  target_width : option Z;
  max_kb : Z
}.

(** The imported [slice_image], as the thread sees it.  The batch is the
    list the thread was given; drops that reach the window while the thread
    runs are not part of the model. *)
Definition engine : Type :=
  string -> string -> Z -> bool -> option Z -> Z -> outcome (bool * string).

(** The [for path in self.image_paths] loop with its two locals. *)
Fixpoint loop (slice_image : engine) (self : t) (paths : list string)
         (success_count : nat) (errors : list string)
  : job (nat * list string) :=
  match paths with
  | [] => ret (success_count, errors)
  | path :: rest =>
      (r <- call (slice_image path (output_dir self) (count self)
                    (smart_mode self) (target_width self) (max_kb self)) ;;
       if fst r
       then loop slice_image self rest (success_count + 1) errors
       else loop slice_image self rest success_count
              (errors ++ [(Py.basename path ++ ": " ++ snd r)%string])%list)%job
  end.

Definition msg_all (success_count : nat) : string :=
  "成功切分所有 " ++ Py.str_of_nat success_count ++ " 张图片。".

Definition msg_partial (success_count total : nat) (errors : list string) : string :=
  "部分成功 (" ++ Py.str_of_nat success_count ++ "/" ++ Py.str_of_nat total
    ++ ")。" ++ Py.nl ++ "失败列表:" ++ Py.nl ++ Py.join Py.nl errors.

Definition msg_none (errors : list string) : string :=
  "所有图片切分失败:" ++ Py.nl ++ Py.join Py.nl errors.

Definition run (slice_image : engine) (self : t) : job unit :=
  try_except
    (st <- loop slice_image self (image_paths self) 0 [] ;;
     let success_count := fst st in
     let errors := snd st in
     if Nat.eqb success_count (List.length (image_paths self))
     then emit true (msg_all success_count)
     else if (0 <? success_count)%nat
     then emit true (msg_partial success_count (List.length (image_paths self)) errors)
     else emit false (msg_none errors))%job
    (fun e => emit false e).

(** What [slice_image] does on one path of the batch. *)
Definition outcome_of (slice_image : engine) (self : t) (path : string)
  : outcome (bool * string) :=
  slice_image path (output_dir self) (count self) (smart_mode self)
    (target_width self) (max_kb self).

Definition succeeds (slice_image : engine) (self : t) (path : string) : bool :=
  match outcome_of slice_image self path with
  | Returned (true, _) => true
  | _ => false
  end.


Definition raises (slice_image : engine) (self : t) (path : string) : bool :=
  match outcome_of slice_image self path with
  | Returned _ => false
  | _ => true
  end.

(** Whether the call raises what the handler of [run] does not deal with. *)
Definition raises_uncaught (slice_image : engine) (self : t) (path : string) : bool :=
  match outcome_of slice_image self path with
  | Uncaught _ => true
  | _ => false
  end.

(** How many sources of the batch succeed. *)
Definition succeeded (slice_image : engine) (self : t) (paths : list string) : nat :=
  List.length (filter (succeeds slice_image self) paths).

(** The failed sources, each as its file name and the engine's message, in
    batch order. *)
Definition failure_lines (slice_image : engine) (self : t) (paths : list string)
  : list string :=
  flat_map
    (fun path =>
       match outcome_of slice_image self path with
       | Returned (false, msg) => [(Py.basename path ++ ": " ++ msg)%string]
       | _ => []
       end)
    paths.

End SlicerThread.

(** ** Qt widgets the shell reads and writes *)

Module QSlider.

Record t : Type := Make { minimum : Z; maximum : Z; value : Z }.

(** A slider as Qt constructs it. *)
Definition fresh : t := Make 0 99 0.

(** [QAbstractSliderPrivate::bound]. *)
Definition bound (s : t) (v : Z) : Z := Z.max (minimum s) (Z.min (maximum s) v).

(** [setValue]: the value is forced into the range.  This is also what a
    drag or a key press on the slider ends in. *)
Definition setValue (v : Z) (s : t) : t :=
  Make (minimum s) (maximum s) (bound s v).

(** [setRange]: the maximum never falls below the minimum, and the current
    value is bounded again. *)
Definition setRange (lo hi : Z) (s : t) : t :=
  let s' := Make lo (Z.max lo hi) (value s) in
  setValue (value s') s'.

Definition setMinimum (lo : Z) (s : t) : t := setRange lo (Z.max (maximum s) lo) s.

Definition setMaximum (hi : Z) (s : t) : t := setRange (Z.min (minimum s) hi) hi s.

End QSlider.

(** ** The main window *)

Module ImageMatrixApp.

(** The exclusive button group of the merge tab. *)
Inductive merge_width : Type := MOriginal | M750 | M1080 | MCustom.

(** The exclusive button group of the slice tab. *)
Inductive slice_width : Type := SOriginal | SCustom.

Record t : Type := Make {
  merge_images : list string;
  slice_images : list string;
  tabs_currentIndex : Z;
  m_radio : merge_width;
  m_custom_input : string;
  m_limit_slider : QSlider.t;
  m_split_slider : QSlider.t;
  s_radio : slice_width;
  s_custom_input : string;
  s_limit_slider : QSlider.t;
  s_count_slider : QSlider.t;
  s_smart_check : bool
}.

Definition m_radio_750_isChecked (self : t) : bool :=
  match m_radio self with M750 => true | _ => false end.
Definition m_radio_1080_isChecked (self : t) : bool :=
  match m_radio self with M1080 => true | _ => false end.
Definition m_radio_custom_isChecked (self : t) : bool :=
  match m_radio self with MCustom => true | _ => false end.
Definition s_radio_custom_isChecked (self : t) : bool :=
  match s_radio self with SCustom => true | _ => false end.

(** What the user sees or what is set going, besides the new state. *)
Inductive effect : Type :=
| Warning (title text : string)
| StartStitcher (thread : StitcherThread.t)
| StartSlicer (thread : SlicerThread.t).

(** [__init__] followed by [initUI]. *)
Definition init : t :=
  Make [] [] 0
    MOriginal ""
    (QSlider.setValue 1 (QSlider.setMaximum 5 (QSlider.setMinimum 0 QSlider.fresh)))
    (QSlider.setMaximum 1 (QSlider.setMinimum 1 QSlider.fresh))
    SOriginal ""
    (QSlider.setValue 1 (QSlider.setMaximum 5 (QSlider.setMinimum 0 QSlider.fresh)))
    (QSlider.setValue 5 (QSlider.setMaximum 50 (QSlider.setMinimum 1 QSlider.fresh)))
    true.

Definition lower_ascii (c : ascii) : ascii :=
  let n := nat_of_ascii c in
  if ((65 <=? n)%nat && (n <=? 90)%nat)%bool then ascii_of_nat (n + 32) else c.

(** [str.lower()] (on the ASCII letters). *)
Fixpoint lower (s : string) : string :=
  match s with
  | EmptyString => EmptyString
  | String c rest => String (lower_ascii c) (lower rest)
  end.

Fixpoint endswith (s suffix : string) : bool :=
  if String.eqb s suffix then true
  else match s with
       | EmptyString => false
       | String _ rest => endswith rest suffix
       end.

Definition valid_extensions : list string := [".jpg"; ".jpeg"; ".png"; ".psd"].

Definition is_image (f : string) : bool :=
  existsb (endswith (lower f)) valid_extensions.

Definition contains (l : list string) (x : string) : bool := existsb (String.eqb x) l.

(** The [for img in new_images] loop of the slice tab. *)
Fixpoint append_new (slice_images new_images : list string) : list string :=
  match new_images with
  | [] => slice_images
  | img :: rest =>
      if contains slice_images img then append_new slice_images rest
      else append_new (slice_images ++ [img])%list rest
  end.

(** [os.path.join(os.path.expanduser("~"), "Desktop")], the home folder
    left unexpanded. *)
Definition desktop_path : string := "~/Desktop".

Section Shell.

(** The imported [sort_files]. *)
Variable sort_files : list string -> list string.

(** [list(set(xs))]: the elements of [xs] in the order the set happens
    to iterate in, which Python leaves open. *)
Variable list_of_set : list string -> list string.

Definition dropEvent (files : list string) (self : t) : t * list effect :=
  let new_images := filter is_image files in
  match new_images with
  | [] => (self, [Warning "无效文件" "请只拖入支持的图片文件 (.jpg, .png, .psd)"])
  | _ =>
      if (tabs_currentIndex self =? 0)%Z then
        let combined_set := list_of_set (merge_images self ++ new_images)%list in
        let merge_images' := sort_files combined_set in
        (Make merge_images' (slice_images self) (tabs_currentIndex self)
           (m_radio self) (m_custom_input self) (m_limit_slider self)
           (QSlider.setMaximum (Z.max 1 (Z.of_nat (List.length merge_images')))
              (m_split_slider self))
           (s_radio self) (s_custom_input self) (s_limit_slider self)
           (s_count_slider self) (s_smart_check self), [])
      else
        (Make (merge_images self) (append_new (slice_images self) new_images)
           (tabs_currentIndex self)
           (m_radio self) (m_custom_input self) (m_limit_slider self)
           (m_split_slider self)
           (s_radio self) (s_custom_input self) (s_limit_slider self)
           (s_count_slider self) (s_smart_check self), [])
  end.

End Shell.

Definition clear_merge_list (self : t) : t :=
  Make [] (slice_images self) (tabs_currentIndex self)
    (m_radio self) (m_custom_input self) (m_limit_slider self)
    (QSlider.setValue 1 (QSlider.setMaximum 1 (m_split_slider self)))
    (s_radio self) (s_custom_input self) (s_limit_slider self)
    (s_count_slider self) (s_smart_check self).

Definition clear_slice_list (self : t) : t :=
  Make (merge_images self) [] (tabs_currentIndex self)
    (m_radio self) (m_custom_input self) (m_limit_slider self)
    (m_split_slider self)
    (s_radio self) (s_custom_input self) (s_limit_slider self)
    (s_count_slider self) (s_smart_check self).

Definition input_error : effect := Warning "输入错误" "请输入有效的宽度！".

(** The width chosen on the merge tab: [inl] is the [return] after the
    message box, [inr] the [target_width] the job gets. *)
Definition merge_target_width (self : t) : effect + option Z :=
  if m_radio_750_isChecked self then inr (Some 750%Z)
  else if m_radio_1080_isChecked self then inr (Some 1080%Z)
  else if m_radio_custom_isChecked self then
    let val_text := Py.strip (m_custom_input self) in
    if negb (Py.truthy val_text) then inl input_error
    else match Py.int val_text with
         | Some w => inr (Some w)
         | None => inl input_error
         end
  else inr None.

(** [start_stitching]: what the click shows or starts.  The thread gets the
    list [merge_images] is bound to; later drops and clears bind the field
    to a new list and leave the thread's one alone. *)
Definition start_stitching (self : t) : list effect :=
  match merge_images self with
  | [] => [Warning "提示" "请先添加图片！"]
  | _ =>
      let split_count := QSlider.value (m_split_slider self) in
      match merge_target_width self with
      | inl box => [box]
      | inr target_width =>
          let limit_val := (QSlider.value (m_limit_slider self) * 200)%Z in
          [StartStitcher
             (StitcherThread.Make (merge_images self) desktop_path split_count
                target_width limit_val)]
      end
  end.

(** The width chosen on the slice tab. *)
Definition slice_target_width (self : t) : effect + option Z :=
  if s_radio_custom_isChecked self then
    let val_text := Py.strip (s_custom_input self) in
    if negb (Py.truthy val_text) then inr (Some 750%Z)
    else match Py.int val_text with
         | Some w => inr (Some w)
         | None => inl input_error
         end
  else inr None.

(** [start_slicing]: what the click shows or starts. *)
Definition start_slicing (self : t) : list effect :=
  match slice_images self with
  | [] => [Warning "提示" "请先添加要切分的图片！"]
  | _ =>
      let count := QSlider.value (s_count_slider self) in
      let smart_mode := s_smart_check self in
      match slice_target_width self with
      | inl box => [box]
      | inr target_width =>
          let limit_val := (QSlider.value (s_limit_slider self) * 200)%Z in
          [StartSlicer
             (SlicerThread.Make (slice_images self) desktop_path count smart_mode
                target_width limit_val)]
      end
  end.

(** What can happen to the window: the user's gestures and clicks. *)
Inductive event : Type :=
| Drop (files : list string)
| SelectTab (index : Z)
| ChooseMergeWidth (w : merge_width)
| TypeMergeWidth (text : string)
| MoveMergeLimit (v : Z)
| MoveSplit (v : Z)
| ChooseSliceWidth (w : slice_width)
| TypeSliceWidth (text : string)
| MoveSliceLimit (v : Z)
| MoveCount (v : Z)
| ToggleSmart (checked : bool)
| ClickClearMerge
| ClickClearSlice
| ClickStartStitching
| ClickStartSlicing.

Section Run.

Variable sort_files : list string -> list string.
Variable list_of_set : list string -> list string.

Definition handle (ev : event) (self : t) : t * list effect :=
  match ev with
  | Drop files => dropEvent sort_files list_of_set files self
  | SelectTab i =>
      (Make (merge_images self) (slice_images self) i
         (m_radio self) (m_custom_input self) (m_limit_slider self)
         (m_split_slider self) (s_radio self) (s_custom_input self)
         (s_limit_slider self) (s_count_slider self) (s_smart_check self), [])
  | ChooseMergeWidth w =>
      (Make (merge_images self) (slice_images self) (tabs_currentIndex self)
         w (m_custom_input self) (m_limit_slider self)
         (m_split_slider self) (s_radio self) (s_custom_input self)
         (s_limit_slider self) (s_count_slider self) (s_smart_check self), [])
  | TypeMergeWidth text =>
      (Make (merge_images self) (slice_images self) (tabs_currentIndex self)
         (m_radio self) text (m_limit_slider self)
         (m_split_slider self) (s_radio self) (s_custom_input self)
         (s_limit_slider self) (s_count_slider self) (s_smart_check self), [])
  | MoveMergeLimit v =>
      (Make (merge_images self) (slice_images self) (tabs_currentIndex self)
         (m_radio self) (m_custom_input self)
         (QSlider.setValue v (m_limit_slider self))
         (m_split_slider self) (s_radio self) (s_custom_input self)
         (s_limit_slider self) (s_count_slider self) (s_smart_check self), [])
  | MoveSplit v =>
      (Make (merge_images self) (slice_images self) (tabs_currentIndex self)
         (m_radio self) (m_custom_input self) (m_limit_slider self)
         (QSlider.setValue v (m_split_slider self))
         (s_radio self) (s_custom_input self)
         (s_limit_slider self) (s_count_slider self) (s_smart_check self), [])
  | ChooseSliceWidth w =>
      (Make (merge_images self) (slice_images self) (tabs_currentIndex self)
         (m_radio self) (m_custom_input self) (m_limit_slider self)
         (m_split_slider self) w (s_custom_input self)
         (s_limit_slider self) (s_count_slider self) (s_smart_check self), [])
  | TypeSliceWidth text =>
      (Make (merge_images self) (slice_images self) (tabs_currentIndex self)
         (m_radio self) (m_custom_input self) (m_limit_slider self)
         (m_split_slider self) (s_radio self) text
         (s_limit_slider self) (s_count_slider self) (s_smart_check self), [])
  | MoveSliceLimit v =>
      (Make (merge_images self) (slice_images self) (tabs_currentIndex self)
         (m_radio self) (m_custom_input self) (m_limit_slider self)
         (m_split_slider self) (s_radio self) (s_custom_input self)
         (QSlider.setValue v (s_limit_slider self))
         (s_count_slider self) (s_smart_check self), [])
  | MoveCount v =>
      (Make (merge_images self) (slice_images self) (tabs_currentIndex self)
         (m_radio self) (m_custom_input self) (m_limit_slider self)
         (m_split_slider self) (s_radio self) (s_custom_input self)
         (s_limit_slider self)
         (QSlider.setValue v (s_count_slider self)) (s_smart_check self), [])
  | ToggleSmart b =>
      (Make (merge_images self) (slice_images self) (tabs_currentIndex self)
         (m_radio self) (m_custom_input self) (m_limit_slider self)
         (m_split_slider self) (s_radio self) (s_custom_input self)
         (s_limit_slider self) (s_count_slider self) b, [])
  | ClickClearMerge => (clear_merge_list self, [])
  | ClickClearSlice => (clear_slice_list self, [])
  | ClickStartStitching => (self, start_stitching self)
  | ClickStartSlicing => (self, start_slicing self)
  end.

(** The window after a history of events, with everything it showed or
    started on the way, oldest first. *)
Fixpoint run (evs : list event) (self : t) : t * list effect :=
  match evs with
  | [] => (self, [])
  | ev :: rest =>
      let '(self', out) := handle ev self in
      let '(self'', out') := run rest self' in
      (self'', (out ++ out')%list)
  end.

End Run.

(** The split slider agrees with the merge list: it starts at 1, ends at
    [max(1, len(merge_images))] and its value lies in between. *)
Definition split_slider_ok (self : t) : Prop :=
  QSlider.minimum (m_split_slider self) = 1%Z /\
  QSlider.maximum (m_split_slider self)
  = Z.max 1 (Z.of_nat (List.length (merge_images self))) /\
  (1 <= QSlider.value (m_split_slider self) <= QSlider.maximum (m_split_slider self))%Z.

(** A limit slider keeps its six positions. *)
Definition limit_slider_ok (s : QSlider.t) : Prop :=
  QSlider.minimum s = 0%Z /\ QSlider.maximum s = 5%Z /\ (0 <= QSlider.value s <= 5)%Z.

End ImageMatrixApp.

(** ** The engines behind the shell

    [sorter.py], [stitcher.py] and [slicer.py] are imported by [main.py] but
    are not part of the sources at hand; what follows is written from the
    specification's sections 4.1 to 4.4 and 7. *)

(** The error taxonomy of section 7. *)
Inductive error : Type := DecodeError | EmptyInputError | InvalidGeometryError.

Inductive result (A : Type) : Type :=
| Ok (a : A)
| Err (e : error).
Arguments Ok {A} a.
Arguments Err {A} e.

(** Comparison functions that are total orders. *)
Class Order {A : Type} (cmp : A -> A -> comparison) : Prop := {
  cmp_refl : forall a, cmp a a = Eq;
  cmp_eq : forall a b, cmp a b = Eq -> a = b;
  cmp_antisym : forall a b, cmp a b = CompOpp (cmp b a);
  cmp_trans : forall a b c, cmp a b = Lt -> cmp b c = Lt -> cmp a c = Lt
}.

Module NaturalSequencer.

(** Modelled from the spec: the sort key of [sorter.sort_files], which is
    missing from the sources.  Section 4.1: the file name is split into
    alternating runs of digits and non-digits. *)
Inductive run : Type :=
| Digits (n : N)
| Text (s : string).

(** Modelled from the spec: the splitting of section 4.1 ([sorter.py] is
    missing).  Maximal runs, each tagged with whether it is made of digits. *)
Fixpoint split_runs (s : string) : list (bool * string) :=
  match s with
  | EmptyString => []
  | String c rest =>
      match split_runs rest with
      | (d, r) :: tl =>
          if Bool.eqb d (Py.is_digit c) then (d, String c r) :: tl
          else (Py.is_digit c, String c EmptyString) :: (d, r) :: tl
      | [] => [(Py.is_digit c, String c EmptyString)]
      end
  end.

(** Modelled from the spec: the number a run of digits denotes ("digit runs
    numerically"; [sorter.py] is missing). *)
Fixpoint number (acc : N) (s : string) : N :=
  match s with
  | EmptyString => acc
  | String c rest => number (10 * acc + (N_of_ascii c - 48)) rest
  end.

(** Modelled from the spec: one run of the key ([sorter.py] is missing). *)
Definition run_of (tagged : bool * string) : run :=
  if fst tagged then Digits (number 0 (snd tagged)) else Text (snd tagged).

(** Modelled from the spec: the sort key of a file name ([sorter.py] is
    missing). *)
Definition key (filename : string) : list run := map run_of (split_runs filename).

(** Modelled from the spec: the comparison of two runs ([sorter.py] is
    missing).  Digit runs compare numerically, text runs as plain text.  The
    spec is silent on a digit run facing a text run at the same position;
    the digit run goes first, as digits do in plain text order. *)
Definition compare_run (a b : run) : comparison :=
  match a, b with
  | Digits m, Digits n => N.compare m n
  | Text s, Text t => String.compare s t
  | Digits _, Text _ => Lt
  | Text _, Digits _ => Gt
  end.

(** Modelled from the spec: keys compare lexicographically ([sorter.py] is
    missing). *)
Fixpoint compare_key (k1 k2 : list run) : comparison :=
  match k1, k2 with
  | [], [] => Eq
  | [], _ :: _ => Lt
  | _ :: _, [] => Gt
  | a :: r1, b :: r2 =>
      match compare_run a b with
      | Eq => compare_key r1 r2
      | c => c
      end
  end.

(** Modelled from the spec: two file names compare by key, ties by the
    names as plain text ([sorter.py] is missing). *)
Definition compare_filename (f1 f2 : string) : comparison :=
  match compare_key (key f1) (key f2) with
  | Eq => String.compare f1 f2
  | c => c
  end.

(** Modelled from the spec: the file name of a path, its last component
    ([sorter.py] is missing). *)
Definition filename (path : string) : string := Py.basename path.

(** Modelled from the spec: paths compare by their file names ([sorter.py]
    is missing).  Two paths with the same file name (in different folders)
    compare equal: the spec names no rule for them. *)
Definition compare_path (p q : string) : comparison :=
  compare_filename (filename p) (filename q).

(** Modelled from the spec: [p] may stand before [q] ([sorter.py] is
    missing). *)
Definition precedes (p q : string) : bool :=
  match compare_path p q with Gt => false | _ => true end.

(** Modelled from the spec: the sorting step of [order] ([sorter.py] is
    missing).  A stable sort: among paths that compare equal the one met
    first stays first. *)
Fixpoint insert (p : string) (sorted : list string) : list string :=
  match sorted with
  | [] => [p]
  | q :: rest => if precedes p q then p :: q :: rest else q :: insert p rest
  end.

(** Modelled from the spec: [order], i.e. [sorter.sort_files], missing from
    the sources.  Its argument is the path set as the list it arrives in
    ([list(combined_set)] in [dropEvent]). *)
Fixpoint order (paths : list string) : list string :=
  match paths with
  | [] => []
  | p :: rest => insert p (order rest)
  end.

(** Neighbouring runs are of different kinds. *)
Fixpoint alternating (runs : list (bool * string)) : bool :=
  match runs with
  | (d1, _) :: (((d2, _) :: _) as rest) => negb (Bool.eqb d1 d2) && alternating rest
  | _ => true
  end.

(** Every character of a run is of the run's kind, and no run is empty. *)
Fixpoint uniform (digits : bool) (s : string) : bool :=
  match s with
  | EmptyString => true
  | String c rest => Bool.eqb (Py.is_digit c) digits && uniform digits rest
  end.

Definition well_formed_run (tagged : bool * string) : bool :=
  Py.truthy (snd tagged) && uniform (fst tagged) (snd tagged).

(** A list that enumerates a set of paths: every member once. *)
Definition enumerates (l set : list string) : Prop :=
  NoDup l /\ forall p, In p l <-> In p set.

(** No two paths of the set carry the same file name. *)
Definition distinct_filenames (set : list string) : Prop :=
  forall p q, In p set -> In q set -> filename p = filename q -> p = q.


End NaturalSequencer.

Module StitchEngine.

(** Modelled from the spec: the clamp of section 4.3 ("[group_count]
    clamped to [[1, len(ordered_sources)]] before partitioning"); the
    stitcher is missing from the sources. *)
Definition clamp_group_count (group_count : Z) (n : nat) : nat :=
  Z.to_nat (Z.max 1 (Z.min group_count (Z.of_nat n))).

(** Modelled from the spec: step 3 of section 4.3, sizes [floor(n/g)] or
    [ceil(n/g)] with the remainder given to the first groups. *)
Definition group_sizes (n g : nat) : list nat :=
  map (fun i => n / g + (if i <? n mod g then 1 else 0))%nat (seq 0 g).

(** Modelled from the spec: contiguous groups of the given sizes, in read
    order (the stitcher is missing from the sources). *)
Fixpoint split_groups {A} (sizes : list nat) (sources : list A) : list (list A) :=
  match sizes with
  | [] => []
  | s :: rest => firstn s sources :: split_groups rest (skipn s sources)
  end.

(** Modelled from the spec: the grouping step of [stitch], with its
    [EmptyInputError]. *)
Definition partition {A} (group_count : Z) (ordered_sources : list A)
  : result (list (list A)) :=
  match ordered_sources with
  | [] => Err EmptyInputError
  | _ =>
      let n := List.length ordered_sources in
      Ok (split_groups (group_sizes n (clamp_group_count group_count n))
            ordered_sources)
  end.

End StitchEngine.

Module SliceEngine.

(** Modelled from the spec: ways of rounding a rational to a pixel row; the
    spec asks for cuts "rounded to integer rows" without naming one (the
    slicer is missing from the sources). *)
Inductive rounding : Type := RoundFloor | RoundCeil | RoundHalfUp | RoundHalfEven.

Open Scope Z_scope.

(** Modelled from the spec: [p / q] rounded, for [q > 0] (the slicer is
    missing from the sources). *)
Definition round_div (mode : rounding) (p q : Z) : Z :=
  match mode with
  | RoundFloor => p / q
  | RoundCeil => (p + q - 1) / q
  | RoundHalfUp => (2 * p + q) / (2 * q)
  | RoundHalfEven =>
      let f := p / q in
      let r := p mod q in
      if 2 * r <? q then f
      else if q <? 2 * r then f + 1
      else if Z.even f then f else f + 1
  end.

(** The same rounding, told from the quotient [f] and the remainder [r]
    of [p] by [q]. *)
Definition round_parts (mode : rounding) (f r q : Z) : Z :=
  match mode with
  | RoundFloor => f
  | RoundCeil => if r =? 0 then f else f + 1
  | RoundHalfUp => if 2 * r <? q then f else f + 1
  | RoundHalfEven =>
      if 2 * r <? q then f
      else if q <? 2 * r then f + 1
      else if Z.even f then f else f + 1
  end.

(** Modelled from the spec: the [i]-th ideal cut, [i * ideal_height] with
    [ideal_height = total_height / piece_count] real-valued, rounded. *)
Definition cut (mode : rounding) (total_height piece_count i : Z) : Z :=
  round_div mode (i * total_height) piece_count.

(** Modelled from the spec: the [piece_count - 1] interior cuts (the slicer
    is missing from the sources). *)
Definition cut_points (mode : rounding) (total_height piece_count : Z) : list Z :=
  map (fun i => cut mode total_height piece_count (Z.of_nat i))
    (seq 1 (Z.to_nat piece_count - 1)).

(** Modelled from the spec: the pieces as row ranges [(top, bottom)], bottom
    excluded, between consecutive cuts; the last one runs to the bottom of
    the image (the slicer is missing from the sources). *)
Fixpoint ranges (top : Z) (cuts : list Z) (bottom : Z) : list (Z * Z) :=
  match cuts with
  | [] => [(top, bottom)]
  | c :: rest => (top, c) :: ranges c rest bottom
  end.

Definition piece_height (piece : Z * Z) : Z := snd piece - fst piece.

Definition has_row (y : Z) (piece : Z * Z) : bool :=
  (fst piece <=? y) && (y <? snd piece).

(** Modelled from the spec: the geometry of [slice] with [smart_mode]
    false (section 4.4, steps 2, 3 and "Failure"); the slicer is missing
    from the sources. *)
Definition uniform_pieces (mode : rounding) (total_height piece_count : Z)
  : result (list (Z * Z)) :=
  if piece_count <? 1 then Err InvalidGeometryError
  else
    let pieces := ranges 0 (cut_points mode total_height piece_count) total_height in
    if forallb (fun p => 1 <=? piece_height p) pieces then Ok pieces
    else Err InvalidGeometryError.

Definition sum_heights (pieces : list (Z * Z)) : Z :=
  fold_right (fun p acc => piece_height p + acc) 0 pieces.

(** In how many pieces row [y] lies. *)
Definition occurrences (y : Z) (pieces : list (Z * Z)) : nat :=
  List.length (filter (has_row y) pieces).

(** Each piece starts where the one before it ends. *)
Fixpoint contiguous (pieces : list (Z * Z)) : Prop :=
  match pieces with
  | p :: ((q :: _) as rest) => snd p = fst q /\ contiguous rest
  | _ => True
  end.

End SliceEngine.

Module SizeBudgetEncoder.

Section Encoder.

(** The codec and the resampler are black boxes (section 6). *)
Variable bitmap : Type.
Variable encode_at : bitmap -> Z -> list Byte.byte.
Variable downscale : bitmap -> bitmap.

(** The quality ladder, best first, and the cap on downscale rounds
    (the spec names 6 as an example). *)
Variable top_quality : Z.
Variable lower_qualities : list Z.
Variable max_rounds : nat.

Definition size (b : list Byte.byte) : Z := Z.of_nat (List.length b).

Definition ladder : list Z := top_quality :: lower_qualities.

(** What a candidate list looks like after a search or a series of
    them: on success the hit comes last and everything before it is too
    big; on failure everything is too big. *)
Definition outcome_ok (limit : Z) (found : option (list Byte.byte))
           (produced : list (list Byte.byte)) : Prop :=
  match found with
  | Some c =>
      (size c <= limit)%Z /\
      exists earlier, produced = (earlier ++ [c])%list /\
                      Forall (fun c' => (limit < size c')%Z) earlier
  | None => Forall (fun c' => (limit < size c')%Z) produced
  end.

(** Modelled from the spec: one pass down the quality ladder (the encoder
    is missing from the sources): the first candidate within the limit, if
    any, and every candidate encoded on the way. *)
Fixpoint search (pixels : bitmap) (limit : Z) (qualities : list Z)
  : option (list Byte.byte) * list (list Byte.byte) :=
  match qualities with
  | [] => (None, [])
  | q :: rest =>
      let c := encode_at pixels q in
      if (size c <=? limit)%Z then (Some c, [c])
      else let '(found, produced) := search pixels limit rest in
           (found, c :: produced)
  end.

(** Modelled from the spec: the downscale-and-retry rounds (the encoder is
    missing from the sources).  A search, then up to [rounds] more after a
    downscale each.  The count returned is the number of downscales done. *)
Fixpoint attempt (rounds : nat) (pixels : bitmap) (limit : Z)
  : option (list Byte.byte) * list (list Byte.byte) * nat :=
  match search pixels limit ladder with
  | (Some c, produced) => (Some c, produced, O)
  | (None, produced) =>
      match rounds with
      | O => (None, produced, O)
      | S rounds' =>
          let '(found, produced', n) := attempt rounds' (downscale pixels) limit in
          (found, (produced ++ produced')%list, S n)
      end
  end.

(** Modelled from the spec: "the best (smallest) candidate produced" (the
    encoder is missing from the sources). *)
Fixpoint smallest (best : list Byte.byte) (candidates : list (list Byte.byte))
  : list Byte.byte :=
  match candidates with
  | [] => best
  | c :: rest => smallest (if (size c <? size best)%Z then c else best) rest
  end.

Record encoded : Type := Encoded {
  bytes : list Byte.byte;
  budget_met : bool;          (* false: the BudgetUnmetWarning *)
  produced : list (list Byte.byte);
  downscales : nat
}.

(** Modelled from the spec: [limit_bytes] null or not positive means no
    budget (the encoder is missing from the sources). *)
Definition normalize (limit_bytes : option Z) : option Z :=
  match limit_bytes with
  | Some l => if (l <=? 0)%Z then None else Some l
  | None => None
  end.

(** Modelled from the spec: [encode] of section 4.2; the encoder is
    missing from the sources. *)
Definition encode (pixels : bitmap) (limit_bytes : option Z) : encoded :=
  match normalize limit_bytes with
  | None =>
      let c := encode_at pixels top_quality in Encoded c true [c] 0
  | Some limit =>
      match attempt max_rounds pixels limit with
      | (Some c, produced, n) => Encoded c true produced n
      | (None, produced, n) =>
          Encoded (smallest (encode_at pixels top_quality) produced) false produced n
      end
  end.

(** Modelled from the spec: section 6, the limit arrives in kilobytes
    with 0 for "unlimited".  How many bytes the core takes a kilobyte to
    be is left open. *)
Variable bytes_per_kb : Z.

Definition limit_of_kb (max_kb : Z) : option Z :=
  if (max_kb =? 0)%Z then None else Some (max_kb * bytes_per_kb)%Z.

(** Modelled from the spec: [encode] as the engines call it with the
    shell's [max_kb] (the engines are missing from the sources). *)
Definition encode_kb (pixels : bitmap) (max_kb : Z) : encoded :=
  encode pixels (limit_of_kb max_kb).

End Encoder.

End SizeBudgetEncoder.

(** ** The widgets of the main window

    The labels, list widgets and start buttons the handlers of [main.py]
    write to, the message boxes they open, and the slots connected to the
    sliders and to the workers' [finished_signal]. *)

Module MainWindow.

Record button : Type := Button { isEnabled : bool; text : string }.

(** The three kinds of [QMessageBox] the window opens. *)
Inductive dialog : Type :=
| Information (title body : string)
| Caution (title body : string)      (* QMessageBox.warning *)
| Critical (title body : string).

Record widgets : Type := Widgets {
  merge_list : list string;          (* rows of the merge tab's QListWidget *)
  slice_list : list string;
  m_limit_label : string;
  m_split_label : string;
  s_limit_label : string;
  s_count_label : string;
  m_start_btn : button;
  s_start_btn : button
}.

Definition m_start_idle : button := Button true "开始拼接并保存到桌面".
Definition m_start_busy : button := Button false "正在拼接... ".
Definition s_start_idle : button := Button true "开始切图并保存到桌面".
Definition s_start_busy : button := Button false "正在切图... ".

(** The widgets as [init_merge_tab] and [init_slice_tab] leave them. *)
Definition init : widgets :=
  Widgets [] []
    "大小限制：200 KB (默认)" "拼接成：1 张长图"
    "大小限制：200 KB (默认)" "纵向切成：5 份 (每份高度自动计算)"
    m_start_idle s_start_idle.

(** [update_slice_label]: the text it sets. *)
Definition update_slice_label (value : Z) : string :=
  "纵向切成：" ++ Py.str_of_int value ++ " 份 (每份高度自动计算)".

(** [update_limit_label]: the text it sets on [label_widget]. *)
Definition update_limit_label (value : Z) : string :=
  let kb_val := (value * 200)%Z in
  if (value =? 0)%Z then "大小限制：不限制"
  else if (1000 <=? kb_val)%Z then "大小限制：1 MB"
  else "大小限制：" ++ Py.str_of_int kb_val ++ " KB".

(** The lambda connected to the split slider. *)
Definition split_label_text (v : Z) : string :=
  "拼接成：" ++ Py.str_of_int v ++ " 张图".

(** [valueChanged]: Qt emits it, and the connected slot rewrites the label,
    only when a call really changed the slider's value. *)
Definition valueChanged (before after : QSlider.t) (slot : Z -> string)
           (label : string) : string :=
  if (QSlider.value before =? QSlider.value after)%Z then label
  else slot (QSlider.value after).

(** [update_merge_list] and [update_slice_list]: the rows they leave. *)
Definition rows (images : list string) : list string := map Py.basename images.

Definition with_merge (rows' : list string) (split_label : string) (w : widgets)
  : widgets :=
  Widgets rows' (slice_list w) (m_limit_label w) split_label
    (s_limit_label w) (s_count_label w) (m_start_btn w) (s_start_btn w).

Definition with_slice_list (rows' : list string) (w : widgets) : widgets :=
  Widgets (merge_list w) rows' (m_limit_label w) (m_split_label w)
    (s_limit_label w) (s_count_label w) (m_start_btn w) (s_start_btn w).

Definition with_m_limit_label (label : string) (w : widgets) : widgets :=
  Widgets (merge_list w) (slice_list w) label (m_split_label w)
    (s_limit_label w) (s_count_label w) (m_start_btn w) (s_start_btn w).

Definition with_s_limit_label (label : string) (w : widgets) : widgets :=
  Widgets (merge_list w) (slice_list w) (m_limit_label w) (m_split_label w)
    label (s_count_label w) (m_start_btn w) (s_start_btn w).

Definition with_s_count_label (label : string) (w : widgets) : widgets :=
  Widgets (merge_list w) (slice_list w) (m_limit_label w) (m_split_label w)
    (s_limit_label w) label (m_start_btn w) (s_start_btn w).

Definition with_m_start_btn (b : button) (w : widgets) : widgets :=
  Widgets (merge_list w) (slice_list w) (m_limit_label w) (m_split_label w)
    (s_limit_label w) (s_count_label w) b (s_start_btn w).

Definition with_s_start_btn (b : button) (w : widgets) : widgets :=
  Widgets (merge_list w) (slice_list w) (m_limit_label w) (m_split_label w)
    (s_limit_label w) (s_count_label w) (m_start_btn w) b.

(** Whether a click on a start button set a worker going. *)
Definition starts_worker (out : list ImageMatrixApp.effect) : bool :=
  existsb (fun e => match e with
                    | ImageMatrixApp.Warning _ _ => false
                    | _ => true
                    end) out.

Section Refresh.

Variable sort_files : list string -> list string.
Variable list_of_set : list string -> list string.

(** What a handler does to the widgets, next to what
    [ImageMatrixApp.handle] does to the window's data: [self] is the window
    when the event arrives. *)
Definition refresh (ev : ImageMatrixApp.event) (self : ImageMatrixApp.t)
           (w : widgets) : widgets :=
  let self' := fst (ImageMatrixApp.handle sort_files list_of_set ev self) in
  match ev with
  | ImageMatrixApp.Drop files =>
      match filter ImageMatrixApp.is_image files with
      | [] => w
      | _ =>
          if (ImageMatrixApp.tabs_currentIndex self =? 0)%Z then
            with_merge (rows (ImageMatrixApp.merge_images self'))
              (valueChanged (ImageMatrixApp.m_split_slider self)
                 (ImageMatrixApp.m_split_slider self') split_label_text
                 (m_split_label w))
              w
          else with_slice_list (rows (ImageMatrixApp.slice_images self')) w
      end
  | ImageMatrixApp.MoveMergeLimit _ =>
      with_m_limit_label
        (valueChanged (ImageMatrixApp.m_limit_slider self)
           (ImageMatrixApp.m_limit_slider self') update_limit_label (m_limit_label w))
        w
  | ImageMatrixApp.MoveSplit _ =>
      with_merge (merge_list w)
        (valueChanged (ImageMatrixApp.m_split_slider self)
           (ImageMatrixApp.m_split_slider self') split_label_text (m_split_label w))
        w
  | ImageMatrixApp.MoveSliceLimit _ =>
      with_s_limit_label
        (valueChanged (ImageMatrixApp.s_limit_slider self)
           (ImageMatrixApp.s_limit_slider self') update_limit_label (s_limit_label w))
        w
  | ImageMatrixApp.MoveCount _ =>
      with_s_count_label
        (valueChanged (ImageMatrixApp.s_count_slider self)
           (ImageMatrixApp.s_count_slider self') update_slice_label (s_count_label w))
        w
  | ImageMatrixApp.ClickClearMerge =>
      let s0 := ImageMatrixApp.m_split_slider self in
      let s1 := QSlider.setMaximum 1 s0 in
      let s2 := QSlider.setValue 1 s1 in
      with_merge []
        (valueChanged s1 s2 split_label_text
           (valueChanged s0 s1 split_label_text (m_split_label w)))
        w
  | ImageMatrixApp.ClickClearSlice => with_slice_list [] w
  | ImageMatrixApp.ClickStartStitching =>
      if starts_worker (ImageMatrixApp.start_stitching self)
      then with_m_start_btn m_start_busy w else w
  | ImageMatrixApp.ClickStartSlicing =>
      if starts_worker (ImageMatrixApp.start_slicing self)
      then with_s_start_btn s_start_busy w else w
  | _ => w
  end.

End Refresh.

(** [on_stitching_finished]. *)
Definition on_stitching_finished (success : bool) (message : string) (w : widgets)
  : widgets * dialog :=
  (with_m_start_btn m_start_idle w,
   if success
   then Information "成功" (message ++ Py.nl ++ "已保存到桌面。")
   else Critical "错误" ("拼接失败：" ++ Py.nl ++ message)).

(** [on_slicing_finished]. *)
Definition on_slicing_finished (success : bool) (message : string) (w : widgets)
  : widgets * dialog :=
  (with_s_start_btn s_start_idle w,
   if success then Information "完成" message else Caution "注意" message).

(** The slot called once for each signal a worker emitted, in order. *)
Fixpoint deliver (slot : bool -> string -> widgets -> widgets * dialog)
         (signals : list signal) (w : widgets) : widgets * list dialog :=
  match signals with
  | [] => (w, [])
  | sig :: rest =>
      let '(w', d) := slot (sig_success sig) (sig_message sig) w in
      let '(w'', ds) := deliver slot rest w' in
      (w'', d :: ds)
  end.

(** What happens to the window: a gesture of the user, or a worker's
    signal reaching its slot. *)
Inductive happening : Type :=
| User (ev : ImageMatrixApp.event)
| StitchingFinished (success : bool) (message : string)
| SlicingFinished (success : bool) (message : string).

Section Session.

Variable sort_files : list string -> list string.
Variable list_of_set : list string -> list string.

Definition react (h : happening) (state : ImageMatrixApp.t * widgets)
  : ImageMatrixApp.t * widgets :=
  let '(self, w) := state in
  match h with
  | User ev =>
      (fst (ImageMatrixApp.handle sort_files list_of_set ev self),
       refresh sort_files list_of_set ev self w)
  | StitchingFinished success message =>
      (self, fst (on_stitching_finished success message w))
  | SlicingFinished success message =>
      (self, fst (on_slicing_finished success message w))
  end.

Definition session (hs : list happening) (state : ImageMatrixApp.t * widgets)
  : ImageMatrixApp.t * widgets :=
  fold_left (fun st h => react h st) hs state.

End Session.

(** A click on the merge tab's start button followed to the end of the job
    it starts: the worker runs and its signals reach
    [on_stitching_finished]. *)
Definition stitch_round (stitch_images : StitcherThread.engine)
           (self : ImageMatrixApp.t) (w : widgets) : widgets * list dialog :=
  match ImageMatrixApp.start_stitching self with
  | [ImageMatrixApp.StartStitcher thread] =>
      deliver on_stitching_finished
        (emitted (StitcherThread.run stitch_images thread))
        (with_m_start_btn m_start_busy w)
  | _ => (w, [])
  end.

(** The same for the slice tab. *)
Definition slice_round (slice_image : SlicerThread.engine)
           (self : ImageMatrixApp.t) (w : widgets) : widgets * list dialog :=
  match ImageMatrixApp.start_slicing self with
  | [ImageMatrixApp.StartSlicer thread] =>
      deliver on_slicing_finished
        (emitted (SlicerThread.run slice_image thread))
        (with_s_start_btn s_start_busy w)
  | _ => (w, [])
  end.

(** The labels show the sliders: each label carries the text its slot
    writes for the slider's value, or is still as [initUI] wrote it with
    the slider where [initUI] put it. *)
Definition labels_ok (self : ImageMatrixApp.t) (w : widgets) : Prop :=
  (m_limit_label w = update_limit_label (QSlider.value (ImageMatrixApp.m_limit_slider self))
   \/ (m_limit_label w = m_limit_label init /\
       QSlider.value (ImageMatrixApp.m_limit_slider self) = 1%Z)) /\
  (s_limit_label w = update_limit_label (QSlider.value (ImageMatrixApp.s_limit_slider self))
   \/ (s_limit_label w = s_limit_label init /\
       QSlider.value (ImageMatrixApp.s_limit_slider self) = 1%Z)) /\
  (m_split_label w = split_label_text (QSlider.value (ImageMatrixApp.m_split_slider self))
   \/ (m_split_label w = m_split_label init /\
       QSlider.value (ImageMatrixApp.m_split_slider self) = 1%Z)) /\
  s_count_label w = update_slice_label (QSlider.value (ImageMatrixApp.s_count_slider self)).

(** The list widgets show the file names of the two lists, in order. *)
Definition lists_ok (self : ImageMatrixApp.t) (w : widgets) : Prop :=
  merge_list w = rows (ImageMatrixApp.merge_images self) /\
  slice_list w = rows (ImageMatrixApp.slice_images self).

End MainWindow.

(** ** Sorting by a comparison

    Insertion into a sorted list and the stable sort it gives, for any way
    [le] of telling whether a path may stand before another. *)

Module StableSort.

Section By.

Variable le : string -> string -> bool.

Fixpoint insert (p : string) (sorted : list string) : list string :=
  match sorted with
  | [] => [p]
  | q :: rest => if le p q then p :: q :: rest else q :: insert p rest
  end.

Fixpoint sort (paths : list string) : list string :=
  match paths with
  | [] => []
  | p :: rest => insert p (sort rest)
  end.

End By.

End StableSort.

(** What the imported [sort_files] and Python's [list(set(xs))] are taken to
    do where a property of the window depends on it: [sort_files] rearranges
    its argument, and a set lists every element of [xs] once. *)
Definition rearranges (sort_files : list string -> list string) : Prop :=
  forall l, Permutation (sort_files l) l.

Definition lists_each_once (list_of_set : list string -> list string) : Prop :=
  forall xs, NoDup (list_of_set xs) /\ forall x, In x (list_of_set xs) <-> In x xs.

(** [sort_files] gives one answer per set of paths, however the set is
    listed. *)
Definition answers_by_set (sort_files : list string -> list string) : Prop :=
  forall l l', NoDup l -> NoDup l' -> (forall x, In x l <-> In x l') ->
               sort_files l = sort_files l'.

(** A list of dropped files that are all kept, each once. *)
Definition images_ok (images : list string) : Prop :=
  NoDup images /\ Forall (fun f => ImageMatrixApp.is_image f = true) images.

(** The count slider keeps the range [initUI] gave it. *)
Definition count_slider_ok (s : QSlider.t) : Prop :=
  QSlider.minimum s = 1%Z /\ QSlider.maximum s = 50%Z /\ (1 <= QSlider.value s <= 50)%Z.

(** ** Sample inputs *)

Module Samples.

(** An engine that slices [a.png], reports a failure on [b.png] and
    raises on anything else. *)
Definition slice_image : SlicerThread.engine :=
  fun path _ _ _ _ _ =>
    if String.eqb path "d/a.png" then Returned (true, "ok")
    else if String.eqb path "d/b.png" then Returned (false, "bad")
    else Raised "boom".

Definition batch (paths : list string) : SlicerThread.t :=
  SlicerThread.Make paths ImageMatrixApp.desktop_path 5 true None 200.

(** An engine that stitches unless asked for more than four groups. *)
Definition stitch_images : StitcherThread.engine :=
  fun _ _ split_count _ _ =>
    if (split_count <=? 4)%Z then Returned (true, "done") else Raised "too many".

Definition stitch_job (split_count : Z) : StitcherThread.t :=
  StitcherThread.Make ["d/a.png"; "d/b.png"] ImageMatrixApp.desktop_path
    split_count None 200.

(** An engine that calls [sys.exit()] on anything but [a.png]. *)
Definition slice_image_exits : SlicerThread.engine :=
  fun path _ _ _ _ _ =>
    if String.eqb path "d/a.png" then Returned (true, "ok")
    else Uncaught NotAnException.

(** An engine that calls [sys.exit()]. *)
Definition stitch_images_exits : StitcherThread.engine :=
  fun _ _ _ _ _ => Uncaught NotAnException.

(** Engines that succeed when the limit they are handed is [kb], and
    report a failure otherwise. *)
Definition stitch_images_expecting (kb : Z) : StitcherThread.engine :=
  fun _ _ _ _ max_kb =>
    if (max_kb =? kb)%Z then Returned (true, "ok") else Returned (false, "limit").

Definition slice_image_expecting (kb : Z) : SlicerThread.engine :=
  fun _ _ _ _ _ max_kb =>
    if (max_kb =? kb)%Z then Returned (true, "ok") else Returned (false, "limit").

(** A text of [n] nines. *)
Definition nines (n : nat) : string := string_of_list_ascii (repeat "9"%char n).

(** A [sort_files] by plain text order. *)
Definition text_le (p q : string) : bool :=
  match String.compare p q with Gt => false | _ => true end.

Definition sort_by_text (paths : list string) : list string :=
  StableSort.sort text_le paths.

(** One way for a set to iterate: first occurrences dropped, order kept. *)
Definition list_of_set (xs : list string) : list string := nodup string_dec xs.

(** The window after two images were dropped on the merge tab and the
    split slider was pushed to its end. *)
Definition merge_window : ImageMatrixApp.t :=
  fst (ImageMatrixApp.run NaturalSequencer.order list_of_set
         [ImageMatrixApp.Drop ["d/img2.png"; "d/img1.png"; "notes.txt"];
          ImageMatrixApp.MoveSplit 9]
         ImageMatrixApp.init).

(** The window after one image was dropped on the slice tab. *)
Definition slice_window : ImageMatrixApp.t :=
  fst (ImageMatrixApp.run NaturalSequencer.order list_of_set
         [ImageMatrixApp.SelectTab 1;
          ImageMatrixApp.Drop ["d/long.png"]]
         ImageMatrixApp.init).

(** A toy codec: a bitmap is its pixel count, a stream has one byte per
    pixel and per quality step; downscaling keeps nine pixels in ten. *)
Definition encode_at (pixels : nat) (quality : Z) : list Byte.byte :=
  repeat Byte.x00 (pixels + Z.to_nat quality).

Definition downscale (pixels : nat) : nat := (pixels * 9 / 10)%nat.

Definition encode (pixels : nat) (limit_bytes : option Z) : SizeBudgetEncoder.encoded :=
  SizeBudgetEncoder.encode nat encode_at downscale 3%Z [2; 1]%Z 6 pixels limit_bytes.

End Samples.

(* ================================================================= *)
(** * Part II: lemmas and theorems *)
(* ================================================================= *)

(** ** Worker threads *)

Ltac run_job :=
  unfold emitted, escapes, try_except, bind, call, emit, ret; simpl.

Section SlicerBatch.

Variable slice_image : SlicerThread.engine.
Variable self : SlicerThread.t.

(** When no call raises, the loop runs through the whole batch, counting
    the successes and collecting one line per failure, and emits nothing. *)
Lemma loop_returns (paths : list string) :
  (forall p, In p paths -> SlicerThread.raises slice_image self p = false) ->
  forall success_count errors tr,
    SlicerThread.loop slice_image self paths success_count errors tr
    = (Returned (success_count + SlicerThread.succeeded slice_image self paths,
                 (errors ++ SlicerThread.failure_lines slice_image self paths)%list),
       tr).
Proof.
  induction paths as [|p rest IH]; intros Hret sc errs tr.
  - simpl. unfold ret, SlicerThread.succeeded, SlicerThread.failure_lines. simpl.
    now rewrite Nat.add_0_r, app_nil_r.
  - assert (Hp := Hret p (or_introl eq_refl)).
    assert (Hrest : forall q, In q rest -> SlicerThread.raises slice_image self q = false)
      by (intros q Hq; apply Hret; now right).
    specialize (IH Hrest).
    unfold SlicerThread.raises, SlicerThread.outcome_of in Hp.
    unfold SlicerThread.succeeded,
      SlicerThread.failure_lines, SlicerThread.succeeds,
      SlicerThread.outcome_of in *.
    cbn [SlicerThread.loop flat_map filter]. unfold bind at 1, call at 1.
    destruct (slice_image p _ _ _ _ _) as [[[|] msg]|e|u]; try discriminate; cbn [fst snd].
    + rewrite IH. cbn [List.length app]. do 3 f_equal. lia.
    + rewrite IH. cbn [List.length app]. now rewrite <- app_assoc.
Qed.

(** The first call that raises ends the loop: nothing is emitted and the
    exception travels on. *)
Lemma loop_raises (before after : list string) (p e : string) :
  (forall q, In q before -> SlicerThread.raises slice_image self q = false) ->
  SlicerThread.outcome_of slice_image self p = Raised e ->
  forall success_count errors tr,
    SlicerThread.loop slice_image self (before ++ p :: after) success_count errors tr
    = (Raised e, tr).
Proof.
  induction before as [|q rest IH]; intros Hret Hp sc errs tr.
  - cbn [app SlicerThread.loop]. unfold bind at 1, call at 1.
    unfold SlicerThread.outcome_of in Hp. now rewrite Hp.
  - assert (Hq := Hret q (or_introl eq_refl)).
    assert (Hrest : forall r, In r rest -> SlicerThread.raises slice_image self r = false)
      by (intros r Hr; apply Hret; now right).
    unfold SlicerThread.raises, SlicerThread.outcome_of in Hq.
    cbn [app SlicerThread.loop]. unfold bind at 1, call at 1.
    destruct (slice_image q _ _ _ _ _) as [[[|] msg]|e'|u]; try discriminate;
      cbn [fst snd]; now apply IH.
Qed.

(** So does the first call that raises what the handler does not deal
    with. *)
Lemma loop_uncaught (before after : list string) (p : string) (u : uncaught) :
  (forall q, In q before -> SlicerThread.raises slice_image self q = false) ->
  SlicerThread.outcome_of slice_image self p = Uncaught u ->
  forall success_count errors tr,
    SlicerThread.loop slice_image self (before ++ p :: after) success_count errors tr
    = (Uncaught u, tr).
Proof.
  induction before as [|q rest IH]; intros Hret Hp sc errs tr.
  - cbn [app SlicerThread.loop]. unfold bind at 1, call at 1.
    unfold SlicerThread.outcome_of in Hp. now rewrite Hp.
  - assert (Hq := Hret q (or_introl eq_refl)).
    assert (Hrest : forall r, In r rest -> SlicerThread.raises slice_image self r = false)
      by (intros r Hr; apply Hret; now right).
    unfold SlicerThread.raises, SlicerThread.outcome_of in Hq.
    cbn [app SlicerThread.loop]. unfold bind at 1, call at 1.
    destruct (slice_image q _ _ _ _ _) as [[[|] msg]|e'|u']; try discriminate;
      cbn [fst snd]; now apply IH.
Qed.

Lemma succeeded_le (paths : list string) :
  (SlicerThread.succeeded slice_image self paths <= List.length paths)%nat.
Proof. unfold SlicerThread.succeeded. apply filter_length_le. Qed.

End SlicerBatch.

(** Either no call of the batch raises, or there is a first one that does,
    and it raises an [Exception] or something else. *)
Lemma first_raise (slice_image : SlicerThread.engine) (self : SlicerThread.t)
      (paths : list string) :
  (forall p, In p paths -> SlicerThread.raises slice_image self p = false) \/
  (exists before p after,
      paths = (before ++ p :: after)%list /\
      (forall q, In q before -> SlicerThread.raises slice_image self q = false) /\
      ((exists e, SlicerThread.outcome_of slice_image self p = Raised e) \/
       (exists u, SlicerThread.outcome_of slice_image self p = Uncaught u))).
Proof.
  induction paths as [|p rest IH].
  - left. intros p [].
  - destruct (SlicerThread.outcome_of slice_image self p) as [r|e|u] eqn:Hp.
    + assert (Hnr : SlicerThread.raises slice_image self p = false)
        by (unfold SlicerThread.raises; now rewrite Hp).
      destruct IH as [IH | (before & q & after & -> & Hb & Hq)].
      * left. intros q [<-|Hq]; auto.
      * right. exists (p :: before), q, after. repeat split; auto.
        intros r' [<-|Hr]; auto.
    + right. exists [], p, rest. repeat split; eauto. intros q [].
    + right. exists [], p, rest. repeat split; eauto. intros q [].
Qed.

(** The report of a batch in which every call returned. *)
Lemma run_returns (slice_image : SlicerThread.engine) (self : SlicerThread.t) :
  (forall p, In p (SlicerThread.image_paths self) ->
             SlicerThread.raises slice_image self p = false) ->
  SlicerThread.run slice_image self [] =
  let paths := SlicerThread.image_paths self in
  let s := SlicerThread.succeeded slice_image self paths in
  let errors := SlicerThread.failure_lines slice_image self paths in
  (Returned tt,
   [if Nat.eqb s (List.length paths) then Signal true (SlicerThread.msg_all s)
    else if (0 <? s)%nat
         then Signal true (SlicerThread.msg_partial s (List.length paths) errors)
         else Signal false (SlicerThread.msg_none errors)]).
Proof.
  intros Hret. unfold SlicerThread.run, try_except, bind at 1.
  rewrite (loop_returns slice_image self _ Hret). cbn [fst snd Nat.add app].
  destruct (Nat.eqb _ _); [reflexivity|].
  destruct (0 <? _)%nat; reflexivity.
Qed.

(** The report of a batch in which a call raised. *)
Lemma run_raises (slice_image : SlicerThread.engine) (self : SlicerThread.t)
      (before after : list string) (p e : string) :
  SlicerThread.image_paths self = (before ++ p :: after)%list ->
  (forall q, In q before -> SlicerThread.raises slice_image self q = false) ->
  SlicerThread.outcome_of slice_image self p = Raised e ->
  SlicerThread.run slice_image self [] = (Returned tt, [Signal false e]).
Proof.
  intros Hpaths Hb Hp. unfold SlicerThread.run, try_except, bind at 1.
  rewrite Hpaths, (loop_raises slice_image self before after p e Hb Hp).
  reflexivity.
Qed.

(** The end of a batch in which a call raised what the handler does not
    deal with: no signal, and the exception leaves [run]. *)
Lemma run_uncaught (slice_image : SlicerThread.engine) (self : SlicerThread.t)
      (before after : list string) (p : string) (u : uncaught) :
  SlicerThread.image_paths self = (before ++ p :: after)%list ->
  (forall q, In q before -> SlicerThread.raises slice_image self q = false) ->
  SlicerThread.outcome_of slice_image self p = Uncaught u ->
  SlicerThread.run slice_image self [] = (Uncaught u, []).
Proof.
  intros Hpaths Hb Hp. unfold SlicerThread.run, try_except, bind at 1.
  rewrite Hpaths, (loop_uncaught slice_image self before after p u Hb Hp).
  reflexivity.
Qed.





(** The stitch worker, by the outcome of its one engine call. *)
Lemma stitcher_run_cases (stitch_images : StitcherThread.engine) (self : StitcherThread.t) :
  StitcherThread.run stitch_images self [] =
  match StitcherThread.outcome_of stitch_images self with
  | Returned (success, message) => (Returned tt, [Signal success message])
  | Raised e => (Returned tt, [Signal false e])
  | Uncaught u => (Uncaught u, [])
  end.
Proof.
  unfold StitcherThread.run, StitcherThread.outcome_of, try_except, bind, call, emit.
  destruct (stitch_images _ _ _ _ _) as [[success message]|e|u]; reflexivity.
Qed.

(** C9, amended.  A run of either worker emits exactly one
    [finished_signal] and lets nothing out, provided no engine call raises
    what [except Exception] does not catch or an exception whose text cannot
    be taken.  The stitch worker forwards the engine's pair, and emits
    failure with the exception's text when the engine raises an
    [Exception]; the slice worker emits failure with the exception's text
    as soon as one of its engine calls raises an [Exception].  When the
    engine call (for the slicer: the first call that does not return) raises
    anything else, the run emits no signal and the exception leaves [run]. *)
Theorem worker_emits_exactly_one_result :
  (forall stitch_images self,
      (emitted (StitcherThread.run stitch_images self),
       escapes (StitcherThread.run stitch_images self))
      = match StitcherThread.outcome_of stitch_images self with
        | Returned (success, message) => ([Signal success message], false)
        | Raised e => ([Signal false e], false)
        | Uncaught _ => ([], true)
        end) /\
  (forall slice_image self,
      (forall p, In p (SlicerThread.image_paths self) ->
                 SlicerThread.raises_uncaught slice_image self p = false) ->
      (exists sig, emitted (SlicerThread.run slice_image self) = [sig]) /\
      escapes (SlicerThread.run slice_image self) = false) /\
  (forall slice_image self before p after e,
      SlicerThread.image_paths self = (before ++ p :: after)%list ->
      (forall q, In q before -> SlicerThread.raises slice_image self q = false) ->
      SlicerThread.outcome_of slice_image self p = Raised e ->
      emitted (SlicerThread.run slice_image self) = [Signal false e] /\
      escapes (SlicerThread.run slice_image self) = false) /\
  (forall slice_image self before p after u,
      SlicerThread.image_paths self = (before ++ p :: after)%list ->
      (forall q, In q before -> SlicerThread.raises slice_image self q = false) ->
      SlicerThread.outcome_of slice_image self p = Uncaught u ->
      emitted (SlicerThread.run slice_image self) = [] /\
      escapes (SlicerThread.run slice_image self) = true).
Proof.
  split; [|split; [|split]].
  - intros stitch_images self. unfold emitted, escapes.
    rewrite stitcher_run_cases.
    destruct (StitcherThread.outcome_of stitch_images self) as [[success message]|e|u];
      reflexivity.
  - intros slice_image self Hcaught. unfold emitted, escapes.
    destruct (first_raise slice_image self (SlicerThread.image_paths self))
      as [Hret | (before & p & after & Hpaths & Hb & [[e Hp] | [u Hp]])].
    + rewrite (run_returns slice_image self Hret). cbn [fst snd]. split; eauto.
    + rewrite (run_raises slice_image self before after p e Hpaths Hb Hp).
      cbn [fst snd]. split; eauto.
    + exfalso.
      assert (Hin : In p (SlicerThread.image_paths self))
        by (rewrite Hpaths; apply in_or_app; right; now left).
      specialize (Hcaught p Hin). unfold SlicerThread.raises_uncaught in Hcaught.
      now rewrite Hp in Hcaught.
  - intros slice_image self before p after e Hpaths Hb Hp. unfold emitted, escapes.
    now rewrite (run_raises slice_image self before after p e Hpaths Hb Hp).
  - intros slice_image self before p after u Hpaths Hb Hp. unfold emitted, escapes.
    now rewrite (run_uncaught slice_image self before after p u Hpaths Hb Hp).
Qed.

(** The amended C9 at work: a batch whose sources are sliced or refused
    ends in one signal; a batch whose third source makes the slicer raise an
    [Exception] ends in one failure signal with its text; a batch whose
    second source makes the slicer exit ends in none. *)
Lemma worker_emits_exactly_one_result_witness :
  ((exists sig,
       emitted (SlicerThread.run Samples.slice_image
                  (Samples.batch ["d/a.png"; "d/b.png"])) = [sig]) /\
   escapes (SlicerThread.run Samples.slice_image
              (Samples.batch ["d/a.png"; "d/b.png"])) = false) /\
  (emitted (SlicerThread.run Samples.slice_image
              (Samples.batch ["d/a.png"; "d/b.png"; "d/c.png"; "d/a.png"]))
   = [Signal false "boom"] /\
   escapes (SlicerThread.run Samples.slice_image
              (Samples.batch ["d/a.png"; "d/b.png"; "d/c.png"; "d/a.png"])) = false) /\
  (emitted (SlicerThread.run Samples.slice_image_exits
              (Samples.batch ["d/a.png"; "d/b.png"; "d/a.png"])) = [] /\
   escapes (SlicerThread.run Samples.slice_image_exits
              (Samples.batch ["d/a.png"; "d/b.png"; "d/a.png"])) = true).
Proof.
  destruct worker_emits_exactly_one_result as (_ & Hone & Hraise & Hexit).
  split; [|split].
  - apply Hone. intros p Hp. simpl in Hp.
    destruct Hp as [<-|[<-|[]]]; reflexivity.
  - apply (Hraise Samples.slice_image _ ["d/a.png"; "d/b.png"] "d/c.png" ["d/a.png"] "boom").
    + reflexivity.
    + intros q Hq. simpl in Hq. destruct Hq as [<-|[<-|[]]]; reflexivity.
    + reflexivity.
  - apply (Hexit Samples.slice_image_exits _ ["d/a.png"] "d/b.png" ["d/a.png"] NotAnException).
    + reflexivity.
    + intros q Hq. simpl in Hq. destruct Hq as [<-|[]]; reflexivity.
    + reflexivity.
Defined.

(** C9 as stated fails: an engine that leaves through [sys.exit()] raises
    [SystemExit], which [except Exception] does not catch; the run of either
    worker then emits no result at all and the exception leaves [run]. *)
Lemma worker_exit_counterexample :
  emitted (StitcherThread.run Samples.stitch_images_exits (Samples.stitch_job 1)) = [] /\
  escapes (StitcherThread.run Samples.stitch_images_exits (Samples.stitch_job 1)) = true /\
  emitted (SlicerThread.run Samples.slice_image_exits
             (Samples.batch ["d/a.png"; "d/b.png"])) = [] /\
  escapes (SlicerThread.run Samples.slice_image_exits
             (Samples.batch ["d/a.png"; "d/b.png"])) = true.
Proof. repeat split; reflexivity. Qed.

(** ** The shell: sliders *)

Lemma setValue_in_range (v : Z) (s : QSlider.t) :
  (QSlider.minimum s <= QSlider.maximum s)%Z ->
  (QSlider.minimum s <= QSlider.value (QSlider.setValue v s) <= QSlider.maximum s)%Z.
Proof. unfold QSlider.setValue, QSlider.bound; cbn. lia. Qed.

Lemma setMaximum_above_minimum (hi : Z) (s : QSlider.t) :
  (QSlider.minimum s <= hi)%Z ->
  QSlider.minimum (QSlider.setMaximum hi s) = QSlider.minimum s /\
  QSlider.maximum (QSlider.setMaximum hi s) = hi /\
  (QSlider.minimum s <= QSlider.value (QSlider.setMaximum hi s) <= hi)%Z.
Proof.
  unfold QSlider.setMaximum, QSlider.setRange, QSlider.setValue, QSlider.bound; cbn.
  lia.
Qed.

Lemma limit_slider_setValue (v : Z) (s : QSlider.t) :
  ImageMatrixApp.limit_slider_ok s ->
  ImageMatrixApp.limit_slider_ok (QSlider.setValue v s).
Proof.
  unfold ImageMatrixApp.limit_slider_ok, QSlider.setValue, QSlider.bound; cbn.
  intros (-> & -> & _). lia.
Qed.

(** The only message box of the width choice is the input error. *)
Lemma merge_target_width_box (self : ImageMatrixApp.t) (box : ImageMatrixApp.effect) :
  ImageMatrixApp.merge_target_width self = inl box -> box = ImageMatrixApp.input_error.
Proof.
  unfold ImageMatrixApp.merge_target_width.
  destruct (ImageMatrixApp.m_radio_750_isChecked self); [discriminate|].
  destruct (ImageMatrixApp.m_radio_1080_isChecked self); [discriminate|].
  destruct (ImageMatrixApp.m_radio_custom_isChecked self); [|discriminate].
  destruct (negb _); [congruence|].
  destruct (Py.int _); [discriminate|congruence].
Qed.

Lemma slice_target_width_box (self : ImageMatrixApp.t) (box : ImageMatrixApp.effect) :
  ImageMatrixApp.slice_target_width self = inl box -> box = ImageMatrixApp.input_error.
Proof.
  unfold ImageMatrixApp.slice_target_width.
  destruct (ImageMatrixApp.s_radio_custom_isChecked self); [|discriminate].
  destruct (negb _); [discriminate|].
  destruct (Py.int _); [discriminate|congruence].
Qed.

Section ShellInvariants.

Variable sort_files : list string -> list string.
Variable list_of_set : list string -> list string.

Local Abbreviation handle := (ImageMatrixApp.handle sort_files list_of_set).

(** After a drop the merge tab took, the split slider ends at
    [max(1, len(merge_images))] and still starts at 1. *)
Lemma dropEvent_split (files : list string) (self : ImageMatrixApp.t) :
  ImageMatrixApp.split_slider_ok self ->
  ImageMatrixApp.split_slider_ok
    (fst (ImageMatrixApp.dropEvent sort_files list_of_set files self)).
Proof.
  intros (Hmin & Hmax & Hval). unfold ImageMatrixApp.dropEvent.
  destruct (filter ImageMatrixApp.is_image files) as [|f fs]; cbn [fst].
  - now repeat split.
  - destruct (ImageMatrixApp.tabs_currentIndex self =? 0)%Z; cbn [fst].
    + unfold ImageMatrixApp.split_slider_ok.
      cbn [ImageMatrixApp.m_split_slider ImageMatrixApp.merge_images].
      set (hi := Z.max 1 _).
      destruct (setMaximum_above_minimum hi (ImageMatrixApp.m_split_slider self))
        as (Hmin' & Hmax' & Hval'); [rewrite Hmin; lia|].
      rewrite Hmin', Hmax', Hmin. rewrite Hmin in Hval'. repeat split; lia.
    + now repeat split.
Qed.

Lemma clear_merge_list_split (self : ImageMatrixApp.t) :
  ImageMatrixApp.split_slider_ok self ->
  ImageMatrixApp.split_slider_ok (ImageMatrixApp.clear_merge_list self) /\
  ImageMatrixApp.merge_images (ImageMatrixApp.clear_merge_list self) = [] /\
  QSlider.maximum (ImageMatrixApp.m_split_slider (ImageMatrixApp.clear_merge_list self)) = 1%Z /\
  QSlider.value (ImageMatrixApp.m_split_slider (ImageMatrixApp.clear_merge_list self)) = 1%Z.
Proof.
  intros (Hmin & Hmax & Hval).
  unfold ImageMatrixApp.split_slider_ok, ImageMatrixApp.clear_merge_list.
  cbn [ImageMatrixApp.m_split_slider ImageMatrixApp.merge_images List.length].
  destruct (ImageMatrixApp.m_split_slider self) as [lo hi v].
  cbn [QSlider.minimum] in Hmin. subst lo.
  unfold QSlider.setMaximum, QSlider.setRange, QSlider.setValue, QSlider.bound.
  cbn [QSlider.minimum QSlider.maximum QSlider.value]. change (Z.of_nat 0) with 0%Z.
  repeat split; (reflexivity || lia).
Qed.

Lemma handle_split (ev : ImageMatrixApp.event) (self : ImageMatrixApp.t) :
  ImageMatrixApp.split_slider_ok self ->
  ImageMatrixApp.split_slider_ok (fst (handle ev self)).
Proof.
  intros Hok. destruct ev; cbn [ImageMatrixApp.handle fst]; try exact Hok.
  - now apply dropEvent_split.
  - destruct Hok as (Hmin & Hmax & Hval).
    unfold ImageMatrixApp.split_slider_ok.
    cbn [ImageMatrixApp.m_split_slider ImageMatrixApp.merge_images].
    unfold QSlider.setValue, QSlider.bound. cbn. lia.
  - now apply clear_merge_list_split.
Qed.

Lemma handle_limits (ev : ImageMatrixApp.event) (self : ImageMatrixApp.t) :
  ImageMatrixApp.limit_slider_ok (ImageMatrixApp.m_limit_slider self) /\
  ImageMatrixApp.limit_slider_ok (ImageMatrixApp.s_limit_slider self) ->
  ImageMatrixApp.limit_slider_ok (ImageMatrixApp.m_limit_slider (fst (handle ev self))) /\
  ImageMatrixApp.limit_slider_ok (ImageMatrixApp.s_limit_slider (fst (handle ev self))).
Proof.
  intros [Hm Hs].
  destruct ev; cbn [ImageMatrixApp.handle fst ImageMatrixApp.m_limit_slider
                      ImageMatrixApp.s_limit_slider];
    try (split; assumption);
    try (split; [apply limit_slider_setValue|]; assumption);
    try (split; [|apply limit_slider_setValue]; assumption).
  unfold ImageMatrixApp.dropEvent.
  destruct (filter ImageMatrixApp.is_image files); [now split|].
  destruct (ImageMatrixApp.tabs_currentIndex self =? 0)%Z; now split.
Qed.

(** A stitch job only starts with a group count between 1 and the number
    of images it is given. *)
Lemma start_stitching_split (self : ImageMatrixApp.t) (thread : StitcherThread.t) :
  ImageMatrixApp.split_slider_ok self ->
  In (ImageMatrixApp.StartStitcher thread) (ImageMatrixApp.start_stitching self) ->
  StitcherThread.image_paths thread = ImageMatrixApp.merge_images self /\
  StitcherThread.split_count thread = QSlider.value (ImageMatrixApp.m_split_slider self) /\
  (1 <= StitcherThread.split_count thread
   <= Z.of_nat (List.length (StitcherThread.image_paths thread)))%Z.
Proof.
  intros (Hmin & Hmax & Hval). unfold ImageMatrixApp.start_stitching.
  destruct (ImageMatrixApp.merge_images self) as [|p ps] eqn:Himgs.
  - intros [H|[]]. discriminate.
  - destruct (ImageMatrixApp.merge_target_width self) as [box|w] eqn:Hw.
    + intros [H|[]]. apply merge_target_width_box in Hw. subst box. discriminate.
    + intros [H|[]]. injection H as <-.
      cbn [StitcherThread.image_paths StitcherThread.split_count].
      rewrite Hmax in Hval. cbn [List.length] in *. repeat split; lia.
Qed.

Lemma handle_effects_split (ev : ImageMatrixApp.event) (self : ImageMatrixApp.t)
      (thread : StitcherThread.t) :
  ImageMatrixApp.split_slider_ok self ->
  In (ImageMatrixApp.StartStitcher thread) (snd (handle ev self)) ->
  (1 <= StitcherThread.split_count thread
   <= Z.of_nat (List.length (StitcherThread.image_paths thread)))%Z.
Proof.
  intros Hok. destruct ev; cbn [ImageMatrixApp.handle snd]; try (intros []).
  - unfold ImageMatrixApp.dropEvent.
    destruct (filter ImageMatrixApp.is_image files); cbn [snd].
    + intros [H|[]]. discriminate.
    + destruct (ImageMatrixApp.tabs_currentIndex self =? 0)%Z; intros [].
  - intros H. now apply (start_stitching_split self thread Hok).
  - unfold ImageMatrixApp.start_slicing.
    destruct (ImageMatrixApp.slice_images self).
    + intros [H|[]]. discriminate.
    + destruct (ImageMatrixApp.slice_target_width self) as [box|w] eqn:Hw.
      * intros [H|[]]. apply slice_target_width_box in Hw. subst box. discriminate.
      * intros [H|[]]. discriminate.
Qed.

End ShellInvariants.

Section ShellRuns.

Variable sort_files : list string -> list string.
Variable list_of_set : list string -> list string.

Local Abbreviation run := (ImageMatrixApp.run sort_files list_of_set).

Lemma run_cons (ev : ImageMatrixApp.event) (evs : list ImageMatrixApp.event)
      (self : ImageMatrixApp.t) :
  run (ev :: evs) self =
  (fst (run evs (fst (ImageMatrixApp.handle sort_files list_of_set ev self))),
   (snd (ImageMatrixApp.handle sort_files list_of_set ev self)
    ++ snd (run evs (fst (ImageMatrixApp.handle sort_files list_of_set ev self))))%list).
Proof.
  cbn [ImageMatrixApp.run].
  destruct (ImageMatrixApp.handle sort_files list_of_set ev self) as [self' out].
  cbn [fst snd]. now destruct (ImageMatrixApp.run sort_files list_of_set evs self').
Qed.

(** The split slider's invariant survives any history, and no stitch job
    started on the way asks for more groups than it has images, nor for
    fewer than one. *)
Lemma run_split (evs : list ImageMatrixApp.event) :
  forall self,
    ImageMatrixApp.split_slider_ok self ->
    ImageMatrixApp.split_slider_ok (fst (run evs self)) /\
    forall thread,
      In (ImageMatrixApp.StartStitcher thread) (snd (run evs self)) ->
      (1 <= StitcherThread.split_count thread
       <= Z.of_nat (List.length (StitcherThread.image_paths thread)))%Z.
Proof.
  induction evs as [|ev evs IH]; intros self Hok.
  - cbn. split; [assumption|]. intros thread [].
  - rewrite run_cons. cbn [fst snd].
    pose proof (handle_split sort_files list_of_set ev self Hok) as Hok'.
    destruct (IH _ Hok') as [Hfinal Hjobs]. split; [assumption|].
    intros thread Hin. apply in_app_or in Hin. destruct Hin as [Hin|Hin].
    + now apply (handle_effects_split sort_files list_of_set ev self).
    + now apply Hjobs.
Qed.

Lemma run_limits (evs : list ImageMatrixApp.event) :
  forall self,
    ImageMatrixApp.limit_slider_ok (ImageMatrixApp.m_limit_slider self) /\
    ImageMatrixApp.limit_slider_ok (ImageMatrixApp.s_limit_slider self) ->
    ImageMatrixApp.limit_slider_ok (ImageMatrixApp.m_limit_slider (fst (run evs self))) /\
    ImageMatrixApp.limit_slider_ok (ImageMatrixApp.s_limit_slider (fst (run evs self))).
Proof.
  induction evs as [|ev evs IH]; intros self Hok; [exact Hok|].
  rewrite run_cons. cbn [fst]. apply IH.
  now apply handle_limits.
Qed.

End ShellRuns.

Lemma init_split_slider_ok : ImageMatrixApp.split_slider_ok ImageMatrixApp.init.
Proof. repeat split; (reflexivity || (cbn; lia)). Qed.

Lemma init_limit_sliders_ok :
  ImageMatrixApp.limit_slider_ok (ImageMatrixApp.m_limit_slider ImageMatrixApp.init) /\
  ImageMatrixApp.limit_slider_ok (ImageMatrixApp.s_limit_slider ImageMatrixApp.init).
Proof. repeat split; (reflexivity || (cbn; lia)). Qed.

(** C8.  Whatever the user did since the window opened: the split slider
    starts at 1 and ends at [max(1, len(merge_images))]; every stitch job
    started on the way was given a group count between 1 and the number of
    its images; a drop the merge tab takes leaves the slider's maximum at
    [max(1, len(merge_images))] and its minimum at 1; and clearing the list
    leaves the maximum and the value at 1. *)
Theorem split_count_within_loaded_images
        (sort_files list_of_set : list string -> list string)
        (evs : list ImageMatrixApp.event) :
  let window := fst (ImageMatrixApp.run sort_files list_of_set evs ImageMatrixApp.init) in
  let started := snd (ImageMatrixApp.run sort_files list_of_set evs ImageMatrixApp.init) in
  ImageMatrixApp.split_slider_ok window /\
  (forall thread,
      In (ImageMatrixApp.StartStitcher thread) started ->
      (1 <= StitcherThread.split_count thread
       <= Z.of_nat (List.length (StitcherThread.image_paths thread)))%Z) /\
  (forall thread,
      In (ImageMatrixApp.StartStitcher thread) (ImageMatrixApp.start_stitching window) ->
      StitcherThread.image_paths thread = ImageMatrixApp.merge_images window /\
      (1 <= StitcherThread.split_count thread
       <= Z.of_nat (List.length (ImageMatrixApp.merge_images window)))%Z) /\
  (forall files,
      ImageMatrixApp.tabs_currentIndex window = 0%Z ->
      filter ImageMatrixApp.is_image files <> [] ->
      let after := fst (ImageMatrixApp.dropEvent sort_files list_of_set files window) in
      QSlider.minimum (ImageMatrixApp.m_split_slider after) = 1%Z /\
      QSlider.maximum (ImageMatrixApp.m_split_slider after)
      = Z.max 1 (Z.of_nat (List.length (ImageMatrixApp.merge_images after))) /\
      ImageMatrixApp.merge_images after
      = sort_files (list_of_set (ImageMatrixApp.merge_images window
                                 ++ filter ImageMatrixApp.is_image files)%list)) /\
  (let cleared := ImageMatrixApp.clear_merge_list window in
   ImageMatrixApp.merge_images cleared = [] /\
   QSlider.minimum (ImageMatrixApp.m_split_slider cleared) = 1%Z /\
   QSlider.maximum (ImageMatrixApp.m_split_slider cleared) = 1%Z /\
   QSlider.value (ImageMatrixApp.m_split_slider cleared) = 1%Z).
Proof.
  intros window started.
  destruct (run_split sort_files list_of_set evs _ init_split_slider_ok)
    as [Hok Hjobs].
  fold window in Hok. fold started in Hjobs.
  split; [exact Hok|]. split; [exact Hjobs|]. split; [|split].
  - intros thread Hin.
    destruct (start_stitching_split window thread Hok Hin) as (Hpaths & _ & Hb).
    rewrite Hpaths in Hb. now split.
  - intros files Htab Hfiles after.
    pose proof (dropEvent_split sort_files list_of_set files window Hok) as Hafter.
    fold after in Hafter. destruct Hafter as (Hmin & Hmax & _).
    split; [exact Hmin|]. split; [exact Hmax|].
    unfold after, ImageMatrixApp.dropEvent.
    destruct (filter ImageMatrixApp.is_image files) as [|f fs]; [congruence|].
    rewrite Htab. reflexivity.
  - destruct (clear_merge_list_split window Hok) as ((Hmin & _) & Himgs & Hmax & Hval).
    cbv zeta. now repeat split.
Qed.

(** C8 at work: two images dropped, the slider pushed to 9 and the start
    button clicked; the job asks for two groups of its two images. *)
Lemma split_count_within_loaded_images_witness :
  let clicks := [ImageMatrixApp.Drop ["d/img2.png"; "d/img1.png"; "notes.txt"];
                 ImageMatrixApp.MoveSplit 9;
                 ImageMatrixApp.ClickStartStitching] in
  let thread := StitcherThread.Make ["d/img1.png"; "d/img2.png"]
                  ImageMatrixApp.desktop_path 2 None 200 in
  In (ImageMatrixApp.StartStitcher thread)
     (snd (ImageMatrixApp.run NaturalSequencer.order Samples.list_of_set clicks
             ImageMatrixApp.init)) /\
  (1 <= StitcherThread.split_count thread
   <= Z.of_nat (List.length (StitcherThread.image_paths thread)))%Z.
Proof.
  intros clicks thread.
  assert (Hin : In (ImageMatrixApp.StartStitcher thread)
                   (snd (ImageMatrixApp.run NaturalSequencer.order Samples.list_of_set
                           clicks ImageMatrixApp.init)))
    by (vm_compute; left; reflexivity).
  split; [exact Hin|].
  destruct (split_count_within_loaded_images NaturalSequencer.order
              Samples.list_of_set clicks) as (_ & Hjobs & _).
  exact (Hjobs thread Hin).
Defined.

(** ** The shell: starting jobs *)

(** A started stitch job carries the window's settings. *)
Lemma start_stitching_thread (self : ImageMatrixApp.t) (thread : StitcherThread.t) :
  In (ImageMatrixApp.StartStitcher thread) (ImageMatrixApp.start_stitching self) ->
  exists target_width,
    ImageMatrixApp.merge_target_width self = inr target_width /\
    thread = StitcherThread.Make (ImageMatrixApp.merge_images self)
               ImageMatrixApp.desktop_path
               (QSlider.value (ImageMatrixApp.m_split_slider self))
               target_width
               (QSlider.value (ImageMatrixApp.m_limit_slider self) * 200)%Z.
Proof.
  unfold ImageMatrixApp.start_stitching.
  destruct (ImageMatrixApp.merge_images self) as [|p ps].
  - intros [H|[]]. discriminate.
  - destruct (ImageMatrixApp.merge_target_width self) as [box|w] eqn:Hw.
    + intros [H|[]]. apply merge_target_width_box in Hw. subst box. discriminate.
    + intros [H|[]]. injection H as <-. now exists w.
Qed.

(** A started slice job carries the window's settings. *)
Lemma start_slicing_thread (self : ImageMatrixApp.t) (thread : SlicerThread.t) :
  In (ImageMatrixApp.StartSlicer thread) (ImageMatrixApp.start_slicing self) ->
  exists target_width,
    ImageMatrixApp.slice_target_width self = inr target_width /\
    thread = SlicerThread.Make (ImageMatrixApp.slice_images self)
               ImageMatrixApp.desktop_path
               (QSlider.value (ImageMatrixApp.s_count_slider self))
               (ImageMatrixApp.s_smart_check self)
               target_width
               (QSlider.value (ImageMatrixApp.s_limit_slider self) * 200)%Z.
Proof.
  unfold ImageMatrixApp.start_slicing.
  destruct (ImageMatrixApp.slice_images self) as [|p ps].
  - intros [H|[]]. discriminate.
  - destruct (ImageMatrixApp.slice_target_width self) as [box|w] eqn:Hw.
    + intros [H|[]]. apply slice_target_width_box in Hw. subst box. discriminate.
    + intros [H|[]]. injection H as <-. now exists w.
Qed.

(** With images loaded and a width chosen, the click starts one job, built
    from the window. *)
Lemma start_stitching_starts (self : ImageMatrixApp.t) (target_width : option Z) :
  ImageMatrixApp.merge_images self <> [] ->
  ImageMatrixApp.merge_target_width self = inr target_width ->
  ImageMatrixApp.start_stitching self
  = [ImageMatrixApp.StartStitcher
       (StitcherThread.Make (ImageMatrixApp.merge_images self)
          ImageMatrixApp.desktop_path
          (QSlider.value (ImageMatrixApp.m_split_slider self))
          target_width
          (200 * QSlider.value (ImageMatrixApp.m_limit_slider self))%Z)].
Proof.
  intros Himgs Hw. unfold ImageMatrixApp.start_stitching. rewrite Hw.
  destruct (ImageMatrixApp.merge_images self); [congruence|].
  cbv zeta. now rewrite (Z.mul_comm 200).
Qed.

Lemma start_slicing_starts (self : ImageMatrixApp.t) (target_width : option Z) :
  ImageMatrixApp.slice_images self <> [] ->
  ImageMatrixApp.slice_target_width self = inr target_width ->
  ImageMatrixApp.start_slicing self
  = [ImageMatrixApp.StartSlicer
       (SlicerThread.Make (ImageMatrixApp.slice_images self)
          ImageMatrixApp.desktop_path
          (QSlider.value (ImageMatrixApp.s_count_slider self))
          (ImageMatrixApp.s_smart_check self)
          target_width
          (200 * QSlider.value (ImageMatrixApp.s_limit_slider self))%Z)].
Proof.
  intros Himgs Hw. unfold ImageMatrixApp.start_slicing. rewrite Hw.
  destruct (ImageMatrixApp.slice_images self); [congruence|].
  cbv zeta. now rewrite (Z.mul_comm 200).
Qed.

(** A codec whose every stream is one byte over the limit misses it. *)
Lemma encode_over_budget (limit : Z) :
  (0 < limit)%Z ->
  SizeBudgetEncoder.budget_met
    (SizeBudgetEncoder.encode unit
       (fun _ _ => repeat Byte.x00 (Z.to_nat (limit + 1)))
       (fun pixels => pixels) 0%Z [] 0 tt (Some limit))
  = false.
Proof.
  intros Hlimit. unfold SizeBudgetEncoder.encode, SizeBudgetEncoder.normalize.
  destruct (Z.leb_spec limit 0) as [|_]; [lia|].
  cbn [SizeBudgetEncoder.attempt SizeBudgetEncoder.ladder SizeBudgetEncoder.search].
  unfold SizeBudgetEncoder.size at 1. rewrite repeat_length, Z2Nat.id by lia.
  destruct (Z.leb_spec (limit + 1) limit) as [|_]; [lia|]. reflexivity.
Qed.

(** C7.  With images loaded and a width chosen, the start button of either
    tab starts exactly one job, whose [max_kb] is [200 * v] for the value
    [v] of that tab's limit slider, and the worker calls the engine with
    exactly that: the signal of the stitch worker is the answer of
    [stitch_images] at [200 * v], and the report of the slice worker is made
    of the answers of [slice_image] at [200 * v].  No job is ever started
    with another limit; [v] always lies in 0..5.  In the core, 0 is the one
    slider value at which no budget is enforced: whatever the codec, the
    bitmap is encoded once at the top quality, never downscaled and never
    flagged, exactly when [v = 0]. *)
Theorem limit_slider_in_kilobytes :
  (forall self target_width (stitch_images : StitcherThread.engine),
      ImageMatrixApp.merge_images self <> [] ->
      ImageMatrixApp.merge_target_width self = inr target_width ->
      let kb := (200 * QSlider.value (ImageMatrixApp.m_limit_slider self))%Z in
      let thread := StitcherThread.Make (ImageMatrixApp.merge_images self)
                      ImageMatrixApp.desktop_path
                      (QSlider.value (ImageMatrixApp.m_split_slider self))
                      target_width kb in
      ImageMatrixApp.start_stitching self = [ImageMatrixApp.StartStitcher thread] /\
      emitted (StitcherThread.run stitch_images thread)
      = match stitch_images (ImageMatrixApp.merge_images self)
                ImageMatrixApp.desktop_path
                (QSlider.value (ImageMatrixApp.m_split_slider self))
                target_width kb with
        | Returned (success, message) => [Signal success message]
        | Raised e => [Signal false e]
        | Uncaught _ => []
        end) /\
  (forall self target_width (slice_image : SlicerThread.engine),
      ImageMatrixApp.slice_images self <> [] ->
      ImageMatrixApp.slice_target_width self = inr target_width ->
      let kb := (200 * QSlider.value (ImageMatrixApp.s_limit_slider self))%Z in
      let paths := ImageMatrixApp.slice_images self in
      let thread := SlicerThread.Make paths ImageMatrixApp.desktop_path
                      (QSlider.value (ImageMatrixApp.s_count_slider self))
                      (ImageMatrixApp.s_smart_check self) target_width kb in
      let answer := fun path =>
                      slice_image path ImageMatrixApp.desktop_path
                        (QSlider.value (ImageMatrixApp.s_count_slider self))
                        (ImageMatrixApp.s_smart_check self) target_width kb in
      let s := List.length
                 (filter (fun path => match answer path with
                                      | Returned (true, _) => true
                                      | _ => false
                                      end) paths) in
      let errors := flat_map
                      (fun path => match answer path with
                                   | Returned (false, msg) =>
                                       [(Py.basename path ++ ": " ++ msg)%string]
                                   | _ => []
                                   end) paths in
      ImageMatrixApp.start_slicing self = [ImageMatrixApp.StartSlicer thread] /\
      ((forall path, In path paths -> exists r, answer path = Returned r) ->
       emitted (SlicerThread.run slice_image thread)
       = [if Nat.eqb s (List.length paths) then Signal true (SlicerThread.msg_all s)
          else if (0 <? s)%nat
               then Signal true (SlicerThread.msg_partial s (List.length paths) errors)
               else Signal false (SlicerThread.msg_none errors)]) /\
      (forall before path after e,
          paths = (before ++ path :: after)%list ->
          (forall q, In q before -> exists r, answer q = Returned r) ->
          answer path = Raised e ->
          emitted (SlicerThread.run slice_image thread) = [Signal false e])) /\
  (forall self thread,
      In (ImageMatrixApp.StartStitcher thread) (ImageMatrixApp.start_stitching self) ->
      StitcherThread.max_kb thread
      = (200 * QSlider.value (ImageMatrixApp.m_limit_slider self))%Z) /\
  (forall self thread,
      In (ImageMatrixApp.StartSlicer thread) (ImageMatrixApp.start_slicing self) ->
      SlicerThread.max_kb thread
      = (200 * QSlider.value (ImageMatrixApp.s_limit_slider self))%Z) /\
  (forall sort_files list_of_set evs,
      let window := fst (ImageMatrixApp.run sort_files list_of_set evs ImageMatrixApp.init) in
      (0 <= QSlider.value (ImageMatrixApp.m_limit_slider window) <= 5)%Z /\
      (0 <= QSlider.value (ImageMatrixApp.s_limit_slider window) <= 5)%Z) /\
  (forall bytes_per_kb v,
      (0 < bytes_per_kb)%Z -> (0 <= v <= 5)%Z ->
      (forall (bitmap : Type) (encode_at : bitmap -> Z -> list Byte.byte)
              (downscale : bitmap -> bitmap) (top_quality : Z)
              (lower_qualities : list Z) (max_rounds : nat) (pixels : bitmap),
          SizeBudgetEncoder.encode_kb bitmap encode_at downscale top_quality
            lower_qualities max_rounds bytes_per_kb pixels (200 * v)
          = SizeBudgetEncoder.Encoded (encode_at pixels top_quality) true
              [encode_at pixels top_quality] 0)
      <-> v = 0%Z).
Proof.
  split; [|split; [|split; [|split; [|split]]]].
  - intros self target_width stitch_images Himgs Hw kb thread. split.
    + exact (start_stitching_starts self target_width Himgs Hw).
    + unfold emitted. rewrite stitcher_run_cases.
      unfold StitcherThread.outcome_of, thread.
      cbn [StitcherThread.image_paths StitcherThread.output_dir
             StitcherThread.split_count StitcherThread.target_width
             StitcherThread.max_kb].
      destruct (stitch_images _ _ _ _ _) as [[success message]|e|u]; reflexivity.
  - intros self target_width slice_image Himgs Hw kb paths thread answer s errors.
    assert (Hraises : forall q,
               (exists r, answer q = Returned r) ->
               SlicerThread.raises slice_image thread q = false).
    { intros q [r Hr]. unfold SlicerThread.raises.
      change (SlicerThread.outcome_of slice_image thread q) with (answer q).
      now rewrite Hr. }
    split; [|split].
    + exact (start_slicing_starts self target_width Himgs Hw).
    + intros Hret. unfold emitted.
      rewrite (run_returns slice_image thread) by (intros q Hq; apply Hraises; auto).
      reflexivity.
    + intros before path after e Hpaths Hb Hp. unfold emitted.
      rewrite (run_raises slice_image thread before after path e Hpaths); auto.
  - intros self thread Hin.
    destruct (start_stitching_thread self thread Hin) as (w & _ & ->).
    cbn [StitcherThread.max_kb]. lia.
  - intros self thread Hin.
    destruct (start_slicing_thread self thread Hin) as (w & _ & ->).
    cbn [SlicerThread.max_kb]. lia.
  - intros sort_files list_of_set evs window.
    destruct (run_limits sort_files list_of_set evs _ init_limit_sliders_ok)
      as [(_ & _ & Hm) (_ & _ & Hs)].
    now split.
  - intros bytes_per_kb v Hkb Hv. split.
    + intros Hfree. destruct (Z.eq_dec v 0) as [|Hpos]; [assumption|exfalso].
      specialize (Hfree unit
                    (fun _ _ => repeat Byte.x00 (Z.to_nat (200 * v * bytes_per_kb + 1)))
                    (fun pixels => pixels) 0%Z [] O tt).
      apply (f_equal (SizeBudgetEncoder.budget_met)) in Hfree.
      unfold SizeBudgetEncoder.encode_kb, SizeBudgetEncoder.limit_of_kb in Hfree.
      destruct (Z.eqb_spec (200 * v) 0) as [|_]; [lia|].
      rewrite encode_over_budget in Hfree by nia.
      discriminate.
    + intros -> bitmap encode_at downscale top_quality lower_qualities max_rounds pixels.
      reflexivity.
Qed.

(** C7 at work: the merge window with its limit slider at 3 starts a job
    whose engine is called with 600; the slice window with its limit slider
    at 2 starts a job whose engine is called with 400 for its one image; at
    0 the toy codec's stream is returned as it is, with no flag and no
    downscale. *)
Lemma limit_slider_in_kilobytes_witness :
  let merge := fst (ImageMatrixApp.handle NaturalSequencer.order Samples.list_of_set
                      (ImageMatrixApp.MoveMergeLimit 3) Samples.merge_window) in
  let stitcher := StitcherThread.Make ["d/img1.png"; "d/img2.png"]
                    ImageMatrixApp.desktop_path 2 None 600 in
  let slice := fst (ImageMatrixApp.handle NaturalSequencer.order Samples.list_of_set
                      (ImageMatrixApp.MoveSliceLimit 2) Samples.slice_window) in
  let slicer := SlicerThread.Make ["d/long.png"] ImageMatrixApp.desktop_path 5 true
                  None 400 in
  (ImageMatrixApp.start_stitching merge = [ImageMatrixApp.StartStitcher stitcher] /\
   emitted (StitcherThread.run (Samples.stitch_images_expecting 600) stitcher)
   = [Signal true "ok"] /\
   emitted (StitcherThread.run (Samples.stitch_images_expecting 3) stitcher)
   = [Signal false "limit"]) /\
  (ImageMatrixApp.start_slicing slice = [ImageMatrixApp.StartSlicer slicer] /\
   emitted (SlicerThread.run (Samples.slice_image_expecting 400) slicer)
   = [Signal true (SlicerThread.msg_all 1)] /\
   emitted (SlicerThread.run (Samples.slice_image_expecting 2) slicer)
   = [Signal false (SlicerThread.msg_none ["long.png: limit"])]) /\
  SizeBudgetEncoder.budget_met
    (SizeBudgetEncoder.encode_kb nat Samples.encode_at Samples.downscale 3%Z [2; 1]%Z 6
       1%Z 10%nat (200 * 0)%Z) = true /\
  SizeBudgetEncoder.downscales
    (SizeBudgetEncoder.encode_kb nat Samples.encode_at Samples.downscale 3%Z [2; 1]%Z 6
       1%Z 10%nat (200 * 0)%Z) = O.
Proof.
  intros merge stitcher slice slicer.
  destruct limit_slider_in_kilobytes as (Hstitch & Hslice & _ & _ & _ & Hcore).
  split; [|split].
  - assert (Himgs : ImageMatrixApp.merge_images merge <> []) by (vm_compute; congruence).
    assert (Hw : ImageMatrixApp.merge_target_width merge = inr None) by reflexivity.
    split; [|split].
    + exact (proj1 (Hstitch merge None (Samples.stitch_images_expecting 600) Himgs Hw)).
    + exact (proj2 (Hstitch merge None (Samples.stitch_images_expecting 600) Himgs Hw)).
    + exact (proj2 (Hstitch merge None (Samples.stitch_images_expecting 3) Himgs Hw)).
  - assert (Himgs : ImageMatrixApp.slice_images slice <> []) by (vm_compute; congruence).
    assert (Hw : ImageMatrixApp.slice_target_width slice = inr None) by reflexivity.
    assert (Hret : forall kb path,
               In path (ImageMatrixApp.slice_images slice) ->
               exists r, Samples.slice_image_expecting kb path
                           ImageMatrixApp.desktop_path
                           (QSlider.value (ImageMatrixApp.s_count_slider slice))
                           (ImageMatrixApp.s_smart_check slice) None
                           (200 * QSlider.value (ImageMatrixApp.s_limit_slider slice))%Z
                         = Returned r).
    { intros kb path _. unfold Samples.slice_image_expecting.
      destruct (_ =? kb)%Z; eauto. }
    split; [|split].
    + exact (proj1 (Hslice slice None (Samples.slice_image_expecting 400) Himgs Hw)).
    + exact (proj1 (proj2 (Hslice slice None (Samples.slice_image_expecting 400) Himgs Hw))
               (Hret 400%Z)).
    + exact (proj1 (proj2 (Hslice slice None (Samples.slice_image_expecting 2) Himgs Hw))
               (Hret 2%Z)).
  - rewrite (proj2 (Hcore 1%Z 0%Z ltac:(lia) ltac:(lia)) eq_refl).
    split; reflexivity.
Defined.

(** C10.  With images loaded, the custom width selected and the width field
    empty (or blank), [start_slicing] starts the job with a target width of
    750 and shows nothing, while [start_stitching] shows the input error and
    starts nothing. *)
Theorem empty_custom_width_slice_defaults_merge_refuses :
  (forall self,
      ImageMatrixApp.slice_images self <> [] ->
      ImageMatrixApp.s_radio self = ImageMatrixApp.SCustom ->
      Py.strip (ImageMatrixApp.s_custom_input self) = "" ->
      ImageMatrixApp.start_slicing self
      = [ImageMatrixApp.StartSlicer
           (SlicerThread.Make (ImageMatrixApp.slice_images self)
              ImageMatrixApp.desktop_path
              (QSlider.value (ImageMatrixApp.s_count_slider self))
              (ImageMatrixApp.s_smart_check self)
              (Some 750%Z)
              (QSlider.value (ImageMatrixApp.s_limit_slider self) * 200)%Z)]) /\
  (forall self,
      ImageMatrixApp.merge_images self <> [] ->
      ImageMatrixApp.m_radio self = ImageMatrixApp.MCustom ->
      Py.strip (ImageMatrixApp.m_custom_input self) = "" ->
      ImageMatrixApp.start_stitching self
      = [ImageMatrixApp.Warning "输入错误" "请输入有效的宽度！"]).
Proof.
  split; intros self Himgs Hradio Htext.
  - unfold ImageMatrixApp.start_slicing, ImageMatrixApp.slice_target_width,
      ImageMatrixApp.s_radio_custom_isChecked.
    rewrite Hradio, Htext. cbn [Py.truthy negb].
    destruct (ImageMatrixApp.slice_images self); [congruence|reflexivity].
  - unfold ImageMatrixApp.start_stitching, ImageMatrixApp.merge_target_width,
      ImageMatrixApp.m_radio_750_isChecked, ImageMatrixApp.m_radio_1080_isChecked,
      ImageMatrixApp.m_radio_custom_isChecked.
    rewrite Hradio, Htext. cbn [Py.truthy negb].
    destruct (ImageMatrixApp.merge_images self); [congruence|reflexivity].
Qed.

(** C10 at work on the two sample windows, custom width chosen, nothing
    typed. *)
Lemma empty_custom_width_slice_defaults_merge_refuses_witness :
  let slice := fst (ImageMatrixApp.handle NaturalSequencer.order Samples.list_of_set
                      (ImageMatrixApp.ChooseSliceWidth ImageMatrixApp.SCustom)
                      Samples.slice_window) in
  let merge := fst (ImageMatrixApp.handle NaturalSequencer.order Samples.list_of_set
                      (ImageMatrixApp.ChooseMergeWidth ImageMatrixApp.MCustom)
                      Samples.merge_window) in
  ImageMatrixApp.start_slicing slice
  = [ImageMatrixApp.StartSlicer
       (SlicerThread.Make ["d/long.png"] ImageMatrixApp.desktop_path 5 true
          (Some 750%Z) 200)] /\
  ImageMatrixApp.start_stitching merge
  = [ImageMatrixApp.Warning "输入错误" "请输入有效的宽度！"].
Proof.
  intros slice merge.
  destruct empty_custom_width_slice_defaults_merge_refuses as [Hslice Hmerge].
  split.
  - rewrite (Hslice slice); [reflexivity| | |]; vm_compute; congruence.
  - apply (Hmerge merge); vm_compute; congruence.
Defined.

(** ** The natural-order sequencer *)

#[export] Instance N_compare_order : Order N.compare.
Proof.
  split.
  - apply N.compare_refl.
  - apply N.compare_eq.
  - intros a b. apply N.compare_antisym.
  - intros a b c. rewrite !N.compare_lt_iff. apply N.lt_trans.
Qed.

#[export] Instance ascii_compare_order : Order Ascii.compare.
Proof.
  split.
  - intros a. apply N.compare_refl.
  - apply Ascii.compare_eq_iff.
  - apply Ascii.compare_antisym.
  - intros a b c. unfold Ascii.compare. apply (cmp_trans (cmp := N.compare)).
Qed.

(** The step shared by the lexicographic orders below: heads compared by an
    order, tails by the induction hypothesis. *)
Ltac lex_trans_step cmp a b c IH :=
  let Eab := fresh "Eab" in
  let Ebc := fresh "Ebc" in
  destruct (cmp a b) eqn:Eab; try discriminate;
  destruct (cmp b c) eqn:Ebc; try discriminate;
  [ apply cmp_eq in Eab; apply cmp_eq in Ebc; subst;
    rewrite (cmp_refl (cmp := cmp)); eauto using IH
  | apply cmp_eq in Eab; subst; now rewrite Ebc
  | apply cmp_eq in Ebc; subst; now rewrite Eab
  | now rewrite (cmp_trans (cmp := cmp) a b c Eab Ebc) ].

#[export] Instance string_compare_order : Order String.compare.
Proof.
  split.
  - induction a as [|c a IH]; cbn; [reflexivity|].
    now rewrite (cmp_refl (cmp := Ascii.compare)).
  - apply String.compare_eq_iff.
  - apply String.compare_antisym.
  - induction a as [|x a IH]; intros [|y b] [|z c]; cbn; try discriminate; auto.
    intros Hab Hbc. lex_trans_step Ascii.compare x y z IH.
Qed.

#[export] Instance compare_run_order : Order NaturalSequencer.compare_run.
Proof.
  split.
  - intros [n|s]; cbn; apply cmp_refl.
  - intros [m|s] [n|t]; cbn; try discriminate; intros H; apply cmp_eq in H; congruence.
  - intros [m|s] [n|t]; cbn; try reflexivity; apply cmp_antisym.
  - intros [m|s] [n|t] [o|u]; cbn; try discriminate; auto; apply cmp_trans.
Qed.

#[export] Instance compare_key_order : Order NaturalSequencer.compare_key.
Proof.
  split.
  - induction a as [|x a IH]; cbn; [reflexivity|].
    now rewrite (cmp_refl (cmp := NaturalSequencer.compare_run)).
  - induction a as [|x a IH]; intros [|y b]; cbn; try discriminate; auto.
    destruct (NaturalSequencer.compare_run x y) eqn:E; try discriminate.
    intros H. apply cmp_eq in E. apply IH in H. congruence.
  - induction a as [|x a IH]; intros [|y b]; cbn; try reflexivity.
    rewrite (cmp_antisym (cmp := NaturalSequencer.compare_run) x y).
    destruct (NaturalSequencer.compare_run y x); cbn; auto.
  - induction a as [|x a IH]; intros [|y b] [|z c]; cbn; try discriminate; auto.
    intros Hab Hbc. lex_trans_step NaturalSequencer.compare_run x y z IH.
Qed.

#[export] Instance compare_filename_order : Order NaturalSequencer.compare_filename.
Proof.
  unfold NaturalSequencer.compare_filename. split.
  - intros a. rewrite (cmp_refl (cmp := NaturalSequencer.compare_key)). apply cmp_refl.
  - intros a b.
    destruct (NaturalSequencer.compare_key _ _); try discriminate. apply cmp_eq.
  - intros a b.
    rewrite (cmp_antisym (cmp := NaturalSequencer.compare_key)
               (NaturalSequencer.key a) (NaturalSequencer.key b)).
    destruct (NaturalSequencer.compare_key (NaturalSequencer.key b)
                (NaturalSequencer.key a)); cbn; auto.
    apply cmp_antisym.
  - intros a b c Hab Hbc.
    destruct (NaturalSequencer.compare_key (NaturalSequencer.key a)
                (NaturalSequencer.key b)) eqn:Eab; try discriminate;
      destruct (NaturalSequencer.compare_key (NaturalSequencer.key b)
                  (NaturalSequencer.key c)) eqn:Ebc; try discriminate.
    + apply cmp_eq in Eab. rewrite Eab, Ebc.
      exact (cmp_trans (cmp := String.compare) a b c Hab Hbc).
    + apply cmp_eq in Eab. now rewrite Eab, Ebc.
    + apply cmp_eq in Ebc. now rewrite <- Ebc, Eab.
    + now rewrite (cmp_trans (cmp := NaturalSequencer.compare_key) _ _ _ Eab Ebc).
Qed.

(** ** Stable insertion sorts *)

Section StableSortFacts.

Variable le : string -> string -> bool.

Hypothesis le_total : forall p q, le p q = false -> le q p = true.
Hypothesis le_trans : forall p q r, le p q = true -> le q r = true -> le p r = true.

Local Abbreviation sorted := (StronglySorted (fun p q => le p q = true)).
Local Abbreviation insert := (StableSort.insert le).
Local Abbreviation sort := (StableSort.sort le).

Lemma insert_perm (p : string) (l : list string) : Permutation (insert p l) (p :: l).
Proof.
  induction l as [|q l IH]; cbn; [reflexivity|].
  destruct (le p q); [reflexivity|].
  rewrite IH. apply perm_swap.
Qed.

Lemma sort_perm (l : list string) : Permutation (sort l) l.
Proof.
  induction l as [|p l IH]; cbn; [reflexivity|].
  rewrite insert_perm. now constructor.
Qed.

Lemma insert_sorted (p : string) (l : list string) : sorted l -> sorted (insert p l).
Proof.
  induction 1 as [|q l Hs IH Hq]; cbn.
  - repeat constructor.
  - destruct (le p q) eqn:Hpq.
    + constructor; [now constructor|].
      constructor; [exact Hpq|].
      eapply Forall_impl; [|exact Hq]. intros r Hr. cbn beta in *.
      now apply (le_trans p q r).
    + constructor; [exact IH|].
      apply (Permutation_Forall (x := p :: l)); [symmetry; apply insert_perm|].
      constructor; [now apply le_total|exact Hq].
Qed.

Lemma sort_sorted (l : list string) : sorted (sort l).
Proof.
  induction l as [|p l IH]; cbn; [constructor|]. now apply insert_sorted.
Qed.





(** Where no two paths may stand before each other, there is one sorted
    arrangement only. *)
Lemma sorted_unique (l1 : list string) :
  forall l2,
    (forall p q, In p l1 -> In q l1 -> le p q = true -> le q p = true -> p = q) ->
    sorted l1 -> sorted l2 -> Permutation l1 l2 -> l1 = l2.
Proof.
  induction l1 as [|a r1 IH]; intros l2 Hanti Hs1 Hs2 Hperm.
  - now apply Permutation_nil in Hperm.
  - destruct l2 as [|b r2].
    + symmetry in Hperm. now apply Permutation_nil in Hperm.
    + inversion Hs1 as [|? ? Hs1' Ha]; subst.
      inversion Hs2 as [|? ? Hs2' Hb]; subst.
      rewrite Forall_forall in Ha, Hb.
      assert (Hina : In a (b :: r2))
        by (eapply Permutation_in; [exact Hperm|now left]).
      assert (Hinb : In b (a :: r1))
        by (eapply Permutation_in; [symmetry; exact Hperm|now left]).
      assert (Hab : a = b).
      { destruct Hina as [->|Hina']; [reflexivity|].
        destruct Hinb as [->|Hinb']; [reflexivity|].
        apply Hanti; [now left|now right| |]; auto. }
      subst b. f_equal. apply IH; auto.
      * intros p q Hp Hq. apply Hanti; now right.
      * now apply Permutation_cons_inv in Hperm.
Qed.

(** So the sorted list depends on the paths only, not on how they are
    listed. *)
Lemma sort_of_set (l1 l2 : list string) :
  (forall p q, In p l1 -> In q l1 -> le p q = true -> le q p = true -> p = q) ->
  NoDup l1 -> NoDup l2 -> (forall x, In x l1 <-> In x l2) ->
  sort l1 = sort l2.
Proof.
  intros Hanti Hn1 Hn2 Hsame. apply sorted_unique; try apply sort_sorted.
  - intros p q Hp Hq. apply Hanti.
    + eapply Permutation_in; [apply sort_perm|exact Hp].
    + eapply Permutation_in; [apply sort_perm|exact Hq].
  - rewrite !sort_perm. now apply NoDup_Permutation.
Qed.

End StableSortFacts.

(** ** The sequencer's sort *)

Section Sorting.

Import NaturalSequencer.

(** [order] is the stable insertion sort by [precedes]. *)
Lemma order_is_sort (l : list string) : order l = StableSort.sort precedes l.
Proof. reflexivity. Qed.

Lemma precedes_total (p q : string) : precedes p q = false -> precedes q p = true.
Proof.
  unfold precedes, compare_path.
  rewrite (cmp_antisym (cmp := compare_filename) (filename q) (filename p)).
  destruct (compare_filename (filename p) (filename q)); cbn; congruence.
Qed.

Lemma precedes_trans (p q r : string) :
  precedes p q = true -> precedes q r = true -> precedes p r = true.
Proof.
  unfold precedes, compare_path.
  destruct (compare_filename (filename p) (filename q)) eqn:Epq; try discriminate;
    destruct (compare_filename (filename q) (filename r)) eqn:Eqr; try discriminate;
    intros _ _.
  - apply cmp_eq in Epq. now rewrite Epq, Eqr.
  - apply cmp_eq in Epq. now rewrite Epq, Eqr.
  - apply cmp_eq in Eqr. now rewrite <- Eqr, Epq.
  - now rewrite (cmp_trans (cmp := compare_filename) _ _ _ Epq Eqr).
Qed.

(** Paths that may stand before each other carry the same file name. *)
Lemma precedes_antisym (p q : string) :
  precedes p q = true -> precedes q p = true -> filename p = filename q.
Proof.
  unfold precedes, compare_path.
  rewrite (cmp_antisym (cmp := compare_filename) (filename q) (filename p)).
  destruct (compare_filename (filename p) (filename q)) eqn:E; cbn;
    try discriminate; intros _ _.
  now apply cmp_eq in E.
Qed.

Lemma order_perm (l : list string) : Permutation (order l) l.
Proof. apply (sort_perm precedes). Qed.





(** Among paths with file names of their own, the sequencer's answer does
    not depend on how the set is enumerated. *)
Lemma order_of_set (l1 l2 set : list string) :
  distinct_filenames set ->
  enumerates l1 set -> enumerates l2 set -> order l1 = order l2.
Proof.
  intros Hdist [Hn1 H1] [Hn2 H2].
  apply (sort_of_set precedes precedes_total precedes_trans); auto.
  - intros p q Hp Hq Hpq Hqp. apply Hdist; try now apply H1.
    now apply precedes_antisym.
  - intros x. now rewrite H1, H2.
Qed.

End Sorting.

(** Splitting loses nothing, yields runs of one kind each, none empty, and
    kinds alternate. *)
Lemma split_runs_spec (s : string) :
  fold_right String.append "" (map snd (NaturalSequencer.split_runs s)) = s /\
  forallb NaturalSequencer.well_formed_run (NaturalSequencer.split_runs s) = true /\
  NaturalSequencer.alternating (NaturalSequencer.split_runs s) = true.
Proof.
  induction s as [|c s (Hcat & Hwf & Halt)]; [now cbn|].
  cbn [NaturalSequencer.split_runs].
  destruct (NaturalSequencer.split_runs s) as [|[d r] tl].
  - cbn in Hcat. subst s. unfold NaturalSequencer.well_formed_run. cbn.
    now rewrite Bool.eqb_reflx.
  - cbn [map snd fold_right forallb] in Hcat, Hwf.
    apply andb_true_iff in Hwf. destruct Hwf as [Hr Htl].
    unfold NaturalSequencer.well_formed_run in Hr. cbn [fst snd] in Hr.
    apply andb_true_iff in Hr. destruct Hr as [Hne Hr].
    destruct (Bool.eqb d (Py.is_digit c)) eqn:E.
    + apply Bool.eqb_prop in E. subst d. repeat split.
      * cbn [map snd fold_right]. cbn. now rewrite <- Hcat.
      * cbn [forallb]. rewrite Htl.
        unfold NaturalSequencer.well_formed_run.
        cbn [fst snd Py.truthy NaturalSequencer.uniform].
        now rewrite Bool.eqb_reflx, Hr.
      * destruct tl as [|[d2 r2] tl]; cbn in *; auto.
    + repeat split.
      * cbn [map snd fold_right]. cbn. now rewrite <- Hcat.
      * cbn [forallb]. rewrite Htl.
        unfold NaturalSequencer.well_formed_run.
        cbn [fst snd Py.truthy NaturalSequencer.uniform].
        now rewrite !Bool.eqb_reflx, Hne, Hr.
      * change (negb (Bool.eqb (Py.is_digit c) d)
                && NaturalSequencer.alternating ((d, r) :: tl) = true).
        rewrite Halt. destruct d, (Py.is_digit c); cbn in *; congruence.
Qed.

(** C5.  A file name is split into alternating runs of digits and
    non-digits, none lost; keys compare run by run, digit runs by their
    number and text runs as plain text; and every enumeration of
    {img2.png, img10.png, img1.png} is put in the order img1.png, img2.png,
    img10.png. *)
Theorem natural_order_of_numbered_files :
  (forall filename,
      fold_right String.append "" (map snd (NaturalSequencer.split_runs filename))
      = filename /\
      forallb NaturalSequencer.well_formed_run (NaturalSequencer.split_runs filename)
      = true /\
      NaturalSequencer.alternating (NaturalSequencer.split_runs filename) = true) /\
  NaturalSequencer.key "img10.png"
  = [NaturalSequencer.Text "img"; NaturalSequencer.Digits 10; NaturalSequencer.Text ".png"] /\
  (forall m n k1 k2,
      NaturalSequencer.compare_key (NaturalSequencer.Digits m :: k1)
        (NaturalSequencer.Digits n :: k2)
      = match N.compare m n with
        | Eq => NaturalSequencer.compare_key k1 k2
        | c => c
        end) /\
  (forall s t k1 k2,
      NaturalSequencer.compare_key (NaturalSequencer.Text s :: k1)
        (NaturalSequencer.Text t :: k2)
      = match String.compare s t with
        | Eq => NaturalSequencer.compare_key k1 k2
        | c => c
        end) /\
  NaturalSequencer.compare_path "img2.png" "img10.png" = Lt /\
  (forall paths,
      NaturalSequencer.enumerates paths ["img2.png"; "img10.png"; "img1.png"] ->
      NaturalSequencer.order paths = ["img1.png"; "img2.png"; "img10.png"]).
Proof.
  split; [exact split_runs_spec|].
  split; [reflexivity|]. split; [reflexivity|]. split; [reflexivity|].
  split; [reflexivity|].
  intros paths Henum.
  assert (Hset : NaturalSequencer.enumerates ["img2.png"; "img10.png"; "img1.png"]
                   ["img2.png"; "img10.png"; "img1.png"]).
  { split; [|tauto].
    repeat constructor; cbn; intuition discriminate. }
  assert (Hdist : NaturalSequencer.distinct_filenames
                    ["img2.png"; "img10.png"; "img1.png"]).
  { intros p q Hp Hq. cbn in Hp, Hq.
    destruct Hp as [<-|[<-|[<-|[]]]]; destruct Hq as [<-|[<-|[<-|[]]]];
      try reflexivity; intros H; vm_compute in H; discriminate. }
  now rewrite (order_of_set paths _ _ Hdist Henum Hset).
Qed.

(** C5 at work on the set as the claim writes it. *)
Lemma natural_order_of_numbered_files_witness :
  NaturalSequencer.order ["img2.png"; "img10.png"; "img1.png"]
  = ["img1.png"; "img2.png"; "img10.png"].
Proof.
  destruct natural_order_of_numbered_files as (_ & _ & _ & _ & _ & Horder).
  apply Horder. split; [|tauto].
  repeat constructor; cbn; intuition discriminate.
Defined.




(** ** The stitch engine: grouping *)

Section Grouping.

Import StitchEngine.

Lemma group_sizes_length (n g : nat) : List.length (group_sizes n g) = g.
Proof. unfold group_sizes. now rewrite length_map, length_seq. Qed.

(** The [i]-th group has [floor(n/g)] members, one more among the first
    [n mod g]. *)
Lemma group_sizes_nth (n g i : nat) :
  (i < g)%nat ->
  nth i (group_sizes n g) O = (n / g + (if i <? n mod g then 1 else 0))%nat.
Proof.
  intros Hi. unfold group_sizes.
  rewrite (nth_indep _ O ((fun i => n / g + (if i <? n mod g then 1 else 0)) O)%nat)
    by now rewrite length_map, length_seq.
  rewrite (map_nth (fun i => n / g + (if i <? n mod g then 1 else 0))%nat).
  now rewrite seq_nth.
Qed.

Lemma sum_sizes (q r g : nat) :
  list_sum (map (fun i => q + (if i <? r then 1 else 0))%nat (seq 0 g))
  = (g * q + Nat.min r g)%nat.
Proof.
  induction g as [|g IH]; [now rewrite Nat.min_0_r|].
  assert (Hone : forall x, list_sum [x] = x) by (intros x; cbn; lia).
  rewrite seq_S, map_app, list_sum_app, IH. cbn [map Nat.add]. rewrite Hone.
  destruct (Nat.ltb_spec g r); lia.
Qed.

Lemma group_sizes_sum (n g : nat) : (1 <= g)%nat -> list_sum (group_sizes n g) = n.
Proof.
  intros Hg. unfold group_sizes. rewrite sum_sizes.
  pose proof (Nat.mod_upper_bound n g ltac:(lia)) as Hr.
  rewrite Nat.min_l by lia.
  symmetry. apply Nat.div_mod_eq.
Qed.

(** Each size is the floor or the ceiling of [n/g]. *)
Lemma group_sizes_floor_ceil (n g : nat) :
  (1 <= g)%nat ->
  Forall (fun s => s = n / g \/ s = (n + g - 1) / g)%nat (group_sizes n g).
Proof.
  intros Hg. unfold group_sizes. rewrite Forall_map, Forall_forall.
  intros i _. destruct (Nat.ltb_spec i (n mod g)) as [Hlt|_]; [right|left; lia].
  pose proof (Nat.mod_upper_bound n g ltac:(lia)) as Hr.
  apply (Nat.div_unique _ _ _ (n mod g - 1)); [lia|].
  pose proof (Nat.div_mod_eq n g). nia.
Qed.

Lemma group_sizes_positive (n g : nat) :
  (1 <= g <= n)%nat -> Forall (fun s => 1 <= s)%nat (group_sizes n g).
Proof.
  intros Hg. unfold group_sizes. rewrite Forall_map, Forall_forall.
  intros i _.
  assert (1 <= n / g)%nat by (apply Nat.div_le_lower_bound; lia). lia.
Qed.

(** Cutting by sizes that add up to the length gives groups of exactly
    those sizes which, put end to end, are the list again. *)
Lemma split_groups_spec {A} (sizes : list nat) :
  forall sources : list A,
    list_sum sizes = List.length sources ->
    List.length (split_groups sizes sources) = List.length sizes /\
    map (@List.length A) (split_groups sizes sources) = sizes /\
    List.concat (split_groups sizes sources) = sources.
Proof.
  induction sizes as [|s sizes IH]; intros sources Hsum.
  - destruct sources; [now repeat split|discriminate].
  - change (list_sum (s :: sizes)) with (s + list_sum sizes)%nat in Hsum.
    destruct (IH (skipn s sources)) as (Hlen & Hsizes & Hcat).
    { rewrite length_skipn. lia. }
    cbn [split_groups List.length map List.concat].
    rewrite Hlen, Hsizes, Hcat, firstn_skipn, length_firstn.
    repeat split. f_equal. lia.
Qed.

Lemma clamp_group_count_range (group_count : Z) (n : nat) :
  (1 <= n)%nat -> (1 <= clamp_group_count group_count n <= n)%nat.
Proof. unfold clamp_group_count. lia. Qed.

End Grouping.

(** C3 (as amended).  A stitch job over [n >= 1] ordered sources with group
    count [g] is partitioned into [g' = min(max(g, 1), n)] groups ([g' = g]
    whenever [1 <= g <= n]): the groups put end to end are the sources in
    read order, so every source lies in exactly one group; group [i] has
    [floor(n/g')] members and one more if [i < n mod g'], hence each size is
    [floor(n/g')] or [ceil(n/g')] with the remainder on the first groups; no
    group is empty. *)
Theorem partition_into_even_groups {A : Type} (sources : list A) (group_count : Z) :
  sources <> [] ->
  let n := List.length sources in
  let g := StitchEngine.clamp_group_count group_count n in
  ((1 <= group_count <= Z.of_nat n)%Z -> Z.of_nat g = group_count) /\
  exists groups,
    StitchEngine.partition group_count sources = Ok groups /\
    List.length groups = g /\
    List.concat groups = sources /\
    (forall i, (i < g)%nat ->
               List.length (nth i groups [])
               = (n / g + (if i <? n mod g then 1 else 0))%nat) /\
    Forall (fun group => List.length group = (n / g)%nat \/
                         List.length group = ((n + g - 1) / g)%nat) groups /\
    Forall (fun group => group <> []) groups.
Proof.
  intros Hne n g.
  assert (Hn : (1 <= n)%nat) by (destruct sources; [congruence|cbn; lia]).
  pose proof (clamp_group_count_range group_count n Hn) as Hg. fold g in Hg.
  split; [unfold g, StitchEngine.clamp_group_count; lia|].
  destruct (split_groups_spec (StitchEngine.group_sizes n g) sources)
    as (Hlen & Hsizes & Hcat); [apply group_sizes_sum; lia|].
  assert (Hok : StitchEngine.partition group_count sources
                = Ok (StitchEngine.split_groups (StitchEngine.group_sizes n g) sources))
    by (unfold StitchEngine.partition; destruct sources; [congruence|reflexivity]).
  revert Hlen Hsizes Hcat Hok.
  generalize (StitchEngine.split_groups (StitchEngine.group_sizes n g) sources).
  intros groups Hlen Hsizes Hcat Hok. exists groups.
  split; [|split; [|split; [|split; [|split]]]].
  - exact Hok.
  - now rewrite Hlen, group_sizes_length.
  - exact Hcat.
  - intros i Hi. rewrite <- (group_sizes_nth n g i Hi), <- Hsizes.
    symmetry. exact (map_nth (@List.length A) _ [] i).
  - pose proof (group_sizes_floor_ceil n g ltac:(lia)) as H.
    rewrite <- Hsizes, Forall_map in H. exact H.
  - pose proof (group_sizes_positive n g Hg) as H.
    rewrite <- Hsizes, Forall_map in H.
    eapply Forall_impl; [|exact H]. cbn beta. intros group Hlen1 ->. cbn in Hlen1. lia.
Qed.

(** C3 (amended) at work: seven sources in three groups are grouped 3, 2, 2. *)
Lemma partition_into_even_groups_witness :
  StitchEngine.partition 3 [1; 2; 3; 4; 5; 6; 7]%nat
  = Ok [[1; 2; 3]; [4; 5]; [6; 7]]%nat /\
  exists groups,
    StitchEngine.partition 3 [1; 2; 3; 4; 5; 6; 7]%nat = Ok groups /\
    List.length groups = 3%nat /\
    List.concat groups = [1; 2; 3; 4; 5; 6; 7]%nat.
Proof.
  split; [reflexivity|].
  destruct (partition_into_even_groups [1; 2; 3; 4; 5; 6; 7]%nat 3 ltac:(discriminate))
    as (_ & groups & Hok & Hlen & Hcat & _).
  exists groups. repeat split; assumption.
Defined.

(** C3 as stated fails: asked for five groups of three sources, the engine
    clamps the count and makes three groups, not five. *)
Lemma partition_clamps_counterexample :
  StitchEngine.partition 5 ["a.png"; "b.png"; "c.png"]
  = Ok [["a.png"]; ["b.png"]; ["c.png"]] /\
  forall groups,
    StitchEngine.partition 5 ["a.png"; "b.png"; "c.png"] = Ok groups ->
    List.length groups <> 5%nat.
Proof.
  split; [reflexivity|].
  intros groups H. vm_compute in H. injection H as <-. cbn. discriminate.
Qed.

(** ** The slice engine: uniform cuts *)

(** Case analysis on every test a rounding makes. *)
Ltac round_cases :=
  unfold SliceEngine.round_parts;
  repeat match goal with
         | |- context [Z.even ?x] => destruct (Z.even x)
         | |- context [Z.ltb ?a ?b] => destruct (Z.ltb_spec a b)
         | |- context [Z.eqb ?a ?b] => destruct (Z.eqb_spec a b)
         end;
  lia.

Section Rounding.

Import SliceEngine.
Open Scope Z_scope.

Lemma round_div_parts (mode : rounding) (p q f r : Z) :
  0 < q -> p = f * q + r -> 0 <= r < q ->
  round_div mode p q = round_parts mode f r q.
Proof.
  intros Hq Hp Hr.
  assert (Hf : p / q = f) by (symmetry; apply (Z.div_unique p q f r); lia).
  assert (Hm : p mod q = r) by (symmetry; apply (Z.mod_unique p q f r); lia).
  destruct mode; unfold round_div, round_parts.
  - exact Hf.
  - destruct (Z.eqb_spec r 0) as [E|E]; symmetry.
    + apply (Z.div_unique _ q f (q - 1)); lia.
    + apply (Z.div_unique _ q (f + 1) (r - 1)); lia.
  - destruct (Z.ltb_spec (2 * r) q); symmetry.
    + apply (Z.div_unique _ (2 * q) f (2 * r + q)); lia.
    + apply (Z.div_unique _ (2 * q) (f + 1) (2 * r - q)); lia.
  - now rewrite Hf, Hm.
Qed.

Lemma round_div_split (mode : rounding) (p q : Z) :
  0 < q -> round_div mode p q = round_parts mode (p / q) (p mod q) q.
Proof.
  intros Hq. apply round_div_parts; [assumption| |now apply Z.mod_pos_bound].
  pose proof (Z.div_mod p q ltac:(lia)). lia.
Qed.

Lemma round_parts_bounds (mode : rounding) (f r q : Z) :
  f <= round_parts mode f r q <= f + 1.
Proof.
  destruct mode; round_cases.
Qed.

Lemma quotient_le (q f r f' r' : Z) :
  0 < q -> 0 <= r -> r' < q -> f * q + r <= f' * q + r' -> f <= f'.
Proof. intros. nia. Qed.

(** Rounding never reverses an order. *)
Lemma round_div_mono (mode : rounding) (p p' q : Z) :
  0 < q -> p <= p' -> round_div mode p q <= round_div mode p' q.
Proof.
  intros Hq Hle. rewrite !round_div_split by assumption.
  pose proof (Z.mod_pos_bound p q Hq) as Hr.
  pose proof (Z.mod_pos_bound p' q Hq) as Hr'.
  pose proof (Z.div_mod p q ltac:(lia)) as Hp.
  pose proof (Z.div_mod p' q ltac:(lia)) as Hp'.
  assert (Hf : p / q <= p' / q) by (apply (quotient_le q _ (p mod q) _ (p' mod q)); lia).
  destruct (Z.eq_dec (p / q) (p' / q)) as [E|NE].
  - assert (Hrr : p mod q <= p' mod q) by (rewrite E in Hp; lia).
    rewrite <- E.
    destruct mode; round_cases.
  - pose proof (round_parts_bounds mode (p / q) (p mod q) q).
    pose proof (round_parts_bounds mode (p' / q) (p' mod q) q).
    lia.
Qed.

(** A whole number of rows stays as it is. *)
Lemma round_div_exact (mode : rounding) (h q : Z) :
  0 < q -> round_div mode (h * q) q = h.
Proof.
  intros Hq. rewrite (round_div_parts mode (h * q) q h 0) by lia.
  destruct mode; round_cases.
Qed.

(** A gap of more than one unit, or of one unit above a whole number,
    survives rounding as a gap of at least one row. *)
Lemma round_div_step (mode : rounding) (p p' q : Z) :
  0 < q ->
  p + q + 1 <= p' \/ (p + q <= p' /\ p mod q = 0) ->
  round_div mode p q + 1 <= round_div mode p' q.
Proof.
  intros Hq Hgap.
  pose proof (Z.mod_pos_bound p q Hq) as Hr.
  pose proof (Z.div_mod p q ltac:(lia)) as Hp.
  destruct Hgap as [Hgap|[Hgap Hz]].
  - etransitivity; [|apply (round_div_mono mode (p + q + 1) p' q); lia].
    rewrite (round_div_split mode p q) by assumption.
    destruct (Z.eq_dec (p mod q + 1) q) as [E|NE].
    + rewrite (round_div_parts mode (p + q + 1) q (p / q + 2) 0) by lia.
      pose proof (round_parts_bounds mode (p / q) (p mod q) q).
      destruct mode; round_cases.
    + rewrite (round_div_parts mode (p + q + 1) q (p / q + 1) (p mod q + 1)) by lia.
      destruct mode; round_cases.
  - etransitivity; [|apply (round_div_mono mode (p + q) p' q); lia].
    rewrite (round_div_parts mode p q (p / q) 0) by lia.
    rewrite (round_div_parts mode (p + q) q (p / q + 1) 0) by lia.
    destruct mode; round_cases.
Qed.

End Rounding.

Section Ranges.

Import SliceEngine.
Open Scope Z_scope.

Lemma ranges_length (cuts : list Z) :
  forall top bottom, List.length (ranges top cuts bottom) = S (List.length cuts).
Proof. induction cuts as [|c cuts IH]; intros; cbn; [reflexivity|now rewrite IH]. Qed.

(** Heights telescope: they add up to the distance between the ends. *)
Lemma ranges_sum (cuts : list Z) :
  forall top bottom, sum_heights (ranges top cuts bottom) = bottom - top.
Proof.
  induction cuts as [|c cuts IH]; intros top bottom.
  - unfold sum_heights, piece_height. cbn [ranges fold_right fst snd]. lia.
  - change (sum_heights (ranges top (c :: cuts) bottom))
      with (piece_height (top, c) + sum_heights (ranges c cuts bottom)).
    rewrite IH. unfold piece_height. cbn. lia.
Qed.

Lemma ranges_head (cuts : list Z) (top bottom : Z) :
  exists bottom0 rest, ranges top cuts bottom = (top, bottom0) :: rest.
Proof. destruct cuts; cbn; eauto. Qed.

Lemma ranges_contiguous (cuts : list Z) :
  forall top bottom, contiguous (ranges top cuts bottom).
Proof.
  induction cuts as [|c cuts IH]; intros top bottom; [exact I|].
  cbn [ranges]. specialize (IH c bottom).
  destruct (ranges_head cuts c bottom) as (b0 & rest & E).
  rewrite E in *. cbn. now split.
Qed.

Lemma last_cons_default {A} (l : list A) :
  forall x d d', last (x :: l) d = last (x :: l) d'.
Proof.
  induction l as [|y l IH]; intros x d d'; [reflexivity|].
  change (last (y :: l) d = last (y :: l) d'). apply IH.
Qed.

(** The last range ends at the bottom and starts at the last cut. *)
Lemma ranges_last (cuts : list Z) :
  forall top bottom d,
    last (ranges top cuts bottom) d = (last cuts top, bottom).
Proof.
  induction cuts as [|c cuts IH]; intros top bottom d; [reflexivity|].
  cbn [ranges].
  destruct (ranges_head cuts c bottom) as (b0 & rest & E).
  specialize (IH c bottom d). rewrite E in *.
  change (last ((top, c) :: (c, b0) :: rest) d) with (last ((c, b0) :: rest) d).
  rewrite IH. destruct cuts as [|z cuts]; [reflexivity|].
  f_equal. change (last (c :: z :: cuts) top) with (last (z :: cuts) top).
  apply last_cons_default.
Qed.

(** When no range is upside down, a row lies in exactly one range if it
    lies between the ends, and in none otherwise. *)
Lemma ranges_occurrences (y : Z) (cuts : list Z) :
  forall top bottom,
    Forall (fun p => 0 <= piece_height p) (ranges top cuts bottom) ->
    occurrences y (ranges top cuts bottom)
    = if (top <=? y) && (y <? bottom) then 1%nat else 0%nat.
Proof.
  unfold occurrences.
  induction cuts as [|c cuts IH]; intros top bottom Hall.
  - cbn. unfold has_row. cbn. now destruct (_ && _).
  - cbn [ranges] in *. inversion Hall as [|? ? Hh Hrest]; subst.
    unfold piece_height in Hh. cbn [fst snd] in Hh.
    pose proof (ranges_sum cuts c bottom) as Hsum.
    assert (Hcb : c <= bottom).
    { assert (0 <= sum_heights (ranges c cuts bottom)); [|lia].
      clear - Hrest. induction Hrest as [|p l Hp _ IHl]; cbn; [lia|].
      unfold sum_heights in IHl. lia. }
    cbn [filter]. unfold has_row at 1. cbn [fst snd].
    specialize (IH c bottom Hrest).
    destruct (Z.leb_spec top y), (Z.ltb_spec y c); cbn [andb List.length];
      rewrite IH;
      destruct (Z.leb_spec c y), (Z.ltb_spec y bottom); cbn [andb]; lia.
Qed.

(** Ranges between the values of a strictly growing function are all at
    least one row high. *)
Lemma ranges_growing (c : nat -> Z) (bottom : Z) (len : nat) :
  forall a,
    (forall j, (a <= j < a + len)%nat -> c j + 1 <= c (S j)) ->
    c (a + len)%nat + 1 <= bottom ->
    Forall (fun p => 1 <= piece_height p)
      (ranges (c a) (map c (seq (S a) len)) bottom).
Proof.
  induction len as [|len IH]; intros a Hstep Hend.
  - cbn. constructor; [|constructor]. unfold piece_height. cbn.
    rewrite Nat.add_0_r in Hend. lia.
  - cbn [seq map ranges]. constructor.
    + unfold piece_height. cbn. specialize (Hstep a ltac:(lia)). lia.
    + apply IH.
      * intros j Hj. apply Hstep. lia.
      * now replace (S a + len)%nat with (a + S len)%nat by lia.
Qed.

Lemma last_map_seq (c : nat -> Z) (a len : nat) :
  last (map c (seq (S a) len)) (c a) = c (a + len)%nat.
Proof.
  destruct len as [|len].
  - cbn. now rewrite Nat.add_0_r.
  - rewrite seq_S, map_app. cbn [map]. rewrite last_last. f_equal. lia.
Qed.

End Ranges.

Section UniformPieces.

Import SliceEngine.
Open Scope Z_scope.

Lemma ranges_nth (c : nat -> Z) (bottom : Z) (len : nat) :
  forall a i d,
    (i < len)%nat ->
    nth i (ranges (c a) (map c (seq (S a) len)) bottom) d
    = (c (a + i)%nat, c (S (a + i))).
Proof.
  induction len as [|len IH]; intros a i d Hi; [lia|].
  cbn [seq map ranges]. destruct i as [|i].
  - cbn. now rewrite Nat.add_0_r.
  - cbn [nth]. rewrite IH by lia. now replace (S a + i)%nat with (a + S i)%nat by lia.
Qed.

Variable mode : rounding.
Variables total_height piece_count : Z.
Hypothesis Hcount : 1 <= piece_count <= total_height.

Local Abbreviation c := (fun j : nat => cut mode total_height piece_count (Z.of_nat j)).

Lemma cut_zero : cut mode total_height piece_count 0 = 0.
Proof.
  unfold cut. replace (0 * total_height) with (0 * piece_count) by lia.
  apply round_div_exact. lia.
Qed.

Lemma cut_last : cut mode total_height piece_count piece_count = total_height.
Proof.
  unfold cut. rewrite Z.mul_comm. apply round_div_exact. lia.
Qed.

(** Consecutive cuts are at least one row apart. *)
Lemma cut_step (i : Z) :
  0 <= i ->
  cut mode total_height piece_count i + 1 <= cut mode total_height piece_count (i + 1).
Proof.
  intros Hi. unfold cut. apply round_div_step; [lia|].
  destruct (Z.eq_dec total_height piece_count) as [E|NE].
  - right. rewrite E. split; [lia|]. apply Z_mod_mult.
  - left. lia.
Qed.

Lemma cut_points_pieces :
  let pieces := ranges 0 (cut_points mode total_height piece_count) total_height in
  Forall (fun p => 1 <= piece_height p) pieces /\
  uniform_pieces mode total_height piece_count = Ok pieces.
Proof.
  intros pieces.
  assert (Hall : Forall (fun p => 1 <= piece_height p) pieces).
  { unfold pieces, cut_points. rewrite <- cut_zero at 1.
    apply (ranges_growing c total_height (Z.to_nat piece_count - 1) O).
    - intros j Hj. cbn beta. rewrite Nat2Z.inj_succ. apply cut_step. lia.
    - cbn beta. rewrite <- cut_last at 2.
      replace piece_count with (Z.of_nat (0 + (Z.to_nat piece_count - 1)) + 1) at 4 by lia.
      apply cut_step. lia. }
  split; [exact Hall|].
  unfold uniform_pieces. destruct (Z.ltb_spec piece_count 1); [lia|].
  fold pieces.
  replace (forallb (fun p => 1 <=? piece_height p) pieces) with true; [reflexivity|].
  symmetry. apply forallb_forall. rewrite Forall_forall in Hall.
  intros p Hp. apply Z.leb_le. now apply Hall.
Qed.

End UniformPieces.

(** C2.  With [smart_mode] off, for every rounding of the ideal cuts and
    every [piece_count] from 1 to the source height: the engine returns
    [piece_count] pieces; the first starts at row 0, each starts where the
    one before ends, the last ends at the bottom; none is empty; every row
    lies in exactly one piece (and rows outside the image in none); the
    heights add up to the source height; all but the last piece end on a
    rounded ideal multiple, and the last runs from the last cut to the
    bottom, so it takes what the rounding leaves. *)
Theorem uniform_slices_cover_every_row
        (mode : SliceEngine.rounding) (total_height piece_count : Z) :
  (1 <= piece_count <= total_height)%Z ->
  exists pieces,
    SliceEngine.uniform_pieces mode total_height piece_count = Ok pieces /\
    Z.of_nat (List.length pieces) = piece_count /\
    (exists bottom0 rest, pieces = (0%Z, bottom0) :: rest) /\
    SliceEngine.contiguous pieces /\
    Forall (fun p => (1 <= SliceEngine.piece_height p)%Z) pieces /\
    (forall y, (0 <= y < total_height)%Z -> SliceEngine.occurrences y pieces = 1%nat) /\
    (forall y, ~ (0 <= y < total_height)%Z -> SliceEngine.occurrences y pieces = 0%nat) /\
    SliceEngine.sum_heights pieces = total_height /\
    (forall i, (Z.of_nat i < piece_count - 1)%Z ->
               nth i pieces (0, 0)%Z
               = (SliceEngine.cut mode total_height piece_count (Z.of_nat i),
                  SliceEngine.cut mode total_height piece_count (Z.of_nat i + 1))) /\
    last pieces (0, 0)%Z
    = (SliceEngine.cut mode total_height piece_count (piece_count - 1), total_height) /\
    SliceEngine.piece_height (last pieces (0, 0)%Z)
    = (total_height - SliceEngine.sum_heights (removelast pieces))%Z.
Proof.
  intros Hcount.
  destruct (cut_points_pieces mode total_height piece_count Hcount) as [Hall Hok].
  cbv zeta in Hall, Hok.
  set (cuts := SliceEngine.cut_points mode total_height piece_count) in *.
  set (pieces := SliceEngine.ranges 0 cuts total_height) in *.
  assert (Hsum : SliceEngine.sum_heights pieces = total_height)
    by (unfold pieces; rewrite ranges_sum; lia).
  assert (Hocc : forall y,
             SliceEngine.occurrences y pieces
             = if ((0 <=? y) && (y <? total_height))%Z then 1%nat else 0%nat).
  { intros y. apply ranges_occurrences.
    eapply Forall_impl; [|exact Hall]. cbn beta. intros p Hp. lia. }
  assert (E0 : SliceEngine.cut mode total_height piece_count (Z.of_nat 0) = 0%Z)
    by (apply cut_zero; exact Hcount).
  assert (Hlast : last pieces (0, 0)%Z
                  = (SliceEngine.cut mode total_height piece_count (piece_count - 1),
                     total_height)).
  { unfold pieces. rewrite ranges_last. f_equal.
    unfold cuts, SliceEngine.cut_points.
    rewrite <- E0 at 1.
    rewrite (last_map_seq
               (fun j => SliceEngine.cut mode total_height piece_count (Z.of_nat j))
               O (Z.to_nat piece_count - 1)).
    f_equal. lia. }
  exists pieces. split; [exact Hok|].
  split; [|split; [|split; [|split; [|split; [|split; [|split; [|split; [|split]]]]]]]].
  - unfold pieces, cuts, SliceEngine.cut_points.
    rewrite ranges_length, length_map, length_seq. lia.
  - apply ranges_head.
  - apply ranges_contiguous.
  - exact Hall.
  - intros y Hy. rewrite Hocc.
    destruct (Z.leb_spec 0 y), (Z.ltb_spec y total_height); cbn; lia.
  - intros y Hy. rewrite Hocc.
    destruct (Z.leb_spec 0 y), (Z.ltb_spec y total_height); cbn; lia.
  - exact Hsum.
  - intros i Hi. unfold pieces, cuts, SliceEngine.cut_points.
    rewrite <- E0 at 1.
    rewrite (ranges_nth
               (fun j => SliceEngine.cut mode total_height piece_count (Z.of_nat j))
               total_height (Z.to_nat piece_count - 1) O i) by lia.
    cbn [Nat.add]. now rewrite Nat2Z.inj_succ.
  - exact Hlast.
  - assert (Hne : pieces <> [])
      by (unfold pieces; destruct (ranges_head cuts 0%Z total_height)
            as (b0 & rest & ->); discriminate).
    pose proof (app_removelast_last (0, 0)%Z Hne) as Hsplit.
    rewrite Hsplit in Hsum at 1.
    unfold SliceEngine.sum_heights in *. rewrite fold_right_app in Hsum.
    cbn [fold_right] in Hsum.
    assert (Hfold : forall (l : list (Z * Z)) (z : Z),
               fold_right (fun p acc => (SliceEngine.piece_height p + acc)%Z) z l
               = (fold_right (fun p acc => (SliceEngine.piece_height p + acc)%Z) 0%Z l + z)%Z).
    { induction l as [|p l IHl]; intros z; cbn; [lia|]. rewrite IHl. lia. }
    rewrite Hfold in Hsum. lia.
Qed.

(** C2 at work: ten rows in four pieces, cuts rounded half up. *)
Lemma uniform_slices_cover_every_row_witness :
  SliceEngine.uniform_pieces SliceEngine.RoundHalfUp 10 4
  = Ok [(0, 3); (3, 5); (5, 8); (8, 10)]%Z /\
  exists pieces,
    SliceEngine.uniform_pieces SliceEngine.RoundHalfUp 10 4 = Ok pieces /\
    SliceEngine.sum_heights pieces = 10%Z.
Proof.
  split; [reflexivity|].
  destruct (uniform_slices_cover_every_row SliceEngine.RoundHalfUp 10 4 ltac:(lia))
    as (pieces & Hok & _ & _ & _ & _ & _ & _ & Hsum & _).
  exists pieces. split; assumption.
Defined.

(** ** The size-budget encoder *)

Section EncoderFacts.

Import SizeBudgetEncoder.

Variable bitmap : Type.
Variable encode_at : bitmap -> Z -> list Byte.byte.
Variable downscale : bitmap -> bitmap.
Variable top_quality : Z.
Variable lower_qualities : list Z.
Variable max_rounds : nat.

Local Abbreviation search := (search bitmap encode_at).
Local Abbreviation attempt := (attempt bitmap encode_at downscale top_quality lower_qualities).
Local Abbreviation ladder := (ladder top_quality lower_qualities).

Lemma search_spec (pixels : bitmap) (limit : Z) (qualities : list Z) :
  outcome_ok limit (fst (search pixels limit qualities))
    (snd (search pixels limit qualities)) /\
  (List.length (snd (search pixels limit qualities)) <= List.length qualities)%nat /\
  (qualities <> [] -> snd (search pixels limit qualities) <> []).
Proof.
  induction qualities as [|q rest (IHok & IHlen & _)].
  - cbn. split; [constructor|]. split; [lia|congruence].
  - cbn [SizeBudgetEncoder.search].
    destruct (Z.leb_spec (size (encode_at pixels q)) limit) as [Hfit|Hbig].
    + cbn [fst snd]. split; [|split; [cbn; lia|discriminate]].
      split; [assumption|]. exists []. split; [reflexivity|constructor].
    + destruct (search pixels limit rest) as [found produced].
      cbn [fst snd] in *. split; [|split; [cbn; lia|discriminate]].
      destruct found as [c|]; cbn in *.
      * destruct IHok as (Hfit & earlier & -> & Hall). split; [assumption|].
        exists (encode_at pixels q :: earlier). split; [reflexivity|].
        now constructor.
      * now constructor.
Qed.

Lemma attempt_spec (limit : Z) (rounds : nat) :
  forall pixels,
    let '(found, produced, n) := attempt rounds pixels limit in
    outcome_ok limit found produced /\
    (n <= rounds)%nat /\
    (found = None -> n = rounds) /\
    (1 <= List.length produced <= (n + 1) * List.length ladder)%nat.
Proof.
  assert (Hfirst : forall pixels,
             let '(found, produced) := search pixels limit ladder in
             outcome_ok limit found produced /\
             (1 <= List.length produced <= List.length ladder)%nat).
  { intros pixels.
    destruct (search_spec pixels limit ladder) as (Hok & Hlen & Hne).
    specialize (Hne ltac:(discriminate)).
    destruct (search pixels limit ladder) as [found produced]; cbn [fst snd] in *.
    split; [assumption|]. destruct produced; [congruence|cbn in *; lia]. }
  induction rounds as [|rounds IH]; intros pixels.
  - cbn [SizeBudgetEncoder.attempt]. specialize (Hfirst pixels).
    destruct (search pixels limit ladder) as [[c|] produced];
      destruct Hfirst as [Hok Hlen];
      (split; [assumption|]; split; [lia|]; split; [congruence|lia]).
  - cbn [SizeBudgetEncoder.attempt]. specialize (Hfirst pixels).
    destruct (search pixels limit ladder) as [[c|] produced];
      destruct Hfirst as [Hok Hlen].
    + split; [assumption|]. split; [lia|]. split; [congruence|lia].
    + specialize (IH (downscale pixels)).
      destruct (attempt rounds (downscale pixels) limit) as [[found produced'] n].
      destruct IH as (Hok' & Hn & Hnone & Hlen').
      split; [|split; [lia|split]].
      * destruct found as [c|]; cbn in *.
        -- destruct Hok' as (Hfit & earlier & -> & Hall). split; [assumption|].
           exists (produced ++ earlier)%list. split; [now rewrite app_assoc|].
           apply Forall_app. now split.
        -- apply Forall_app. now split.
      * intros E. now rewrite (Hnone E).
      * rewrite length_app. lia.
Qed.

Lemma smallest_spec (candidates : list (list Byte.byte)) :
  forall best,
    In (smallest best candidates) (best :: candidates) /\
    Forall (fun c => (size (smallest best candidates) <= size c)%Z) (best :: candidates).
Proof.
  induction candidates as [|c rest IH]; intros best.
  - cbn. split; [now left|]. constructor; [lia|constructor].
  - cbn [smallest].
    destruct (IH (if (size c <? size best)%Z then c else best)) as [Hin Hall].
    inversion Hall as [|? ? Hhead Hrest]; subst. split.
    + destruct Hin as [Hin|Hin]; [|now right; right].
      rewrite <- Hin. destruct (size c <? size best)%Z; [right; now left|now left].
    + destruct (Z.ltb_spec (size c) (size best));
        constructor; try constructor; try assumption; lia.
Qed.

End EncoderFacts.

(** The first candidate of any run of attempts is the bitmap as it came, at
    the top quality. *)
Lemma attempt_head (bitmap : Type) (encode_at : bitmap -> Z -> list Byte.byte)
      (downscale : bitmap -> bitmap) (top_quality : Z) (lower_qualities : list Z)
      (limit : Z) (rounds : nat) (pixels : bitmap) :
  exists rest,
    snd (fst (SizeBudgetEncoder.attempt bitmap encode_at downscale top_quality
                lower_qualities rounds pixels limit))
    = encode_at pixels top_quality :: rest.
Proof.
  destruct rounds as [|rounds]; cbn [SizeBudgetEncoder.attempt SizeBudgetEncoder.ladder
                                       SizeBudgetEncoder.search].
  - destruct (SizeBudgetEncoder.size (encode_at pixels top_quality) <=? limit)%Z;
      [cbn; eauto|].
    destruct (SizeBudgetEncoder.search bitmap encode_at pixels limit lower_qualities)
      as [[c|] produced]; cbn; eauto.
  - destruct (SizeBudgetEncoder.size (encode_at pixels top_quality) <=? limit)%Z;
      [cbn; eauto|].
    destruct (SizeBudgetEncoder.search bitmap encode_at pixels limit lower_qualities)
      as [[c|] produced]; [cbn; eauto|].
    destruct (SizeBudgetEncoder.attempt bitmap encode_at downscale top_quality
                lower_qualities rounds (downscale pixels) limit) as [[found produced'] n].
    cbn. eauto.
Qed.

(** C4.  For every bitmap, codec, ladder, round cap and positive limit the
    encoder returns a stream (the function is total) after at least one and
    at most [(max_rounds + 1) * ladder length] encodings and at most
    [max_rounds] downscales; the stream is one of the candidates produced
    and no candidate is smaller; it is flagged as within budget exactly when
    its size is within the limit, and as "budget not met" exactly when every
    candidate produced exceeds the limit, which happens only after all the
    rounds were used. *)
Theorem encoder_returns_smallest_within_cap
        (bitmap : Type) (encode_at : bitmap -> Z -> list Byte.byte)
        (downscale : bitmap -> bitmap) (top_quality : Z) (lower_qualities : list Z)
        (max_rounds : nat) (pixels : bitmap) (limit : Z) :
  (0 < limit)%Z ->
  let r := SizeBudgetEncoder.encode bitmap encode_at downscale top_quality
             lower_qualities max_rounds pixels (Some limit) in
  (1 <= List.length (SizeBudgetEncoder.produced r)
   <= (max_rounds + 1) * S (List.length lower_qualities))%nat /\
  (SizeBudgetEncoder.downscales r <= max_rounds)%nat /\
  In (SizeBudgetEncoder.bytes r) (SizeBudgetEncoder.produced r) /\
  Forall (fun c => (SizeBudgetEncoder.size (SizeBudgetEncoder.bytes r)
                    <= SizeBudgetEncoder.size c)%Z)
    (SizeBudgetEncoder.produced r) /\
  (SizeBudgetEncoder.budget_met r = true
   <-> (SizeBudgetEncoder.size (SizeBudgetEncoder.bytes r) <= limit)%Z) /\
  (SizeBudgetEncoder.budget_met r = false
   <-> Forall (fun c => (limit < SizeBudgetEncoder.size c)%Z)
         (SizeBudgetEncoder.produced r)) /\
  (SizeBudgetEncoder.budget_met r = false ->
   SizeBudgetEncoder.downscales r = max_rounds).
Proof.
  intros Hlimit r. unfold SizeBudgetEncoder.encode, SizeBudgetEncoder.normalize in r.
  destruct (Z.leb_spec limit 0) as [|_]; [lia|].
  pose proof (attempt_spec bitmap encode_at downscale top_quality lower_qualities
                limit max_rounds pixels) as Hspec.
  destruct (attempt_head bitmap encode_at downscale top_quality lower_qualities
              limit max_rounds pixels) as [rest Hhead].
  destruct (SizeBudgetEncoder.attempt bitmap encode_at downscale top_quality
              lower_qualities max_rounds pixels limit) as [[found produced] n].
  cbn [fst snd] in Hhead.
  destruct Hspec as (Hok & Hn & Hnone & Hlen).
  assert (Hcap : (1 <= List.length produced
                  <= (max_rounds + 1) * S (List.length lower_qualities))%nat).
  { unfold SizeBudgetEncoder.ladder in Hlen. cbn [List.length] in Hlen. nia. }
  destruct found as [c|]; subst r;
    cbn [SizeBudgetEncoder.produced SizeBudgetEncoder.downscales
           SizeBudgetEncoder.bytes SizeBudgetEncoder.budget_met];
    cbn [SizeBudgetEncoder.outcome_ok] in Hok.
  - destruct Hok as (Hfit & earlier & Hprod & Hall).
    assert (Hin : In c produced) by (rewrite Hprod; apply in_or_app; right; now left).
    split; [exact Hcap|]. split; [exact Hn|]. split; [exact Hin|].
    split; [|split; [|split]].
    + rewrite Hprod. apply Forall_app. split.
      * eapply Forall_impl; [|exact Hall]. cbn beta. intros c' Hc'. lia.
      * constructor; [lia|constructor].
    + tauto.
    + split; [discriminate|]. intros Hbig. rewrite Forall_forall in Hbig.
      specialize (Hbig c Hin). lia.
    + discriminate.
  - destruct (smallest_spec produced (encode_at pixels top_quality)) as [Hin Hmin].
    assert (Hin' : In (SizeBudgetEncoder.smallest (encode_at pixels top_quality) produced)
                      produced).
    { destruct Hin as [Hin|Hin]; [|exact Hin]. rewrite <- Hin, Hhead. now left. }
    split; [exact Hcap|]. split; [exact Hn|]. split; [exact Hin'|].
    split; [|split; [|split]].
    + now inversion Hmin.
    + split; [discriminate|]. intros Hfit. rewrite Forall_forall in Hok.
      specialize (Hok _ Hin'). lia.
    + tauto.
    + intros _. now apply Hnone.
Qed.

(** C4 at work with a cap of six rounds and a limit of one byte that no
    stream of the toy codec can meet: twenty-one encodings, six downscales,
    the smallest stream returned with the flag down. *)
Lemma encoder_returns_smallest_within_cap_witness :
  let r := Samples.encode 10 (Some 1%Z) in
  SizeBudgetEncoder.budget_met r = false /\
  SizeBudgetEncoder.downscales r = 6%nat /\
  List.length (SizeBudgetEncoder.produced r) = 21%nat /\
  In (SizeBudgetEncoder.bytes r) (SizeBudgetEncoder.produced r) /\
  (1 <= List.length (SizeBudgetEncoder.produced r) <= (6 + 1) * 3)%nat.
Proof.
  cbv zeta.
  destruct (encoder_returns_smallest_within_cap nat Samples.encode_at Samples.downscale
              3%Z [2; 1]%Z 6 10%nat 1%Z ltac:(lia))
    as (Hcap & _ & Hin & _).
  split; [reflexivity|]. split; [reflexivity|]. split; [reflexivity|].
  split; [exact Hin|exact Hcap].
Defined.

(* ================================================================= *)
(** * Further properties of the window *)
(* ================================================================= *)

(** ** Dropping files on the slice tab *)

Lemma contains_iff (l : list string) (x : string) :
  ImageMatrixApp.contains l x = true <-> In x l.
Proof.
  unfold ImageMatrixApp.contains. rewrite existsb_exists. split.
  - intros (y & Hy & Heq). apply String.eqb_eq in Heq. now subst.
  - intros H. exists x. split; [exact H|apply String.eqb_refl].
Qed.

Lemma contains_false_iff (l : list string) (x : string) :
  ImageMatrixApp.contains l x = false <-> ~ In x l.
Proof.
  rewrite <- contains_iff. destruct (ImageMatrixApp.contains l x); split; congruence.
Qed.

(** What the loop appends: new names only, each once, in the order in which
    they first occur among the dropped files. *)
Lemma append_new_added (new_images : list string) :
  forall slice_images,
  exists added,
    ImageMatrixApp.append_new slice_images new_images = (slice_images ++ added)%list /\
    NoDup added /\
    (forall x, In x added <-> In x new_images /\ ~ In x slice_images).
Proof.
  induction new_images as [|img rest IH]; intros slice_images.
  - exists []. cbn. rewrite app_nil_r. repeat split; try constructor; tauto.
  - cbn [ImageMatrixApp.append_new].
    destruct (ImageMatrixApp.contains slice_images img) eqn:Hc.
    + apply contains_iff in Hc.
      destruct (IH slice_images) as (added & Heq & Hnd & Hin).
      exists added. split; [exact Heq|]. split; [exact Hnd|].
      intros x. rewrite Hin. cbn. split; [tauto|].
      intros [[<-|Hx] Hnot]; tauto.
    + apply contains_false_iff in Hc.
      destruct (IH (slice_images ++ [img])%list) as (added & Heq & Hnd & Hin).
      exists (img :: added). split; [now rewrite Heq, <- app_assoc|].
      split.
      * constructor; [|exact Hnd]. intros Hx. apply Hin in Hx.
        destruct Hx as [_ Hx]. apply Hx. apply in_or_app. right. now left.
      * intros x. cbn. rewrite Hin, in_app_iff. cbn.
        destruct (string_dec img x) as [<-|Hne]; [tauto|]. tauto.
Qed.

(** X1.  A drop on the slice tab keeps the rows already there, in place,
    and appends the dropped names that are not there yet, each once: the
    list afterwards holds exactly the old and the dropped names, and has no
    duplicate if it had none. *)
Theorem append_new_extends (slice_images new_images : list string) :
  (exists added,
      ImageMatrixApp.append_new slice_images new_images = (slice_images ++ added)%list) /\
  (forall x, In x (ImageMatrixApp.append_new slice_images new_images)
             <-> In x slice_images \/ In x new_images) /\
  (NoDup slice_images -> NoDup (ImageMatrixApp.append_new slice_images new_images)).
Proof.
  destruct (append_new_added new_images slice_images) as (added & Heq & Hnd & Hin).
  split; [now exists added|]. split.
  - intros x. rewrite Heq, in_app_iff, Hin.
    destruct (in_dec string_dec x slice_images); tauto.
  - intros Hold. rewrite Heq. apply NoDup_app; auto.
    intros x Hx Hx'. apply Hin in Hx'. tauto.
Qed.

(** X1 at work. *)
Lemma append_new_extends_witness :
  NoDup (ImageMatrixApp.append_new ["a.png"; "b.png"] ["b.png"; "c.png"; "c.png"]).
Proof.
  apply (proj2 (proj2 (append_new_extends ["a.png"; "b.png"] ["b.png"; "c.png"; "c.png"]))).
  repeat constructor; cbn; intuition discriminate.
Defined.

Lemma append_new_known (new_images : list string) :
  forall slice_images,
    (forall x, In x new_images -> In x slice_images) ->
    ImageMatrixApp.append_new slice_images new_images = slice_images.
Proof.
  induction new_images as [|img rest IH]; intros slice_images Hall; [reflexivity|].
  cbn [ImageMatrixApp.append_new].
  replace (ImageMatrixApp.contains slice_images img) with true
    by (symmetry; apply contains_iff, Hall; now left).
  apply IH. intros x Hx. apply Hall. now right.
Qed.

(** X2.  Dropping the same files a second time on the slice tab (any tab
    but the first) is the same as dropping them once: the second drop adds
    nothing to the list and changes nothing else. *)
Theorem drop_twice_on_slice_tab
        (sort_files list_of_set : list string -> list string)
        (files : list string) (self : ImageMatrixApp.t) :
  ImageMatrixApp.tabs_currentIndex self <> 0%Z ->
  let once := ImageMatrixApp.dropEvent sort_files list_of_set files self in
  ImageMatrixApp.dropEvent sort_files list_of_set files (fst once) = once.
Proof.
  intros Htab once. unfold once, ImageMatrixApp.dropEvent.
  destruct (filter ImageMatrixApp.is_image files) as [|f fs] eqn:Hvalid;
    [reflexivity|].
  destruct (Z.eqb_spec (ImageMatrixApp.tabs_currentIndex self) 0) as [E|_];
    [contradiction|].
  cbn [fst ImageMatrixApp.tabs_currentIndex ImageMatrixApp.slice_images
         ImageMatrixApp.merge_images ImageMatrixApp.m_radio
         ImageMatrixApp.m_custom_input ImageMatrixApp.m_limit_slider
         ImageMatrixApp.m_split_slider ImageMatrixApp.s_radio
         ImageMatrixApp.s_custom_input ImageMatrixApp.s_limit_slider
         ImageMatrixApp.s_count_slider ImageMatrixApp.s_smart_check].
  destruct (Z.eqb_spec (ImageMatrixApp.tabs_currentIndex self) 0) as [E|_];
    [contradiction|].
  rewrite (append_new_known (f :: fs)); [reflexivity|].
  intros x Hx.
  destruct (append_new_added (f :: fs) (ImageMatrixApp.slice_images self))
    as (added & -> & _ & Hin).
  apply in_or_app. rewrite Hin.
  destruct (in_dec string_dec x (ImageMatrixApp.slice_images self)); tauto.
Qed.

(** X2 at work on the sample slice window. *)
Lemma drop_twice_on_slice_tab_witness :
  let once := ImageMatrixApp.dropEvent NaturalSequencer.order Samples.list_of_set
                ["d/b.png"; "d/long.png"] Samples.slice_window in
  ImageMatrixApp.dropEvent NaturalSequencer.order Samples.list_of_set
    ["d/b.png"; "d/long.png"] (fst once) = once.
Proof.
  apply (drop_twice_on_slice_tab NaturalSequencer.order Samples.list_of_set).
  vm_compute. discriminate.
Defined.

(** ** Which dropped files are kept *)

Lemma endswith_unfold (s suffix : string) :
  ImageMatrixApp.endswith s suffix =
  if String.eqb s suffix then true
  else match s with
       | EmptyString => false
       | String _ rest => ImageMatrixApp.endswith rest suffix
       end.
Proof. destruct s; reflexivity. Qed.

(** [endswith] is true on the texts that end with the suffix, and on no
    other. *)
Lemma endswith_iff (s suffix : string) :
  ImageMatrixApp.endswith s suffix = true <-> exists front, s = front ++ suffix.
Proof.
  split.
  - induction s as [|c s IH]; rewrite endswith_unfold.
    + destruct (String.eqb_spec "" suffix) as [<-|_]; [|discriminate].
      intros _. now exists "".
    + destruct (String.eqb_spec (String c s) suffix) as [<-|_].
      * intros _. now exists "".
      * intros H. destruct (IH H) as [front ->]. now exists (String c front).
  - intros [front ->]. induction front as [|c front IH]; rewrite endswith_unfold.
    + cbn. now rewrite String.eqb_refl.
    + cbn [append]. destruct (String.eqb _ _); [reflexivity|exact IH].
Qed.

Lemma lower_append (s t : string) :
  ImageMatrixApp.lower (s ++ t) = ImageMatrixApp.lower s ++ ImageMatrixApp.lower t.
Proof. induction s as [|c s IH]; cbn; [reflexivity|now rewrite IH]. Qed.

(** X3.  A dropped file is kept exactly when its name, letters lowered,
    ends in .jpg, .jpeg, .png or .psd; so the case of the extension does
    not matter, whatever stands before it. *)
Theorem is_image_iff (f : string) :
  (ImageMatrixApp.is_image f = true <->
   exists front ext,
     In ext ImageMatrixApp.valid_extensions /\
     ImageMatrixApp.lower f = front ++ ext) /\
  (forall name ext,
      f = name ++ ext ->
      In (ImageMatrixApp.lower ext) ImageMatrixApp.valid_extensions ->
      ImageMatrixApp.is_image f = true).
Proof.
  assert (Hiff : ImageMatrixApp.is_image f = true <->
                 exists front ext,
                   In ext ImageMatrixApp.valid_extensions /\
                   ImageMatrixApp.lower f = front ++ ext).
  { unfold ImageMatrixApp.is_image. rewrite existsb_exists. split.
    - intros (ext & Hext & Hends). apply endswith_iff in Hends.
      destruct Hends as [front Hfront]. now exists front, ext.
    - intros (front & ext & Hext & Hfront). exists ext. split; [exact Hext|].
      apply endswith_iff. now exists front. }
  split; [exact Hiff|].
  intros name ext -> Hext. apply Hiff.
  exists (ImageMatrixApp.lower name), (ImageMatrixApp.lower ext).
  split; [exact Hext|apply lower_append].
Qed.

(** X3 at work: upper-case extensions are kept. *)
Lemma is_image_iff_witness : ImageMatrixApp.is_image "C:/shots/Page 01.JPEG" = true.
Proof.
  apply (proj2 (is_image_iff "C:/shots/Page 01.JPEG") "C:/shots/Page 01" ".JPEG").
  - reflexivity.
  - vm_compute. tauto.
Defined.

(** ** The two lists over a whole session *)

Section Lists.

Variable sort_files : list string -> list string.
Variable list_of_set : list string -> list string.

Lemma filter_is_image (files : list string) :
  Forall (fun f => ImageMatrixApp.is_image f = true) (filter ImageMatrixApp.is_image files).
Proof. apply Forall_forall. intros x Hx. now apply filter_In in Hx. Qed.

(** The slice list stays free of duplicates and of unsupported files. *)
Lemma handle_slice_images (ev : ImageMatrixApp.event) (self : ImageMatrixApp.t) :
  images_ok (ImageMatrixApp.slice_images self) ->
  images_ok (ImageMatrixApp.slice_images
               (fst (ImageMatrixApp.handle sort_files list_of_set ev self))).
Proof.
  intros [Hnd Hall].
  destruct ev; cbn [ImageMatrixApp.handle fst ImageMatrixApp.slice_images];
    try (split; assumption).
  - unfold ImageMatrixApp.dropEvent.
    destruct (filter ImageMatrixApp.is_image files) as [|f fs] eqn:Hvalid;
      [now split|].
    destruct (ImageMatrixApp.tabs_currentIndex self =? 0)%Z;
      cbn [fst ImageMatrixApp.slice_images]; [now split|].
    destruct (append_new_added (f :: fs) (ImageMatrixApp.slice_images self))
      as (added & -> & Hadded & Hin).
    split.
    + apply NoDup_app; auto. intros x Hx Hx'. apply Hin in Hx'. tauto.
    + apply Forall_app. split; [exact Hall|].
      apply Forall_forall. intros x Hx. apply Hin in Hx. destruct Hx as [Hx _].
      rewrite <- Hvalid in Hx. now apply filter_In in Hx.
  - split; constructor.
Qed.

Hypothesis sort_rearranges : rearranges sort_files.
Hypothesis set_lists_each_once : lists_each_once list_of_set.

(** What a drop puts in the merge list: the images already there and the
    supported files among the dropped ones. *)
Lemma merge_after_drop (files : list string) (self : ImageMatrixApp.t) (x : string) :
  In x (sort_files (list_of_set (ImageMatrixApp.merge_images self
                                 ++ filter ImageMatrixApp.is_image files)%list))
  <-> In x (ImageMatrixApp.merge_images self)
      \/ (In x files /\ ImageMatrixApp.is_image x = true).
Proof.
  split.
  - intros Hx. apply (Permutation_in _ (sort_rearranges _)) in Hx.
    apply (proj1 (proj2 (set_lists_each_once _) x)) in Hx.
    rewrite in_app_iff, filter_In in Hx. exact Hx.
  - intros Hx. apply (Permutation_in _ (Permutation_sym (sort_rearranges _))).
    apply (proj2 (proj2 (set_lists_each_once _) x)).
    rewrite in_app_iff, filter_In. exact Hx.
Qed.

(** The merge list stays free of duplicates and of unsupported files. *)
Lemma handle_merge_images (ev : ImageMatrixApp.event) (self : ImageMatrixApp.t) :
  images_ok (ImageMatrixApp.merge_images self) ->
  images_ok (ImageMatrixApp.merge_images
               (fst (ImageMatrixApp.handle sort_files list_of_set ev self))).
Proof.
  intros [Hnd Hall].
  destruct ev; cbn [ImageMatrixApp.handle fst ImageMatrixApp.merge_images];
    try (split; assumption).
  - unfold ImageMatrixApp.dropEvent.
    destruct (filter ImageMatrixApp.is_image files) as [|f fs] eqn:Hvalid;
      [now split|].
    destruct (ImageMatrixApp.tabs_currentIndex self =? 0)%Z;
      cbn [fst ImageMatrixApp.merge_images]; [|now split].
    split.
    + apply (Permutation_NoDup (Permutation_sym (sort_rearranges _))).
      apply set_lists_each_once.
    + apply Forall_forall. intros x Hx. rewrite <- Hvalid in Hx.
      apply merge_after_drop in Hx. rewrite Forall_forall in Hall.
      destruct Hx as [Hx|[_ Hx]]; auto.
  - split; constructor.
Qed.

End Lists.

Lemma run_snoc (sort_files list_of_set : list string -> list string)
      (evs : list ImageMatrixApp.event) (ev : ImageMatrixApp.event) :
  forall self,
    fst (ImageMatrixApp.run sort_files list_of_set (evs ++ [ev]) self)
    = fst (ImageMatrixApp.handle sort_files list_of_set ev
             (fst (ImageMatrixApp.run sort_files list_of_set evs self))).
Proof.
  induction evs as [|e evs IH]; intros self.
  - cbn [app]. rewrite run_cons. reflexivity.
  - cbn [app]. rewrite !run_cons. cbn [fst]. apply IH.
Qed.

(** A property of the window that every handler keeps holds after every
    history of events. *)
Lemma run_keeps (sort_files list_of_set : list string -> list string)
      (P : ImageMatrixApp.t -> Prop) :
  (forall ev self, P self ->
                   P (fst (ImageMatrixApp.handle sort_files list_of_set ev self))) ->
  forall evs self,
    P self -> P (fst (ImageMatrixApp.run sort_files list_of_set evs self)).
Proof.
  intros Hstep evs. induction evs as [|ev evs IH]; intros self HP; [exact HP|].
  rewrite run_cons. cbn [fst]. apply IH. now apply Hstep.
Qed.

(** X4.  Whatever the user does, the slice list never holds a file twice
    nor a file with an unsupported extension; the same goes for the merge
    list as long as [sort_files] only rearranges what it is given and the
    set built from the paths lists each of them once. *)
Theorem lists_hold_supported_files_once
        (sort_files list_of_set : list string -> list string)
        (evs : list ImageMatrixApp.event) :
  let window := fst (ImageMatrixApp.run sort_files list_of_set evs ImageMatrixApp.init) in
  images_ok (ImageMatrixApp.slice_images window) /\
  (rearranges sort_files -> lists_each_once list_of_set ->
   images_ok (ImageMatrixApp.merge_images window)).
Proof.
  cbv zeta. split.
  - apply (run_keeps sort_files list_of_set
             (fun self => images_ok (ImageMatrixApp.slice_images self))).
    + intros ev self. apply handle_slice_images.
    + split; constructor.
  - intros Hsort Hset.
    apply (run_keeps sort_files list_of_set
             (fun self => images_ok (ImageMatrixApp.merge_images self))).
    + intros ev self. now apply handle_merge_images.
    + split; constructor.
Qed.

Lemma order_rearranges : rearranges NaturalSequencer.order.
Proof. intros l. apply order_perm. Qed.

Lemma nodup_lists_each_once : lists_each_once Samples.list_of_set.
Proof.
  intros xs. unfold Samples.list_of_set. split; [apply NoDup_nodup|].
  intros x. apply nodup_In.
Qed.

(** X4 at work: the same image dropped twice on the merge tab, with a text
    file. *)
Lemma lists_hold_supported_files_once_witness :
  images_ok
    (ImageMatrixApp.merge_images
       (fst (ImageMatrixApp.run NaturalSequencer.order Samples.list_of_set
               [ImageMatrixApp.Drop ["d/a.png"; "notes.txt"; "d/a.png"];
                ImageMatrixApp.Drop ["d/a.png"; "d/b.PNG"]]
               ImageMatrixApp.init))).
Proof.
  apply (lists_hold_supported_files_once NaturalSequencer.order Samples.list_of_set).
  - exact order_rearranges.
  - exact nodup_lists_each_once.
Defined.

(** X5.  A drop adds to the list of the tab in front exactly the supported
    files among the dropped ones, loses none of the images already there,
    and leaves the other tab's list as it was.  (For the merge tab, under
    the same two assumptions as above.) *)
Theorem drop_adds_supported_files
        (sort_files list_of_set : list string -> list string)
        (files : list string) (self : ImageMatrixApp.t) :
  let after := fst (ImageMatrixApp.dropEvent sort_files list_of_set files self) in
  (ImageMatrixApp.tabs_currentIndex self <> 0%Z ->
   ImageMatrixApp.merge_images after = ImageMatrixApp.merge_images self /\
   forall x, In x (ImageMatrixApp.slice_images after)
             <-> In x (ImageMatrixApp.slice_images self)
                 \/ (In x files /\ ImageMatrixApp.is_image x = true)) /\
  (ImageMatrixApp.tabs_currentIndex self = 0%Z ->
   rearranges sort_files -> lists_each_once list_of_set ->
   ImageMatrixApp.slice_images after = ImageMatrixApp.slice_images self /\
   forall x, In x (ImageMatrixApp.merge_images self) \/
             (In x files /\ ImageMatrixApp.is_image x = true)
             -> In x (ImageMatrixApp.merge_images after)) /\
  (ImageMatrixApp.tabs_currentIndex self = 0%Z ->
   rearranges sort_files -> lists_each_once list_of_set ->
   filter ImageMatrixApp.is_image files <> [] ->
   forall x, In x (ImageMatrixApp.merge_images after)
             -> In x (ImageMatrixApp.merge_images self) \/
                (In x files /\ ImageMatrixApp.is_image x = true)).
Proof.
  cbv zeta. unfold ImageMatrixApp.dropEvent. split; [|split].
  - intros Htab.
    destruct (filter ImageMatrixApp.is_image files) as [|f fs] eqn:Hvalid.
    + cbn [fst]. split; [reflexivity|]. intros x. split; [tauto|].
      intros [Hx|Hx]; [exact Hx|]. apply filter_In in Hx. rewrite Hvalid in Hx.
      destruct Hx.
    + destruct (Z.eqb_spec (ImageMatrixApp.tabs_currentIndex self) 0) as [E|_];
        [contradiction|].
      cbn [fst ImageMatrixApp.merge_images ImageMatrixApp.slice_images].
      split; [reflexivity|]. intros x.
      destruct (append_new_added (f :: fs) (ImageMatrixApp.slice_images self))
        as (added & -> & _ & Hin).
      rewrite in_app_iff, Hin, <- Hvalid, filter_In.
      destruct (in_dec string_dec x (ImageMatrixApp.slice_images self)); tauto.
  - intros Htab Hsort Hset.
    destruct (filter ImageMatrixApp.is_image files) as [|f fs] eqn:Hvalid.
    + cbn [fst]. split; [reflexivity|].
      intros x [Hx|Hx]; [exact Hx|]. apply filter_In in Hx. rewrite Hvalid in Hx.
      destruct Hx.
    + rewrite Htab. cbn [Z.eqb fst ImageMatrixApp.merge_images
                           ImageMatrixApp.slice_images].
      split; [reflexivity|]. intros x Hx. rewrite <- Hvalid.
      now apply merge_after_drop.
  - intros Htab Hsort Hset Hne.
    destruct (filter ImageMatrixApp.is_image files) as [|f fs] eqn:Hvalid;
      [congruence|].
    rewrite Htab. cbn [Z.eqb fst ImageMatrixApp.merge_images].
    intros x Hx. rewrite <- Hvalid in Hx.
    now apply (merge_after_drop sort_files list_of_set Hsort Hset) in Hx.
Qed.

(** X5 at work: a drop on the sample merge window keeps both of its images
    and takes the new one. *)
Lemma drop_adds_supported_files_witness :
  In "d/img1.png"
     (ImageMatrixApp.merge_images
        (fst (ImageMatrixApp.dropEvent NaturalSequencer.order Samples.list_of_set
                ["e/img3.jpg"; "e/readme.md"] Samples.merge_window))).
Proof.
  destruct (drop_adds_supported_files NaturalSequencer.order Samples.list_of_set
              ["e/img3.jpg"; "e/readme.md"] Samples.merge_window)
    as (_ & Hmerge & _).
  apply Hmerge.
  - reflexivity.
  - exact order_rearranges.
  - exact nodup_lists_each_once.
  - left. vm_compute. tauto.
Defined.

(** ** The jobs a session starts *)

Lemma handle_count (sort_files list_of_set : list string -> list string)
      (ev : ImageMatrixApp.event) (self : ImageMatrixApp.t) :
  count_slider_ok (ImageMatrixApp.s_count_slider self) ->
  count_slider_ok (ImageMatrixApp.s_count_slider
                     (fst (ImageMatrixApp.handle sort_files list_of_set ev self))).
Proof.
  intros Hok.
  destruct ev; cbn [ImageMatrixApp.handle fst ImageMatrixApp.s_count_slider];
    try exact Hok.
  - unfold ImageMatrixApp.dropEvent.
    destruct (filter ImageMatrixApp.is_image files); [exact Hok|].
    destruct (ImageMatrixApp.tabs_currentIndex self =? 0)%Z; exact Hok.
  - destruct Hok as (Hmin & Hmax & Hval).
    unfold count_slider_ok, QSlider.setValue, QSlider.bound. cbn.
    rewrite Hmin, Hmax. lia.
Qed.

(** Effects of a history: those of its events, one after the other. *)
Lemma run_effects (sort_files list_of_set : list string -> list string)
      (P : ImageMatrixApp.t -> Prop) (Q : ImageMatrixApp.effect -> Prop) :
  (forall ev self, P self ->
                   P (fst (ImageMatrixApp.handle sort_files list_of_set ev self))) ->
  (forall ev self e,
      P self -> In e (snd (ImageMatrixApp.handle sort_files list_of_set ev self)) -> Q e) ->
  forall evs self e,
    P self -> In e (snd (ImageMatrixApp.run sort_files list_of_set evs self)) -> Q e.
Proof.
  intros Hstep Hout evs. induction evs as [|ev evs IH]; intros self e HP.
  - intros [].
  - rewrite run_cons. cbn [snd]. intros Hin. apply in_app_or in Hin.
    destruct Hin as [Hin|Hin].
    + now apply (Hout ev self).
    + apply (IH (fst (ImageMatrixApp.handle sort_files list_of_set ev self))); auto.
Qed.

(** Only the two start buttons start workers. *)
Lemma handle_starts (sort_files list_of_set : list string -> list string)
      (ev : ImageMatrixApp.event) (self : ImageMatrixApp.t) (e : ImageMatrixApp.effect) :
  In e (snd (ImageMatrixApp.handle sort_files list_of_set ev self)) ->
  (exists title body, e = ImageMatrixApp.Warning title body) \/
  (ev = ImageMatrixApp.ClickStartStitching /\ In e (ImageMatrixApp.start_stitching self)) \/
  (ev = ImageMatrixApp.ClickStartSlicing /\ In e (ImageMatrixApp.start_slicing self)).
Proof.
  destruct ev; cbn [ImageMatrixApp.handle snd]; try (intros []); auto.
  unfold ImageMatrixApp.dropEvent.
  destruct (filter ImageMatrixApp.is_image files); cbn [snd].
  - intros [<-|[]]. left. eauto.
  - destruct (ImageMatrixApp.tabs_currentIndex self =? 0)%Z; intros [].
Qed.

Lemma start_stitching_no_slicer (self : ImageMatrixApp.t) (thread : SlicerThread.t) :
  ~ In (ImageMatrixApp.StartSlicer thread) (ImageMatrixApp.start_stitching self).
Proof.
  unfold ImageMatrixApp.start_stitching.
  destruct (ImageMatrixApp.merge_images self); [intros [H|[]]; discriminate|].
  destruct (ImageMatrixApp.merge_target_width self) as [box|w] eqn:Hw.
  - apply merge_target_width_box in Hw. subst box. intros [H|[]]. discriminate.
  - intros [H|[]]. discriminate.
Qed.

Lemma start_slicing_no_stitcher (self : ImageMatrixApp.t) (thread : StitcherThread.t) :
  ~ In (ImageMatrixApp.StartStitcher thread) (ImageMatrixApp.start_slicing self).
Proof.
  unfold ImageMatrixApp.start_slicing.
  destruct (ImageMatrixApp.slice_images self); [intros [H|[]]; discriminate|].
  destruct (ImageMatrixApp.slice_target_width self) as [box|w] eqn:Hw.
  - apply slice_target_width_box in Hw. subst box. intros [H|[]]. discriminate.
  - intros [H|[]]. discriminate.
Qed.

(** X6.  Every slice job a session starts was given a non-empty list of
    supported files without duplicates, a piece count from 1 to 50 and a
    limit of 0, 200, 400, 600, 800 or 1000 KB; every stitch job a non-empty
    list and a limit from the same six. *)
Theorem started_jobs_are_well_formed
        (sort_files list_of_set : list string -> list string)
        (evs : list ImageMatrixApp.event) :
  let started := snd (ImageMatrixApp.run sort_files list_of_set evs ImageMatrixApp.init) in
  (forall thread,
      In (ImageMatrixApp.StartSlicer thread) started ->
      SlicerThread.image_paths thread <> [] /\
      images_ok (SlicerThread.image_paths thread) /\
      (1 <= SlicerThread.count thread <= 50)%Z /\
      exists v, (0 <= v <= 5)%Z /\ SlicerThread.max_kb thread = (200 * v)%Z) /\
  (forall thread,
      In (ImageMatrixApp.StartStitcher thread) started ->
      StitcherThread.image_paths thread <> [] /\
      exists v, (0 <= v <= 5)%Z /\ StitcherThread.max_kb thread = (200 * v)%Z).
Proof.
  cbv zeta.
  set (P := fun self =>
              images_ok (ImageMatrixApp.slice_images self) /\
              count_slider_ok (ImageMatrixApp.s_count_slider self) /\
              ImageMatrixApp.limit_slider_ok (ImageMatrixApp.m_limit_slider self) /\
              ImageMatrixApp.limit_slider_ok (ImageMatrixApp.s_limit_slider self)).
  assert (Hinit : P ImageMatrixApp.init).
  { split; [split; constructor|]. split; [|exact init_limit_sliders_ok].
    repeat split; (reflexivity || (cbn; lia)). }
  assert (Hstep : forall ev self,
             P self -> P (fst (ImageMatrixApp.handle sort_files list_of_set ev self))).
  { intros ev self (Himgs & Hcount & Hlimits). split; [|split].
    - now apply handle_slice_images.
    - now apply handle_count.
    - now apply handle_limits. }
  split; intros thread Hin.
  - apply (run_effects sort_files list_of_set P
             (fun e => match e with
                       | ImageMatrixApp.StartSlicer th =>
                           SlicerThread.image_paths th <> [] /\
                           images_ok (SlicerThread.image_paths th) /\
                           (1 <= SlicerThread.count th <= 50)%Z /\
                           exists v, (0 <= v <= 5)%Z /\
                                     SlicerThread.max_kb th = (200 * v)%Z
                       | _ => True
                       end) Hstep) in Hin; [exact Hin| |exact Hinit].
    clear. intros ev self e (Himgs & Hcount & _ & Hlimit) He.
    destruct e as [title body|th|th]; try exact I.
    apply handle_starts in He.
    destruct He as [(t & b & He)|[[_ He]|[_ He]]]; [discriminate| |].
    + now apply start_stitching_no_slicer in He.
    + assert (Hne : ImageMatrixApp.slice_images self <> []).
      { unfold ImageMatrixApp.start_slicing in He.
        destruct (ImageMatrixApp.slice_images self); [|discriminate].
        destruct He as [He|[]]. discriminate. }
      destruct (start_slicing_thread self th He) as (w & _ & ->).
      cbn [SlicerThread.image_paths SlicerThread.count SlicerThread.max_kb].
      destruct Hcount as (_ & _ & Hcount). destruct Hlimit as (_ & _ & Hlimit).
      repeat split; try assumption; try lia.
      * apply Himgs.
      * apply Himgs.
      * exists (QSlider.value (ImageMatrixApp.s_limit_slider self)). split; lia.
  - apply (run_effects sort_files list_of_set P
             (fun e => match e with
                       | ImageMatrixApp.StartStitcher th =>
                           StitcherThread.image_paths th <> [] /\
                           exists v, (0 <= v <= 5)%Z /\
                                     StitcherThread.max_kb th = (200 * v)%Z
                       | _ => True
                       end) Hstep) in Hin; [exact Hin| |exact Hinit].
    clear. intros ev self e (_ & _ & Hlimit & _) He.
    destruct e as [title body|th|th]; try exact I.
    apply handle_starts in He.
    destruct He as [(t & b & He)|[[_ He]|[_ He]]]; [discriminate| |].
    + assert (Hne : ImageMatrixApp.merge_images self <> []).
      { unfold ImageMatrixApp.start_stitching in He.
        destruct (ImageMatrixApp.merge_images self); [|discriminate].
        destruct He as [He|[]]. discriminate. }
      destruct (start_stitching_thread self th He) as (w & _ & ->).
      cbn [StitcherThread.image_paths StitcherThread.max_kb].
      destruct Hlimit as (_ & _ & Hlimit). split; [exact Hne|].
      exists (QSlider.value (ImageMatrixApp.m_limit_slider self)). split; lia.
    + now apply start_slicing_no_stitcher in He.
Qed.

(** X6 at work: the sample slice window, count pushed past its end, then
    the start button. *)
Lemma started_jobs_are_well_formed_witness :
  let clicks := [ImageMatrixApp.SelectTab 1;
                 ImageMatrixApp.Drop ["d/long.png"];
                 ImageMatrixApp.MoveCount 80;
                 ImageMatrixApp.ClickStartSlicing] in
  let thread := SlicerThread.Make ["d/long.png"] ImageMatrixApp.desktop_path 50 true
                  None 200 in
  In (ImageMatrixApp.StartSlicer thread)
     (snd (ImageMatrixApp.run NaturalSequencer.order Samples.list_of_set clicks
             ImageMatrixApp.init)) /\
  (1 <= SlicerThread.count thread <= 50)%Z.
Proof.
  intros clicks thread.
  assert (Hin : In (ImageMatrixApp.StartSlicer thread)
                   (snd (ImageMatrixApp.run NaturalSequencer.order Samples.list_of_set
                           clicks ImageMatrixApp.init)))
    by (vm_compute; left; reflexivity).
  split; [exact Hin|].
  destruct (started_jobs_are_well_formed NaturalSequencer.order
              Samples.list_of_set clicks) as (Hslice & _).
  exact (proj1 (proj2 (proj2 (Hslice thread Hin)))).
Defined.

(** ** What the widgets show *)

(** A label that showed its slider before a call shows it after the call:
    the slot rewrote it if the value changed. *)
Lemma valueChanged_keeps (slot : Z -> string) (initial label : string)
      (before after : QSlider.t) :
  label = slot (QSlider.value before)
  \/ (label = initial /\ QSlider.value before = 1%Z) ->
  MainWindow.valueChanged before after slot label = slot (QSlider.value after)
  \/ (MainWindow.valueChanged before after slot label = initial /\
      QSlider.value after = 1%Z).
Proof.
  unfold MainWindow.valueChanged.
  destruct (Z.eqb_spec (QSlider.value before) (QSlider.value after)) as [E|_];
    [rewrite <- E; tauto|now left].
Qed.

Lemma valueChanged_exact (slot : Z -> string) (label : string)
      (before after : QSlider.t) :
  label = slot (QSlider.value before) ->
  MainWindow.valueChanged before after slot label = slot (QSlider.value after).
Proof.
  unfold MainWindow.valueChanged.
  destruct (Z.eqb_spec (QSlider.value before) (QSlider.value after)) as [E|_];
    [now rewrite <- E|reflexivity].
Qed.

Ltac widgets_simpl :=
  unfold MainWindow.with_merge, MainWindow.with_slice_list,
    MainWindow.with_m_limit_label, MainWindow.with_s_limit_label,
    MainWindow.with_s_count_label, MainWindow.with_m_start_btn,
    MainWindow.with_s_start_btn;
  cbn [fst snd
       MainWindow.merge_list MainWindow.slice_list MainWindow.m_limit_label
       MainWindow.m_split_label MainWindow.s_limit_label MainWindow.s_count_label
       MainWindow.m_start_btn MainWindow.s_start_btn
       ImageMatrixApp.merge_images ImageMatrixApp.slice_images
       ImageMatrixApp.m_limit_slider ImageMatrixApp.m_split_slider
       ImageMatrixApp.s_limit_slider ImageMatrixApp.s_count_slider].

Section Widgets.

Variable sort_files : list string -> list string.
Variable list_of_set : list string -> list string.

Lemma refresh_labels (ev : ImageMatrixApp.event) (self : ImageMatrixApp.t)
      (w : MainWindow.widgets) :
  MainWindow.labels_ok self w ->
  MainWindow.labels_ok (fst (ImageMatrixApp.handle sort_files list_of_set ev self))
    (MainWindow.refresh sort_files list_of_set ev self w).
Proof.
  intros (Hml & Hsl & Hsp & Hc). unfold MainWindow.labels_ok.
  destruct ev; cbn [MainWindow.refresh ImageMatrixApp.handle]; widgets_simpl;
    try (repeat split; assumption).
  - (* Drop *)
    unfold ImageMatrixApp.dropEvent.
    destruct (filter ImageMatrixApp.is_image files); widgets_simpl;
      [repeat split; assumption|].
    destruct (ImageMatrixApp.tabs_currentIndex self =? 0)%Z; widgets_simpl;
      [|repeat split; assumption].
    split; [assumption|]. split; [assumption|]. split; [|assumption].
    now apply valueChanged_keeps.
  - (* MoveMergeLimit *)
    split; [now apply valueChanged_keeps|]. repeat split; assumption.
  - (* MoveSplit *)
    split; [assumption|]. split; [assumption|]. split; [|assumption].
    now apply valueChanged_keeps.
  - (* MoveSliceLimit *)
    split; [assumption|]. split; [now apply valueChanged_keeps|].
    split; assumption.
  - (* MoveCount *)
    split; [assumption|]. split; [assumption|]. split; [assumption|].
    now apply valueChanged_exact.
  - (* ClickClearMerge *)
    unfold ImageMatrixApp.clear_merge_list. widgets_simpl.
    split; [assumption|]. split; [assumption|]. split; [|assumption].
    apply valueChanged_keeps. now apply valueChanged_keeps.
  - (* ClickStartStitching *)
    destruct (MainWindow.starts_worker _); widgets_simpl; repeat split; assumption.
  - (* ClickStartSlicing *)
    destruct (MainWindow.starts_worker _); widgets_simpl; repeat split; assumption.
Qed.

Lemma refresh_lists (ev : ImageMatrixApp.event) (self : ImageMatrixApp.t)
      (w : MainWindow.widgets) :
  MainWindow.lists_ok self w ->
  MainWindow.lists_ok (fst (ImageMatrixApp.handle sort_files list_of_set ev self))
    (MainWindow.refresh sort_files list_of_set ev self w).
Proof.
  intros (Hm & Hs). unfold MainWindow.lists_ok.
  destruct ev; cbn [MainWindow.refresh ImageMatrixApp.handle]; widgets_simpl;
    try (split; assumption).
  - unfold ImageMatrixApp.dropEvent.
    destruct (filter ImageMatrixApp.is_image files); widgets_simpl;
      [split; assumption|].
    destruct (ImageMatrixApp.tabs_currentIndex self =? 0)%Z; widgets_simpl;
      split; (assumption || reflexivity).
  - unfold ImageMatrixApp.clear_merge_list. widgets_simpl. now split.
  - unfold ImageMatrixApp.clear_slice_list. widgets_simpl. now split.
  - destruct (MainWindow.starts_worker _); widgets_simpl; split; assumption.
  - destruct (MainWindow.starts_worker _); widgets_simpl; split; assumption.
Qed.

Lemma react_keeps (h : MainWindow.happening)
      (state : ImageMatrixApp.t * MainWindow.widgets) :
  MainWindow.labels_ok (fst state) (snd state) /\
  MainWindow.lists_ok (fst state) (snd state) ->
  MainWindow.labels_ok (fst (MainWindow.react sort_files list_of_set h state))
    (snd (MainWindow.react sort_files list_of_set h state)) /\
  MainWindow.lists_ok (fst (MainWindow.react sort_files list_of_set h state))
    (snd (MainWindow.react sort_files list_of_set h state)).
Proof.
  destruct state as [self w]. cbn [fst snd]. intros [Hlabels Hlists].
  destruct h as [ev|success message|success message]; cbn [MainWindow.react fst snd].
  - split; [now apply refresh_labels|now apply refresh_lists].
  - unfold MainWindow.on_stitching_finished. widgets_simpl. now split.
  - unfold MainWindow.on_slicing_finished. widgets_simpl. now split.
Qed.

Lemma session_keeps (hs : list MainWindow.happening) :
  forall state,
    MainWindow.labels_ok (fst state) (snd state) /\
    MainWindow.lists_ok (fst state) (snd state) ->
    MainWindow.labels_ok (fst (MainWindow.session sort_files list_of_set hs state))
      (snd (MainWindow.session sort_files list_of_set hs state)) /\
    MainWindow.lists_ok (fst (MainWindow.session sort_files list_of_set hs state))
      (snd (MainWindow.session sort_files list_of_set hs state)).
Proof.
  induction hs as [|h hs IH]; intros state Hok; [exact Hok|].
  cbn [MainWindow.session fold_left]. apply IH. now apply react_keeps.
Qed.

End Widgets.

(** X7.  Whatever happens to the window (gestures, clicks, workers
    finishing), its two list widgets show the file names of the merge list
    and of the slice list, row for row, and each label shows the value of
    its slider: the count label always, the two limit labels and the split
    label either as their slot writes them or, with the slider where
    [initUI] put it, still in their first wording. *)
Theorem widgets_show_the_window
        (sort_files list_of_set : list string -> list string)
        (hs : list MainWindow.happening) :
  let state := MainWindow.session sort_files list_of_set hs
                 (ImageMatrixApp.init, MainWindow.init) in
  MainWindow.lists_ok (fst state) (snd state) /\
  MainWindow.labels_ok (fst state) (snd state).
Proof.
  cbv zeta.
  destruct (session_keeps sort_files list_of_set hs
              (ImageMatrixApp.init, MainWindow.init)) as [Hlabels Hlists].
  - split.
    + unfold MainWindow.labels_ok. cbn. tauto.
    + split; reflexivity.
  - now split.
Qed.

Lemma session_limits (sort_files list_of_set : list string -> list string)
      (hs : list MainWindow.happening) :
  forall state,
    ImageMatrixApp.limit_slider_ok (ImageMatrixApp.m_limit_slider (fst state)) /\
    ImageMatrixApp.limit_slider_ok (ImageMatrixApp.s_limit_slider (fst state)) ->
    ImageMatrixApp.limit_slider_ok
      (ImageMatrixApp.m_limit_slider
         (fst (MainWindow.session sort_files list_of_set hs state))) /\
    ImageMatrixApp.limit_slider_ok
      (ImageMatrixApp.s_limit_slider
         (fst (MainWindow.session sort_files list_of_set hs state))).
Proof.
  induction hs as [|h hs IH]; intros state Hok; [exact Hok|].
  cbn [MainWindow.session fold_left]. apply IH.
  destruct state as [self w]. destruct h as [ev|success message|success message];
    cbn [MainWindow.react fst]; [|exact Hok|exact Hok].
  now apply handle_limits.
Qed.

(** The six texts a limit label can carry, by slider position. *)
Lemma limit_label_reads (label : string) (v : Z) :
  (0 <= v <= 5)%Z ->
  label = MainWindow.update_limit_label v
  \/ (label = MainWindow.m_limit_label MainWindow.init /\ v = 1%Z) ->
  (label = "大小限制：不限制" <-> (v * 200 = 0)%Z) /\
  (label = "大小限制：1 MB" <-> (v * 200 = 1000)%Z).
Proof.
  intros Hv Hlabel.
  assert (Hcases : (v = 0 \/ v = 1 \/ v = 2 \/ v = 3 \/ v = 4 \/ v = 5)%Z) by lia.
  destruct Hlabel as [-> | [-> ->]].
  - destruct Hcases as [-> | [-> | [-> | [-> | [-> | ->]]]]];
      vm_compute; split; split; intros H; (reflexivity || discriminate).
  - vm_compute; split; split; intros H; discriminate.
Qed.

(** X8.  At any moment of a session, if a click on a start button starts a
    job, the tab's limit label reads "不限制" (no limit) exactly when the job
    gets [max_kb = 0], and "1 MB" exactly when it gets 1000. *)
Theorem limit_label_names_the_job_limit
        (sort_files list_of_set : list string -> list string)
        (hs : list MainWindow.happening) :
  let state := MainWindow.session sort_files list_of_set hs
                 (ImageMatrixApp.init, MainWindow.init) in
  (forall thread,
      In (ImageMatrixApp.StartStitcher thread)
         (ImageMatrixApp.start_stitching (fst state)) ->
      (MainWindow.m_limit_label (snd state) = "大小限制：不限制"
       <-> StitcherThread.max_kb thread = 0%Z) /\
      (MainWindow.m_limit_label (snd state) = "大小限制：1 MB"
       <-> StitcherThread.max_kb thread = 1000%Z)) /\
  (forall thread,
      In (ImageMatrixApp.StartSlicer thread)
         (ImageMatrixApp.start_slicing (fst state)) ->
      (MainWindow.s_limit_label (snd state) = "大小限制：不限制"
       <-> SlicerThread.max_kb thread = 0%Z) /\
      (MainWindow.s_limit_label (snd state) = "大小限制：1 MB"
       <-> SlicerThread.max_kb thread = 1000%Z)).
Proof.
  cbv zeta.
  destruct (session_keeps sort_files list_of_set hs
              (ImageMatrixApp.init, MainWindow.init)) as [Hlabels _].
  { split; [unfold MainWindow.labels_ok; cbn; tauto|split; reflexivity]. }
  destruct (session_limits sort_files list_of_set hs
              (ImageMatrixApp.init, MainWindow.init) init_limit_sliders_ok)
    as [(_ & _ & Hm) (_ & _ & Hs)].
  destruct Hlabels as (Hml & Hsl & _ & _).
  split; intros thread Hin.
  - destruct (start_stitching_thread _ thread Hin) as (w & _ & ->).
    cbn [StitcherThread.max_kb]. now apply limit_label_reads.
  - destruct (start_slicing_thread _ thread Hin) as (w & _ & ->).
    cbn [SlicerThread.max_kb]. now apply limit_label_reads.
Qed.

(** X8 at work: images dropped, the limit slider pulled to 0. *)
Lemma limit_label_names_the_job_limit_witness :
  let state := MainWindow.session NaturalSequencer.order Samples.list_of_set
                 [MainWindow.User (ImageMatrixApp.Drop ["d/a.png"; "d/b.png"]);
                  MainWindow.User (ImageMatrixApp.MoveMergeLimit 0)]
                 (ImageMatrixApp.init, MainWindow.init) in
  let thread := StitcherThread.Make ["d/a.png"; "d/b.png"]
                  ImageMatrixApp.desktop_path 1 None 0 in
  MainWindow.m_limit_label (snd state) = "大小限制：不限制"
  <-> StitcherThread.max_kb thread = 0%Z.
Proof.
  intros state thread.
  destruct (limit_label_names_the_job_limit NaturalSequencer.order Samples.list_of_set
              [MainWindow.User (ImageMatrixApp.Drop ["d/a.png"; "d/b.png"]);
               MainWindow.User (ImageMatrixApp.MoveMergeLimit 0)]) as [Hstitch _].
  apply (Hstitch thread). vm_compute. left. reflexivity.
Defined.

(** ** A job from the click to the message box *)

Lemma start_stitching_single (self : ImageMatrixApp.t) (thread : StitcherThread.t) :
  In (ImageMatrixApp.StartStitcher thread) (ImageMatrixApp.start_stitching self) ->
  ImageMatrixApp.start_stitching self = [ImageMatrixApp.StartStitcher thread].
Proof.
  unfold ImageMatrixApp.start_stitching.
  destruct (ImageMatrixApp.merge_images self); [intros [H|[]]; discriminate|].
  destruct (ImageMatrixApp.merge_target_width self) as [box|w];
    intros [H|[]]; now rewrite H.
Qed.

Lemma start_slicing_single (self : ImageMatrixApp.t) (thread : SlicerThread.t) :
  In (ImageMatrixApp.StartSlicer thread) (ImageMatrixApp.start_slicing self) ->
  ImageMatrixApp.start_slicing self = [ImageMatrixApp.StartSlicer thread].
Proof.
  unfold ImageMatrixApp.start_slicing.
  destruct (ImageMatrixApp.slice_images self); [intros [H|[]]; discriminate|].
  destruct (ImageMatrixApp.slice_target_width self) as [box|w];
    intros [H|[]]; now rewrite H.
Qed.

(** X9.  A click that starts a stitch job ends, when the engine returns or
    raises an [Exception], with the start button enabled again under its
    first caption, every other widget untouched, and exactly one message
    box: "成功" with the engine's message when the engine reported success,
    the error box with the engine's message when it reported failure, and
    the error box with the exception's text when it raised.  When the engine
    raises what [except Exception] does not catch, no signal reaches the
    window: the button stays disabled under its busy caption and no box is
    shown.  A click that starts nothing leaves the widgets alone. *)
Theorem stitch_job_ends_in_one_message_box
        (stitch_images : StitcherThread.engine)
        (self : ImageMatrixApp.t) (w : MainWindow.widgets) :
  (forall thread,
      In (ImageMatrixApp.StartStitcher thread) (ImageMatrixApp.start_stitching self) ->
      MainWindow.stitch_round stitch_images self w
      = match stitch_images (StitcherThread.image_paths thread)
                (StitcherThread.output_dir thread) (StitcherThread.split_count thread)
                (StitcherThread.target_width thread) (StitcherThread.max_kb thread) with
        | Returned (true, message) =>
            (MainWindow.with_m_start_btn MainWindow.m_start_idle w,
             [MainWindow.Information "成功" (message ++ Py.nl ++ "已保存到桌面。")])
        | Returned (false, message) =>
            (MainWindow.with_m_start_btn MainWindow.m_start_idle w,
             [MainWindow.Critical "错误" ("拼接失败：" ++ Py.nl ++ message)])
        | Raised e =>
            (MainWindow.with_m_start_btn MainWindow.m_start_idle w,
             [MainWindow.Critical "错误" ("拼接失败：" ++ Py.nl ++ e)])
        | Uncaught _ =>
            (MainWindow.with_m_start_btn MainWindow.m_start_busy w, [])
        end) /\
  ((forall thread,
       ~ In (ImageMatrixApp.StartStitcher thread) (ImageMatrixApp.start_stitching self)) ->
   MainWindow.stitch_round stitch_images self w = (w, [])).
Proof.
  split.
  - intros thread Hin. unfold MainWindow.stitch_round.
    rewrite (start_stitching_single self thread Hin).
    unfold emitted. rewrite stitcher_run_cases. unfold StitcherThread.outcome_of.
    destruct (stitch_images _ _ _ _ _) as [[[|] message]|e|u]; reflexivity.
  - intros Hnone. unfold MainWindow.stitch_round.
    destruct (ImageMatrixApp.start_stitching self) as [|[t b|thread|thread] [|e rest]];
      try reflexivity.
    exfalso. apply (Hnone thread). now left.
Qed.

(** X9 at work on the sample merge window: the sample engine, and an engine
    that exits. *)
Lemma stitch_job_ends_in_one_message_box_witness :
  MainWindow.stitch_round Samples.stitch_images Samples.merge_window MainWindow.init
  = (MainWindow.init,
     [MainWindow.Information "成功" ("done" ++ Py.nl ++ "已保存到桌面。")]) /\
  MainWindow.stitch_round Samples.stitch_images_exits Samples.merge_window MainWindow.init
  = (MainWindow.with_m_start_btn MainWindow.m_start_busy MainWindow.init, []).
Proof.
  assert (Hin : In (ImageMatrixApp.StartStitcher
                      (StitcherThread.Make ["d/img1.png"; "d/img2.png"]
                         ImageMatrixApp.desktop_path 2 None 200))
                   (ImageMatrixApp.start_stitching Samples.merge_window))
    by (vm_compute; left; reflexivity).
  split.
  - rewrite (proj1 (stitch_job_ends_in_one_message_box Samples.stitch_images
                      Samples.merge_window MainWindow.init) _ Hin).
    reflexivity.
  - rewrite (proj1 (stitch_job_ends_in_one_message_box Samples.stitch_images_exits
                      Samples.merge_window MainWindow.init) _ Hin).
    reflexivity.
Defined.

(** X10.  A click that starts a slice job ends, when every call of the
    engine returns or raises an [Exception], with the start button enabled
    again under its first caption, every other widget untouched, and
    exactly one message box carrying the worker's message: the "完成" box if
    the worker reported success, the "注意" box otherwise.  When the first
    call that does not return raises what [except Exception] does not
    catch, no signal reaches the window: the button stays disabled under
    its busy caption and no box is shown. *)
Theorem slice_job_ends_in_one_message_box
        (slice_image : SlicerThread.engine)
        (self : ImageMatrixApp.t) (w : MainWindow.widgets) (thread : SlicerThread.t) :
  In (ImageMatrixApp.StartSlicer thread) (ImageMatrixApp.start_slicing self) ->
  ((forall p, In p (SlicerThread.image_paths thread) ->
              SlicerThread.raises_uncaught slice_image thread p = false) ->
   exists success message,
     emitted (SlicerThread.run slice_image thread) = [Signal success message] /\
     MainWindow.slice_round slice_image self w
     = (MainWindow.with_s_start_btn MainWindow.s_start_idle w,
        [if success then MainWindow.Information "完成" message
         else MainWindow.Caution "注意" message])) /\
  (forall before p after u,
      SlicerThread.image_paths thread = (before ++ p :: after)%list ->
      (forall q, In q before -> SlicerThread.raises slice_image thread q = false) ->
      SlicerThread.outcome_of slice_image thread p = Uncaught u ->
      MainWindow.slice_round slice_image self w
      = (MainWindow.with_s_start_btn MainWindow.s_start_busy w, [])).
Proof.
  intros Hin. unfold MainWindow.slice_round.
  rewrite (start_slicing_single self thread Hin). unfold emitted. split.
  - intros Hcaught.
    destruct (first_raise slice_image thread (SlicerThread.image_paths thread))
      as [Hret | (before & p & after & Hpaths & Hb & [[e Hp] | [u Hp]])].
    + rewrite (run_returns slice_image thread Hret). cbv zeta. cbn [snd].
      match goal with
      | |- context [[?sig]] => destruct sig as [success message] eqn:Hsig
      end.
      exists success, message. split; [reflexivity|]. reflexivity.
    + rewrite (run_raises slice_image thread before after p e Hpaths Hb Hp).
      exists false, e. split; reflexivity.
    + exfalso.
      assert (Hp' : In p (SlicerThread.image_paths thread))
        by (rewrite Hpaths; apply in_or_app; right; now left).
      specialize (Hcaught p Hp'). unfold SlicerThread.raises_uncaught in Hcaught.
      now rewrite Hp in Hcaught.
  - intros before p after u Hpaths Hb Hp.
    now rewrite (run_uncaught slice_image thread before after p u Hpaths Hb Hp).
Qed.

(** X10 at work: a batch of one file the sample engine fails on, and the
    same batch with an engine that exits on it. *)
Lemma slice_job_ends_in_one_message_box_witness :
  let self := fst (ImageMatrixApp.run NaturalSequencer.order Samples.list_of_set
                     [ImageMatrixApp.SelectTab 1; ImageMatrixApp.Drop ["d/b.png"]]
                     ImageMatrixApp.init) in
  (exists success message,
      emitted (SlicerThread.run Samples.slice_image
                 (SlicerThread.Make ["d/b.png"] ImageMatrixApp.desktop_path 5 true None 200))
      = [Signal success message] /\
      MainWindow.slice_round Samples.slice_image self MainWindow.init
      = (MainWindow.with_s_start_btn MainWindow.s_start_idle MainWindow.init,
         [if success then MainWindow.Information "完成" message
          else MainWindow.Caution "注意" message])) /\
  MainWindow.slice_round Samples.slice_image_exits self MainWindow.init
  = (MainWindow.with_s_start_btn MainWindow.s_start_busy MainWindow.init, []).
Proof.
  intros self.
  assert (Hin : In (ImageMatrixApp.StartSlicer
                      (SlicerThread.Make ["d/b.png"] ImageMatrixApp.desktop_path 5 true
                         None 200))
                   (ImageMatrixApp.start_slicing self))
    by (vm_compute; left; reflexivity).
  split.
  - apply (proj1 (slice_job_ends_in_one_message_box Samples.slice_image self
                    MainWindow.init _ Hin)).
    intros p Hp. simpl in Hp. destruct Hp as [<-|[]]. reflexivity.
  - apply (proj2 (slice_job_ends_in_one_message_box Samples.slice_image_exits self
                    MainWindow.init _ Hin) [] "d/b.png" [] NotAnException).
    + reflexivity.
    + intros q [].
    + reflexivity.
Defined.

(** ** The custom width field *)

Lemma digit_not_space (c : ascii) : Py.is_digit c = true -> Py.is_space c = false.
Proof.
  unfold Py.is_digit, Py.is_space. cbv zeta.
  destruct (Nat.leb_spec 48 (nat_of_ascii c)); [|discriminate].
  destruct (Nat.leb_spec (nat_of_ascii c) 57); [|discriminate]. intros _.
  destruct (Nat.eqb_spec (nat_of_ascii c) 32); [lia|].
  destruct (Nat.leb_spec 9 (nat_of_ascii c)), (Nat.leb_spec (nat_of_ascii c) 13),
    (Nat.leb_spec 28 (nat_of_ascii c)), (Nat.leb_spec (nat_of_ascii c) 31);
    cbn; (reflexivity || lia).
Qed.

(** Stripping leaves text made of digits as it is. *)
Lemma strip_digits (s : string) : Py.all_digits s = true -> Py.strip s = s.
Proof.
  intros Hd. unfold Py.strip.
  assert (Hl : Py.lstrip s = s).
  { destruct s as [|c s]; [reflexivity|]. cbn in *.
    apply andb_true_iff in Hd. destruct Hd as [Hc _].
    now rewrite (digit_not_space c Hc). }
  rewrite Hl. clear Hl. induction s as [|c s IH]; [reflexivity|].
  cbn [Py.all_digits] in Hd. apply andb_true_iff in Hd. destruct Hd as [Hc Hs].
  cbn [Py.rstrip Py.all_space]. rewrite (digit_not_space c Hc). cbn [andb].
  now rewrite (IH Hs).
Qed.

Lemma digits_val_total (s : string) :
  Py.all_digits s = true ->
  forall acc, (0 <= acc)%Z -> exists w, Py.digits_val acc s = Some w /\ (0 <= w)%Z.
Proof.
  induction s as [|c s IH]; intros Hd acc Hacc.
  - exists acc. now split.
  - cbn [Py.all_digits] in Hd. apply andb_true_iff in Hd. destruct Hd as [Hc Hs].
    cbn [Py.digits_val]. rewrite Hc. apply (IH Hs).
    unfold Py.digit_val. unfold Py.is_digit in Hc. cbv zeta in Hc.
    destruct (Nat.leb_spec 48 (nat_of_ascii c)); [|discriminate]. lia.
Qed.

Lemma count_digits_length (s : string) :
  Py.all_digits s = true -> Py.count_digits s = Z.of_nat (String.length s).
Proof.
  induction s as [|c s IH]; intros Hd; [reflexivity|].
  cbn [Py.all_digits] in Hd. apply andb_true_iff in Hd. destruct Hd as [Hc Hs].
  cbn [Py.count_digits String.length]. rewrite Hc, (IH Hs). lia.
Qed.

Lemma unsigned_int_digits (s : string) :
  Py.all_digits s = true -> s <> "" ->
  Py.unsigned_int s
  = if (Py.max_str_digits <? Z.of_nat (String.length s))%Z then None
    else Py.digits_val 0 s.
Proof.
  intros Hd Hne. destruct s as [|c rest]; [congruence|].
  destruct (digits_val_total _ Hd 0%Z ltac:(lia)) as (w & Hw & _).
  rewrite <- (count_digits_length _ Hd).
  unfold Py.unsigned_int. rewrite Hw.
  cbn [Py.all_digits] in Hd. apply andb_true_iff in Hd. destruct Hd as [Hc _].
  now rewrite Hc.
Qed.

(** On text made of digits [int] reads the digits, sign and blanks playing
    no part, unless there are too many of them. *)
Lemma int_digits (s : string) :
  Py.all_digits s = true -> s <> "" ->
  Py.int s
  = if (Py.max_str_digits <? Z.of_nat (String.length s))%Z then None
    else Py.digits_val 0 s.
Proof.
  intros Hd Hne. unfold Py.int. rewrite (strip_digits s Hd).
  rewrite <- (unsigned_int_digits s Hd Hne).
  destruct s as [|c rest]; [congruence|].
  cbn [Py.all_digits] in Hd. apply andb_true_iff in Hd. destruct Hd as [Hc _].
  destruct c as [[] [] [] [] [] [] [] []]; try discriminate Hc; reflexivity.
Qed.

(** Reading back what [str] printed. *)
Lemma digits_val_printed (d : Decimal.uint) :
  forall a : nat,
    Py.digits_val (Z.of_nat a) (NilEmpty.string_of_uint d)
    = Some (Z.of_nat (Nat.of_uint_acc d a)).
Proof.
  induction d as [|d IH|d IH|d IH|d IH|d IH|d IH|d IH|d IH|d IH|d IH]; intros a;
    [reflexivity|..];
    cbn [NilEmpty.string_of_uint Py.digits_val Nat.of_uint_acc];
    match goal with
    | |- context [Py.is_digit ?c] => change (Py.is_digit c) with true
    end;
    cbv iota; rewrite <- IH; f_equal;
    rewrite ?Nat2Z.inj_succ, Nat.tail_mul_spec, Nat2Z.inj_mul;
    unfold Py.digit_val; cbn [nat_of_ascii]; cbn; lia.
Qed.

Lemma printed_digits (d : Decimal.uint) :
  Py.all_digits (NilEmpty.string_of_uint d) = true.
Proof. induction d; cbn [NilEmpty.string_of_uint Py.all_digits]; auto. Qed.

Lemma to_uint_not_nil (n : nat) : Nat.to_uint n <> Decimal.Nil.
Proof.
  rewrite <- (DecimalNat.Unsigned.of_to n) at 1.
  rewrite DecimalNat.Unsigned.to_of. unfold Decimal.unorm.
  destruct (Decimal.nzhead (Nat.to_uint n)); discriminate.
Qed.

(** [int(str(n)) == n], for as long as [int] takes the digits. *)
Lemma int_str_of_nat (n : nat) :
  (String.length (Py.str_of_nat n) <= 4300)%nat ->
  Py.int (Py.str_of_nat n) = Some (Z.of_nat n).
Proof.
  intros Hlen. unfold Py.str_of_nat in *. rewrite int_digits.
  - unfold Py.max_str_digits.
    destruct (Z.ltb_spec 4300 (Z.of_nat (String.length
                                           (NilEmpty.string_of_uint (Nat.to_uint n)))))
      as [|_]; [lia|].
    change 0%Z with (Z.of_nat 0). rewrite digits_val_printed.
    change (Nat.of_uint_acc (Nat.to_uint n) 0) with (Nat.of_uint (Nat.to_uint n)).
    now rewrite DecimalNat.Unsigned.of_to.
  - apply printed_digits.
  - pose proof (to_uint_not_nil n) as Hne.
    destruct (Nat.to_uint n); try congruence; discriminate.
Qed.

Lemma str_of_nat_truthy (n : nat) : Py.truthy (Py.str_of_nat n) = true.
Proof.
  unfold Py.str_of_nat. pose proof (to_uint_not_nil n) as Hne.
  destruct (Nat.to_uint n); try congruence; reflexivity.
Qed.

(** X11.  With images loaded and the custom width chosen, a field holding
    the decimal text of a number [n] of at most 4300 digits starts the job
    with exactly [target_width = n], on the merge tab and on the slice tab
    alike. *)
Theorem custom_width_is_read_back (n : nat) :
  (String.length (Py.str_of_nat n) <= 4300)%nat ->
  (forall self,
      ImageMatrixApp.merge_images self <> [] ->
      ImageMatrixApp.m_radio self = ImageMatrixApp.MCustom ->
      ImageMatrixApp.m_custom_input self = Py.str_of_nat n ->
      ImageMatrixApp.start_stitching self
      = [ImageMatrixApp.StartStitcher
           (StitcherThread.Make (ImageMatrixApp.merge_images self)
              ImageMatrixApp.desktop_path
              (QSlider.value (ImageMatrixApp.m_split_slider self))
              (Some (Z.of_nat n))
              (QSlider.value (ImageMatrixApp.m_limit_slider self) * 200)%Z)]) /\
  (forall self,
      ImageMatrixApp.slice_images self <> [] ->
      ImageMatrixApp.s_radio self = ImageMatrixApp.SCustom ->
      ImageMatrixApp.s_custom_input self = Py.str_of_nat n ->
      ImageMatrixApp.start_slicing self
      = [ImageMatrixApp.StartSlicer
           (SlicerThread.Make (ImageMatrixApp.slice_images self)
              ImageMatrixApp.desktop_path
              (QSlider.value (ImageMatrixApp.s_count_slider self))
              (ImageMatrixApp.s_smart_check self)
              (Some (Z.of_nat n))
              (QSlider.value (ImageMatrixApp.s_limit_slider self) * 200)%Z)]).
Proof.
  intros Hlen.
  assert (Hstrip : Py.strip (Py.str_of_nat n) = Py.str_of_nat n)
    by (apply strip_digits, printed_digits).
  split; intros self Himgs Hradio Htext.
  - unfold ImageMatrixApp.start_stitching, ImageMatrixApp.merge_target_width,
      ImageMatrixApp.m_radio_750_isChecked, ImageMatrixApp.m_radio_1080_isChecked,
      ImageMatrixApp.m_radio_custom_isChecked.
    rewrite Hradio, Htext, Hstrip, str_of_nat_truthy, (int_str_of_nat n Hlen).
    cbn [negb].
    destruct (ImageMatrixApp.merge_images self); [congruence|reflexivity].
  - unfold ImageMatrixApp.start_slicing, ImageMatrixApp.slice_target_width,
      ImageMatrixApp.s_radio_custom_isChecked.
    rewrite Hradio, Htext, Hstrip, str_of_nat_truthy, (int_str_of_nat n Hlen).
    cbn [negb].
    destruct (ImageMatrixApp.slice_images self); [congruence|reflexivity].
Qed.

(** X11 at work: 1242 typed on the sample merge window. *)
Lemma custom_width_is_read_back_witness :
  let self := fst (ImageMatrixApp.run NaturalSequencer.order Samples.list_of_set
                     [ImageMatrixApp.ChooseMergeWidth ImageMatrixApp.MCustom;
                      ImageMatrixApp.TypeMergeWidth "1242"]
                     Samples.merge_window) in
  ImageMatrixApp.start_stitching self
  = [ImageMatrixApp.StartStitcher
       (StitcherThread.Make ["d/img1.png"; "d/img2.png"] ImageMatrixApp.desktop_path 2
          (Some 1242%Z) 200)].
Proof.
  intros self.
  assert (Hlen : (String.length (Py.str_of_nat 1242) <= 4300)%nat)
    by (vm_compute; lia).
  rewrite (proj1 (custom_width_is_read_back 1242 Hlen) self); [reflexivity| | |];
    vm_compute; congruence.
Defined.

(** X12.  With images loaded and the custom width chosen, a field holding
    ASCII digits only, at least one and at most 4300, never brings up the
    input error: the job starts, with a width that is not negative.  With
    more than 4300 digits [int] raises [ValueError]: both tabs show the
    input error and start nothing. *)
Theorem digits_are_a_valid_width (text : string) :
  Py.all_digits text = true -> text <> "" ->
  ((String.length text <= 4300)%nat ->
   (forall self,
       ImageMatrixApp.merge_images self <> [] ->
       ImageMatrixApp.m_radio self = ImageMatrixApp.MCustom ->
       ImageMatrixApp.m_custom_input self = text ->
       exists thread w,
         ImageMatrixApp.start_stitching self = [ImageMatrixApp.StartStitcher thread] /\
         StitcherThread.target_width thread = Some w /\ (0 <= w)%Z) /\
   (forall self,
       ImageMatrixApp.slice_images self <> [] ->
       ImageMatrixApp.s_radio self = ImageMatrixApp.SCustom ->
       ImageMatrixApp.s_custom_input self = text ->
       exists thread w,
         ImageMatrixApp.start_slicing self = [ImageMatrixApp.StartSlicer thread] /\
         SlicerThread.target_width thread = Some w /\ (0 <= w)%Z)) /\
  ((4300 < String.length text)%nat ->
   (forall self,
       ImageMatrixApp.merge_images self <> [] ->
       ImageMatrixApp.m_radio self = ImageMatrixApp.MCustom ->
       ImageMatrixApp.m_custom_input self = text ->
       ImageMatrixApp.start_stitching self = [ImageMatrixApp.input_error]) /\
   (forall self,
       ImageMatrixApp.slice_images self <> [] ->
       ImageMatrixApp.s_radio self = ImageMatrixApp.SCustom ->
       ImageMatrixApp.s_custom_input self = text ->
       ImageMatrixApp.start_slicing self = [ImageMatrixApp.input_error])).
Proof.
  intros Hd Hne.
  destruct (digits_val_total text Hd 0%Z ltac:(lia)) as (w & Hw & Hpos).
  pose proof (int_digits text Hd Hne) as Hint. unfold Py.max_str_digits in Hint.
  assert (Htruthy : Py.truthy text = true) by (destruct text; [congruence|reflexivity]).
  split; intros Hlen.
  - destruct (Z.ltb_spec 4300 (Z.of_nat (String.length text))) as [|_]; [lia|].
    rewrite Hw in Hint.
    split; intros self Himgs Hradio Htext.
    + unfold ImageMatrixApp.start_stitching, ImageMatrixApp.merge_target_width,
        ImageMatrixApp.m_radio_750_isChecked, ImageMatrixApp.m_radio_1080_isChecked,
        ImageMatrixApp.m_radio_custom_isChecked.
      rewrite Hradio, Htext, (strip_digits text Hd), Htruthy, Hint. cbn [negb].
      destruct (ImageMatrixApp.merge_images self); [congruence|].
      eexists. exists w. split; [reflexivity|]. now split.
    + unfold ImageMatrixApp.start_slicing, ImageMatrixApp.slice_target_width,
        ImageMatrixApp.s_radio_custom_isChecked.
      rewrite Hradio, Htext, (strip_digits text Hd), Htruthy, Hint. cbn [negb].
      destruct (ImageMatrixApp.slice_images self); [congruence|].
      eexists. exists w. split; [reflexivity|]. now split.
  - destruct (Z.ltb_spec 4300 (Z.of_nat (String.length text))) as [_|]; [|lia].
    split; intros self Himgs Hradio Htext.
    + unfold ImageMatrixApp.start_stitching, ImageMatrixApp.merge_target_width,
        ImageMatrixApp.m_radio_750_isChecked, ImageMatrixApp.m_radio_1080_isChecked,
        ImageMatrixApp.m_radio_custom_isChecked.
      rewrite Hradio, Htext, (strip_digits text Hd), Htruthy, Hint. cbn [negb].
      destruct (ImageMatrixApp.merge_images self); [congruence|reflexivity].
    + unfold ImageMatrixApp.start_slicing, ImageMatrixApp.slice_target_width,
        ImageMatrixApp.s_radio_custom_isChecked.
      rewrite Hradio, Htext, (strip_digits text Hd), Htruthy, Hint. cbn [negb].
      destruct (ImageMatrixApp.slice_images self); [congruence|reflexivity].
Qed.

(** X12 at work: a width typed with leading zeros starts the job; 4301
    nines bring up the input error. *)
Lemma digits_are_a_valid_width_witness :
  let typed := fun text =>
                 fst (ImageMatrixApp.run NaturalSequencer.order Samples.list_of_set
                        [ImageMatrixApp.ChooseMergeWidth ImageMatrixApp.MCustom;
                         ImageMatrixApp.TypeMergeWidth text]
                        Samples.merge_window) in
  (exists thread w,
      ImageMatrixApp.start_stitching (typed "0750")
      = [ImageMatrixApp.StartStitcher thread] /\
      StitcherThread.target_width thread = Some w /\ (0 <= w)%Z) /\
  ImageMatrixApp.start_stitching (typed (Samples.nines 4301))
  = [ImageMatrixApp.input_error].
Proof.
  intros typed. split.
  - apply (proj1 (proj1 (digits_are_a_valid_width "0750" ltac:(reflexivity)
                           ltac:(discriminate))
                    ltac:(vm_compute; lia)));
      vm_compute; congruence.
  - assert (Hd : Py.all_digits (Samples.nines 4301) = true) by (vm_compute; reflexivity).
    assert (Hne : Samples.nines 4301 <> ""%string) by (vm_compute; discriminate).
    assert (Hlen : (4300 < String.length (Samples.nines 4301))%nat).
    { apply Nat.ltb_lt. vm_compute. reflexivity. }
    apply (proj1 (proj2 (digits_are_a_valid_width (Samples.nines 4301) Hd Hne) Hlen)).
    + vm_compute; congruence.
    + reflexivity.
    + reflexivity.
Defined.

(** ** The rows of the list widgets *)

Lemma basename_no_slash (p : string) : Py.has_slash (Py.basename p) = false.
Proof.
  induction p as [|c rest IH]; [reflexivity|].
  cbn [Py.basename]. destruct (Py.has_slash rest) eqn:Hrest; [exact IH|].
  destruct (Py.is_slash c) eqn:Hc; [exact Hrest|].
  cbn [Py.has_slash]. now rewrite Hc, Hrest.
Qed.

Lemma basename_of_name (name : string) :
  Py.has_slash name = false -> Py.basename name = name.
Proof.
  destruct name as [|c rest]; [reflexivity|].
  cbn [Py.has_slash Py.basename]. intros H. apply orb_false_iff in H.
  destruct H as [Hc Hrest]. now rewrite Hrest, Hc.
Qed.

Lemma has_slash_append (s t : string) :
  Py.has_slash (s ++ t) = Py.has_slash s || Py.has_slash t.
Proof.
  induction s as [|c s IH]; [reflexivity|].
  cbn [append Py.has_slash]. rewrite IH. now rewrite orb_assoc.
Qed.

Lemma basename_in_folder (folder name : string) :
  Py.has_slash name = false -> Py.basename (folder ++ "/" ++ name) = name.
Proof.
  intros Hname. induction folder as [|c folder IH].
  - cbn [append Py.basename]. rewrite Hname. reflexivity.
  - cbn [append Py.basename].
    rewrite has_slash_append. cbn [append Py.has_slash].
    replace (Py.is_slash "/") with true by reflexivity.
    rewrite orb_true_r. exact IH.
Qed.

(** X13.  Whatever happens to the window, no row of its two list widgets
    contains a slash, and an image [folder/name] (the name free of slashes)
    is shown as [name]: for every image of either list the row in its place
    is the file name. *)
Theorem rows_are_file_names
        (sort_files list_of_set : list string -> list string)
        (hs : list MainWindow.happening) :
  let state := MainWindow.session sort_files list_of_set hs
                 (ImageMatrixApp.init, MainWindow.init) in
  (forall row,
      In row (MainWindow.merge_list (snd state)) \/
      In row (MainWindow.slice_list (snd state)) ->
      Py.has_slash row = false) /\
  (forall i folder name,
      Py.has_slash name = false ->
      (nth_error (ImageMatrixApp.merge_images (fst state)) i
       = Some (folder ++ "/" ++ name) ->
       nth_error (MainWindow.merge_list (snd state)) i = Some name) /\
      (nth_error (ImageMatrixApp.slice_images (fst state)) i
       = Some (folder ++ "/" ++ name) ->
       nth_error (MainWindow.slice_list (snd state)) i = Some name)).
Proof.
  cbv zeta.
  destruct (session_keeps sort_files list_of_set hs
              (ImageMatrixApp.init, MainWindow.init)) as [_ [Hm Hs]].
  { split; [unfold MainWindow.labels_ok; cbn; tauto|split; reflexivity]. }
  rewrite Hm, Hs. unfold MainWindow.rows. split.
  - intros row [Hrow|Hrow]; apply in_map_iff in Hrow;
      destruct Hrow as (p & <- & _); apply basename_no_slash.
  - intros i folder name Hname. split; intros Hnth;
      rewrite nth_error_map, Hnth; cbn [option_map];
      now rewrite basename_in_folder.
Qed.

(** X13 at work: the rows after a drop on the merge tab. *)
Lemma rows_are_file_names_witness :
  let state := MainWindow.session NaturalSequencer.order Samples.list_of_set
                 [MainWindow.User (ImageMatrixApp.Drop ["C:/shots/p2.png"; "C:/old/p1.png"])]
                 (ImageMatrixApp.init, MainWindow.init) in
  nth_error (MainWindow.merge_list (snd state)) 0 = Some "p1.png".
Proof.
  intros state.
  destruct (rows_are_file_names NaturalSequencer.order Samples.list_of_set
              [MainWindow.User (ImageMatrixApp.Drop ["C:/shots/p2.png"; "C:/old/p1.png"])])
    as [_ Hrows].
  apply (proj1 (Hrows 0%nat "C:/old" "p1.png" ltac:(reflexivity))).
  reflexivity.
Defined.

(** ** Dropping the same files again on the merge tab *)

Lemma setMaximum_twice (hi : Z) (s : QSlider.t) :
  QSlider.setMaximum hi (QSlider.setMaximum hi s) = QSlider.setMaximum hi s.
Proof.
  destruct s as [lo top v].
  unfold QSlider.setMaximum, QSlider.setRange, QSlider.setValue, QSlider.bound.
  cbn [QSlider.minimum QSlider.maximum QSlider.value]. f_equal; lia.
Qed.

(** X14.  On the merge tab, dropping the same files a second time changes
    nothing, as long as [sort_files] rearranges what it is given and answers
    by the set of paths, and the set lists each path once. *)
Theorem drop_twice_on_merge_tab
        (sort_files list_of_set : list string -> list string)
        (files : list string) (self : ImageMatrixApp.t) :
  ImageMatrixApp.tabs_currentIndex self = 0%Z ->
  rearranges sort_files -> answers_by_set sort_files -> lists_each_once list_of_set ->
  let once := ImageMatrixApp.dropEvent sort_files list_of_set files self in
  ImageMatrixApp.dropEvent sort_files list_of_set files (fst once) = once.
Proof.
  intros Htab Hsort Hset_fn Hset once. unfold once, ImageMatrixApp.dropEvent.
  destruct (filter ImageMatrixApp.is_image files) as [|f fs] eqn:Hvalid;
    [reflexivity|].
  rewrite Htab. cbn [Z.eqb fst ImageMatrixApp.tabs_currentIndex
                       ImageMatrixApp.slice_images ImageMatrixApp.merge_images
                       ImageMatrixApp.m_radio ImageMatrixApp.m_custom_input
                       ImageMatrixApp.m_limit_slider ImageMatrixApp.m_split_slider
                       ImageMatrixApp.s_radio ImageMatrixApp.s_custom_input
                       ImageMatrixApp.s_limit_slider ImageMatrixApp.s_count_slider
                       ImageMatrixApp.s_smart_check].
  set (merged := sort_files (list_of_set (ImageMatrixApp.merge_images self ++ f :: fs)%list)).
  assert (Hsame : sort_files (list_of_set (merged ++ f :: fs)%list) = merged).
  { unfold merged at 2. apply Hset_fn; try apply Hset.
    intros x. rewrite (proj2 (Hset _) x), (proj2 (Hset _) x), !in_app_iff.
    unfold merged. split.
    - intros [Hx|Hx]; [|now right].
      apply (Permutation_in _ (Hsort _)) in Hx.
      apply (proj1 (proj2 (Hset _) x)) in Hx. now rewrite in_app_iff in Hx.
    - intros Hx. left.
      apply (Permutation_in _ (Permutation_sym (Hsort _))).
      apply (proj2 (proj2 (Hset _) x)). now rewrite in_app_iff. }
  rewrite Hsame, setMaximum_twice. reflexivity.
Qed.

Lemma text_le_total (p q : string) :
  Samples.text_le p q = false -> Samples.text_le q p = true.
Proof.
  unfold Samples.text_le.
  rewrite (cmp_antisym (cmp := String.compare) q p).
  destruct (String.compare p q); cbn; congruence.
Qed.

Lemma text_le_trans (p q r : string) :
  Samples.text_le p q = true -> Samples.text_le q r = true ->
  Samples.text_le p r = true.
Proof.
  unfold Samples.text_le.
  destruct (String.compare p q) eqn:Epq; try discriminate;
    destruct (String.compare q r) eqn:Eqr; try discriminate;
    intros _ _.
  - apply cmp_eq in Epq. now rewrite Epq, Eqr.
  - apply cmp_eq in Epq. now rewrite Epq, Eqr.
  - apply cmp_eq in Eqr. now rewrite <- Eqr, Epq.
  - now rewrite (cmp_trans (cmp := String.compare) _ _ _ Epq Eqr).
Qed.

Lemma text_le_antisym (p q : string) :
  Samples.text_le p q = true -> Samples.text_le q p = true -> p = q.
Proof.
  unfold Samples.text_le.
  rewrite (cmp_antisym (cmp := String.compare) q p).
  destruct (String.compare p q) eqn:E; cbn; try discriminate; intros _ _.
  now apply cmp_eq in E.
Qed.

Lemma sort_by_text_rearranges : rearranges Samples.sort_by_text.
Proof. intros l. apply (sort_perm Samples.text_le). Qed.

Lemma sort_by_text_answers_by_set : answers_by_set Samples.sort_by_text.
Proof.
  intros l l' Hl Hl' Hsame.
  apply (sort_of_set Samples.text_le text_le_total text_le_trans); auto.
  intros p q _ _. apply text_le_antisym.
Qed.

(** X14 at work with a sort by plain text. *)
Lemma drop_twice_on_merge_tab_witness :
  let once := ImageMatrixApp.dropEvent Samples.sort_by_text Samples.list_of_set
                ["e/img10.png"; "d/img1.png"] Samples.merge_window in
  ImageMatrixApp.dropEvent Samples.sort_by_text Samples.list_of_set
    ["e/img10.png"; "d/img1.png"] (fst once) = once.
Proof.
  apply (drop_twice_on_merge_tab Samples.sort_by_text Samples.list_of_set).
  - reflexivity.
  - exact sort_by_text_rearranges.
  - exact sort_by_text_answers_by_set.
  - exact nodup_lists_each_once.
Defined.
